(** * Drone Ops control plane: policy, action workflow, detectors, evidence

    A shallow embedding of the Drone Ops service of the intercept
    repository (utils/drone/policy.py, remote_id.py, detector.py and
    service.py, with utils/authz.py and the action endpoints of
    routes/drone_ops.py) together with the properties its specification
    states and further properties of the code.

    Conventions of the embedding.
    - A Python [str] is a [string]; a character stands for the code point
      of the same number (0..255).
    - A Python [float] is the rational value of its double.  The sums
      and comparisons of the scores are exact on the decimals they
      involve and are written on [Q] directly; where a result depends on
      binary rounding (the frequency arithmetic of the RF detector),
      literals, conversions, [-] and [/] round to the nearest double
      ([Py.b64]).  [round(x, 3)] is round-half-to-even on thousandths,
      as CPython computes it on the exact value of its argument.  NaN
      and infinities are outside the model; [Py.float_raises] tells
      where [float] raises OverflowError.
    - The wall clock is an explicit argument: every [time.time()] of the
      source is a parameter [now] of the embedded function.
    - Stateful methods pass the service state explicitly and return the
      new state with their result.  Calls are taken one after the other;
      what the source does under a lock is one step.
    - What the code takes from the Python library without fixing its
      result here ([json.loads], [float] and [str] of arbitrary values)
      is a field of the class [Py.Runtime]; [json.dumps] with sorted keys
      and [hashlib.sha256] are embedded in full.
    - utils/database.py is not among the sources.  The rows of the action
      workflow live in a map whose operations follow the specification's
      description of the store; the reads of the evidence builder are
      parameters. *)

From Stdlib Require Import ZArith QArith Qround Qabs Lqa Lia Bool List Ascii String.
From Stdlib Require Import Qminmax Qpower DecimalString Sorted Permutation.
From Stdlib Require SpecFloat.
From stdpp Require Import base option list gmap strings.
Import ListNotations.

Set Warnings "-register-all".
Local Open Scope Z_scope.

(** ** Python strings *)

Module PyStr.
Local Open Scope string_scope.

Definition code (c : ascii) : N := N_of_ascii c.

Definition in_range (lo hi n : N) : bool := ((lo <=? n) && (n <=? hi))%N.

(** [c.isspace()]: the Unicode white space below code point 256. *)
Definition isspace (c : ascii) : bool :=
  let n := code c in
  in_range 9 13 n || in_range 28 32 n || (n =? 133)%N || (n =? 160)%N.

(** [c.lower()]: A-Z and the Latin-1 capitals. *)
Definition lower_char (c : ascii) : ascii :=
  let n := code c in
  if in_range 65 90 n || (in_range 192 222 n && negb (n =? 215)%N)
  then ascii_of_N (n + 32) else c.

(** [c.upper()]: a-z and the Latin-1 small letters whose capital is again
    below 256 (the capitals of code points 181, 223 and 255 are not, and
    those three are left as they are). *)
Definition upper_char (c : ascii) : ascii :=
  let n := code c in
  if in_range 97 122 n || (in_range 224 254 n && negb (n =? 247)%N)
  then ascii_of_N (n - 32) else c.

Fixpoint map_chars (f : ascii -> ascii) (s : string) : string :=
  match s with
  | EmptyString => EmptyString
  | String c r => String (f c) (map_chars f r)
  end.

Definition lower (s : string) : string := map_chars lower_char s.
Definition upper (s : string) : string := map_chars upper_char s.

Definition is_empty (s : string) : bool :=
  match s with EmptyString => true | String _ _ => false end.

(** Truth value of a string: [bool(s)]. *)
Definition truthy (s : string) : bool := negb (is_empty s).

Fixpoint lstrip (s : string) : string :=
  match s with
  | EmptyString => EmptyString
  | String c r => if isspace c then lstrip r else s
  end.

Fixpoint rstrip (s : string) : string :=
  match s with
  | EmptyString => EmptyString
  | String c r =>
      let r' := rstrip r in
      if is_empty r' && isspace c then EmptyString else String c r'
  end.

(** [s.strip()] *)
Definition strip (s : string) : string := rstrip (lstrip s).

(** [s.startswith(p)] *)
Fixpoint startswith (s p : string) {struct p} : bool :=
  match p, s with
  | EmptyString, _ => true
  | String _ _, EmptyString => false
  | String a p', String b s' => Ascii.eqb a b && startswith s' p'
  end.

(** [s.replace(a, b)] for one-character [a] and [b]. *)
Definition replace_char (a b : ascii) (s : string) : string :=
  map_chars (fun c => if Ascii.eqb c a then b else c) s.

(** [s[:n]] *)
Fixpoint take (n : nat) (s : string) : string :=
  match n, s with
  | O, _ => EmptyString
  | _, EmptyString => EmptyString
  | S n', String c r => String c (take n' r)
  end.

Fixpoint drop (n : nat) (s : string) : string :=
  match n, s with
  | O, _ => s
  | _, EmptyString => EmptyString
  | S n', String _ r => drop n' r
  end.

(** [s[-n:]] for [n > 0] *)
Definition last_chars (n : nat) (s : string) : string :=
  drop (String.length s - n) s.

(** [p in s] *)
Fixpoint contains (s p : string) : bool :=
  startswith s p ||
  match s with
  | EmptyString => false
  | String _ r => contains r p
  end.

(** [x or ''] for an optional string. *)
Definition or_empty (x : option string) : string :=
  match x with Some s => s | None => EmptyString end.

End PyStr.

(** ** utils/drone/policy.py *)

Module Policy.
Import PyStr.
Local Open Scope string_scope.

Definition required_approvals_for_action (action_type : option string) : Z :=
  let action := lower (strip (or_empty action_type)) in
  if startswith action "passive_" then 1 else 2.

End Policy.

(** ** Python values *)

Module Py.
Import PyStr.
Local Open Scope string_scope.

(** The values that events, payloads and store rows are made of.  A
    dictionary is an association list in insertion order; a lookup finds
    the first binding of the key. *)
Inductive value : Type :=
| PyNone
| PyBool (b : bool)
| PyInt (n : Z)
| PyFloat (x : Q)
| PyStr (s : string)
| PyList (l : list value)
| PyDict (d : list (string * value)).

Abbreviation dict := (list (string * value)).

Fixpoint dict_get (k : string) (d : dict) : option value :=
  match d with
  | [] => None
  | (k', v) :: r => if String.eqb k k' then Some v else dict_get k r
  end.

(** [k in d] *)
Definition dict_mem (k : string) (d : dict) : bool :=
  match dict_get k d with Some _ => true | None => false end.

(** [d.get(k)] *)
Definition get (k : string) (d : dict) : value :=
  match dict_get k d with Some v => v | None => PyNone end.

Fixpoint dict_remove (k : string) (d : dict) : dict :=
  match d with
  | [] => []
  | (k', v) :: r =>
      if String.eqb k k' then dict_remove k r else (k', v) :: dict_remove k r
  end.

(** [d[k] = v]: an existing key keeps its place, a new one goes last. *)
Fixpoint dict_set (k : string) (v : value) (d : dict) : dict :=
  match d with
  | [] => [(k, v)]
  | (k', v') :: r =>
      if String.eqb k k' then (k, v) :: r else (k', v') :: dict_set k v r
  end.

(** [bool(v)] *)
Definition truthy (v : value) : bool :=
  match v with
  | PyNone => false
  | PyBool b => b
  | PyInt n => negb (Z.eqb n 0)
  | PyFloat x => negb (Qeq_bool x 0)
  | PyStr s => PyStr.truthy s
  | PyList l => match l with [] => false | _ => true end
  | PyDict d => match d with [] => false | _ => true end
  end.

(** [a or b] *)
Definition or_ (a b : value) : value := if truthy a then a else b.

Definition is_none (v : value) : bool :=
  match v with PyNone => true | _ => false end.

(** [isinstance(v, dict)] with the dictionary itself. *)
Definition as_dict (v : value) : option dict :=
  match v with PyDict d => Some d | _ => None end.

(** What the embedding takes from the Python runtime and its standard
    library: [json.loads] ([None] when it raises JSONDecodeError),
    [float] of a string ([None] when it raises ValueError), [str] of a
    value that is not a string, [bytes.decode('utf-8', errors='replace')]
    and the format [f'{x:.3f}'].  An int is parsed and printed whatever
    its length: the interpreter's limit on the digits of an int
    ([sys.set_int_max_str_digits]) is taken as unset. *)
Class Runtime : Type := {
  json_loads : string -> option value;
  float_of_string : string -> option Q;
  repr : value -> string;
  utf8_decode : string -> string;
  format_3f : Q -> string
}.

(** [str(v)] *)
Definition str `{Runtime} (v : value) : string :=
  match v with PyStr s => s | _ => repr v end.

(** [float(v)] where it returns, as the number itself; [None] stands
    for TypeError or ValueError.  An int beyond the range of the doubles
    makes the call raise OverflowError instead ([float_raises] below). *)
Definition float `{Runtime} (v : value) : option Q :=
  match v with
  | PyBool b => Some (if b then 1 else 0)%Q
  | PyInt n => Some (inject_Z n)
  | PyFloat x => Some x
  | PyStr s => float_of_string s
  | PyNone | PyList _ | PyDict _ => None
  end.

(** [round(x)] to the nearest integer, ties to the even one. *)
Definition round_half_even (x : Q) : Z :=
  let f := Qfloor x in
  match (x - inject_Z f ?= 1 # 2)%Q with
  | Lt => f
  | Gt => f + 1
  | Eq => if Z.even f then f else f + 1
  end.

(** [round(x, 3)] for the exact value [x] of a float: the nearest number
    of three decimals, ties to the even one.  The float Python returns is
    the double nearest to that decimal and is written as the decimal. *)
Definition round3 (x : Q) : Q := Qmake (round_half_even (x * 1000)) 1000.

(** [round(x, 6)], likewise. *)
Definition round6 (x : Q) : Q := Qmake (round_half_even (x * 1000000)) 1000000.

(** [min(a, b)] and [max(a, b)] on floats: the first argument unless the
    second is strictly smaller (larger). *)
Definition fmin (a b : Q) : Q := if Qlt_le_dec b a then b else a.
Definition fmax (a b : Q) : Q := if Qlt_le_dec a b then b else a.

(** [a < b], [a <= b] as booleans. *)
Definition flt (a b : Q) : bool := if Qlt_le_dec a b then true else false.
Definition fle (a b : Q) : bool := if Qlt_le_dec b a then false else true.

(** *** Doubles

    A Python float is a binary64 number.  Where a computation depends on
    the binary rounding (the arithmetic of the RF detector), a float is
    the rational value of its double: literals and converted numbers go
    through [b64], differences and quotients are rounded by [fsub] and
    [fdiv]. *)

(** [2 ** e] *)
Definition pow2 (e : Z) : Q := (2 ^ e)%Q.

(** The integer part of the binary logarithm of [a > 0]. *)
Definition ilog2 (a : Q) : Z :=
  let k := Z.log2 (Qnum a) - Z.log2 (Zpos (Qden a)) in
  if Qle_bool (pow2 k) a then k else k - 1.

(** The exponent of the last of the 53 bits of the double nearest to
    [a > 0]; the subnormal numbers end at 2 ** -1074. *)
Definition ulp_exp (a : Q) : Z := Z.max (ilog2 a - 52) (-1074).

(** The double nearest to [x], ties to the even mantissa.  A number
    beyond the largest double is left finite where Python has infinity;
    the detector discards both alike. *)
Definition b64 (x : Q) : Q :=
  if Qeq_bool x 0 then 0%Q
  else
    let e := ulp_exp (Qabs x) in
    (inject_Z (round_half_even (x * pow2 (- e))) * pow2 e)%Q.

(** [a - b] and [a / b] on doubles. *)
Definition fsub (a b : Q) : Q := b64 (a - b).
Definition fdiv (a b : Q) : Q := b64 (a / b).

(** Whether [float(v)] raises OverflowError: an int that rounds beyond
    the largest double, 2 ** 1024 - 2 ** 971. *)
Definition float_raises (v : value) : bool :=
  match v with
  | PyInt n => Z.leb (2 ^ 1024 - 2 ^ 970) (Z.abs n)
  | _ => false
  end.

(** [float(v)] as a double. *)
Definition float64 `{Runtime} (v : value) : option Q :=
  match float v with Some x => Some (b64 x) | None => None end.

End Py.

(** ** utils/drone/remote_id.py *)

Module RemoteId.
Import PyStr Py.
Local Open Scope string_scope.

Definition DRONE_ID_KEYS : list string :=
  ["uas_id"; "drone_id"; "serial_number"; "serial"; "id"; "uasId"].
Definition OPERATOR_ID_KEYS : list string :=
  ["operator_id"; "pilot_id"; "operator"; "operatorId"].
Definition LAT_KEYS : list string := ["lat"; "latitude"].
Definition LON_KEYS : list string := ["lon"; "lng"; "longitude"].
Definition ALT_KEYS : list string := ["alt"; "altitude"; "altitude_m"; "height"].
Definition SPEED_KEYS : list string := ["speed"; "speed_mps"; "ground_speed"].
Definition HEADING_KEYS : list string := ["heading"; "heading_deg"; "course"].

(** [path.split('.')] *)
Fixpoint split_dot (s : string) : list string :=
  match s with
  | EmptyString => [EmptyString]
  | String c r =>
      if Ascii.eqb c "."%char then EmptyString :: split_dot r
      else match split_dot r with
           | h :: t => String c h :: t
           | [] => [String c EmptyString]
           end
  end.

(** The inner loop of [_get_nested]: follow the parts of one path;
    [None] when [valid] ends up false. *)
Fixpoint walk (current : value) (parts : list string) : option value :=
  match parts with
  | [] => Some current
  | part :: rest =>
      match current with
      | PyDict d =>
          match dict_get part d with
          | Some v => walk v rest
          | None => None
          end
      | _ => None
      end
  end.

Fixpoint _get_nested (data : dict) (paths : list string) : value :=
  match paths with
  | [] => PyNone
  | path :: more =>
      match walk (PyDict data) (split_dot path) with
      | Some v => v
      | None => _get_nested data more
      end
  end.

(** [_coerce_float(v)] where it returns; it catches TypeError and
    ValueError only, so the OverflowError of [float] leaves it. *)
Definition _coerce_float `{Runtime} (v : value) : option Q :=
  match v with
  | PyNone => None
  | PyStr EmptyString => None
  | _ => float v
  end.

(** The first loop of [_pick]: the first key present at top level. *)
Fixpoint pick_top (data : dict) (keys : list string) : option value :=
  match keys with
  | [] => None
  | key :: more =>
      if dict_mem key data then Some (get key data) else pick_top data more
  end.

(** The loop over [keys] under one prefix: the first hit that is not None. *)
Fixpoint pick_under (data : dict) (prefix : string) (keys : list string)
  : option value :=
  match keys with
  | [] => None
  | key :: more =>
      let hit := _get_nested data [prefix ++ "." ++ key] in
      if is_none hit then pick_under data prefix more else Some hit
  end.

Fixpoint pick_nested (data : dict) (keys : list string) (prefixes : list string)
  : option value :=
  match prefixes with
  | [] => None
  | prefix :: more =>
      match pick_under data prefix keys with
      | Some hit => Some hit
      | None => pick_nested data keys more
      end
  end.

Definition _pick (data : dict) (keys : list string) (nested_prefixes : list string)
  : value :=
  match pick_top data keys with
  | Some v => v
  | None =>
      match pick_nested data keys nested_prefixes with
      | Some hit => hit
      | None => PyNone
      end
  end.

(** A payload is a value or a byte string. *)
Inductive payload : Type :=
| Value (v : value)
| Bytes (b : string).

Definition _normalize_input `{Runtime} (p : payload) : dict * string :=
  match p with
  | Value (PyDict d) => (d, "dict")
  | _ =>
      let text :=
        match p with
        | Bytes b => strip (utf8_decode b)
        | Value v => strip (str (or_ v (PyStr "")))
        end in
      if is_empty text then ([], "empty")
      else match json_loads text with
           | Some (PyDict parsed) => (parsed, "json")
           | _ => ([("raw", PyStr text)], "raw")
           end
  end.

(** The record [decode_remote_id_payload] returns (a dict with exactly
    these keys in the source). *)
Record remote_id : Type := {
  detected : bool;
  source_format : string;
  uas_id : option string;
  operator_id : option string;
  lat : option Q;
  lon : option Q;
  altitude_m : option Q;
  speed_mps : option Q;
  heading_deg : option Q;
  confidence : Q;
  raw : dict
}.

(** [x is not None] *)
Definition present {A} (a : option A) : bool :=
  match a with Some _ => true | None => false end.

Definition both {A B} (a : option A) (b : option B) : bool :=
  present a && present b.

Definition decode_remote_id_payload `{Runtime} (p : payload) : remote_id :=
  let '(data, fmt) := _normalize_input p in
  let drone_id := _pick data DRONE_ID_KEYS ["remote_id"; "message"; "uas"] in
  let operator := _pick data OPERATOR_ID_KEYS ["remote_id"; "message"; "operator"] in
  let position := ["remote_id"; "message"; "position"] in
  let lat := _coerce_float (_pick data LAT_KEYS position) in
  let lon := _coerce_float (_pick data LON_KEYS position) in
  let alt := _coerce_float (_pick data ALT_KEYS position) in
  let speed := _coerce_float (_pick data SPEED_KEYS position) in
  let heading := _coerce_float (_pick data HEADING_KEYS position) in
  let c0 := 0%Q in
  let c1 := if truthy drone_id then (c0 + 0.35)%Q else c0 in
  let c2 := if both lat lon then (c1 + 0.35)%Q else c1 in
  let c3 := if present alt then (c2 + 0.15)%Q else c2 in
  let c4 := if truthy operator then (c3 + 0.15)%Q else c3 in
  let conf := fmin 1 (round3 c4) in
  {| detected := truthy drone_id || (both lat lon && fle 0.35 conf);
     source_format := fmt;
     uas_id := if truthy drone_id then Some (strip (str drone_id)) else None;
     operator_id := if truthy operator then Some (strip (str operator)) else None;
     lat := lat;
     lon := lon;
     altitude_m := alt;
     speed_mps := speed;
     heading_deg := heading;
     confidence := conf;
     raw := data |}.

(** Whether [decode_remote_id_payload] raises OverflowError: one of the
    five picked numbers is an int beyond the range of the doubles.
    [decode_remote_id_payload] above is the record returned otherwise. *)
Definition decode_raises `{Runtime} (p : payload) : bool :=
  let data := fst (_normalize_input p) in
  let position := ["remote_id"; "message"; "position"] in
  existsb (fun keys => float_raises (_pick data keys position))
    [LAT_KEYS; LON_KEYS; ALT_KEYS; SPEED_KEYS; HEADING_KEYS].

End RemoteId.

(** ** utils/drone/detector.py *)

Module Detector.
Import PyStr Py RemoteId.
Local Open Scope string_scope.

(** The separators [[-_\s]] of the SSID patterns. *)
Definition is_sep (c : ascii) : bool :=
  Ascii.eqb c "-" || Ascii.eqb c "_" || isspace c.

(** One alternative of an SSID pattern at the head of [s]: the word,
    ignoring case, then a separator or the end of the string. *)
Definition word_here (s w : string) : bool :=
  startswith (lower s) w &&
  match drop (String.length w) s with
  | EmptyString => true
  | String c _ => is_sep c
  end.

(** [pattern.search(s)] for the pattern [(^|[-_\s])(w1|...|wn)([-_\s]|$)]
    with [re.IGNORECASE]; [boundary] tells whether the position is the
    start of the string or follows a separator. *)
Fixpoint token_search_from (boundary : bool) (words : list string) (s : string)
  : bool :=
  (boundary && existsb (word_here s) words) ||
  match s with
  | EmptyString => false
  | String c r => token_search_from (is_sep c) words r
  end.

Definition token_search (words : list string) (s : string) : bool :=
  token_search_from true words s.

(** The alternatives of each pattern of [SSID_PATTERNS]. *)
Definition SSID_PATTERNS : list (list string) :=
  [ ["dji"; "mavic"; "phantom"; "inspire"; "matrice"; "mini"];
    ["parrot"; "anafi"; "bebop"];
    ["autel"; "evo"];
    ["skydio"; "yuneec"];
    ["uas"; "uav"; "drone"; "rid"; "opendroneid"] ].

Definition DRONE_OUI_PREFIXES : list (string * string) :=
  [ ("60:60:1F", "DJI"); ("90:3A:E6", "DJI"); ("34:D2:62", "DJI");
    ("90:3A:AF", "DJI"); ("00:12:1C", "Parrot"); ("90:03:B7", "Parrot");
    ("48:1C:B9", "Autel"); ("AC:89:95", "Skydio") ].

Fixpoint oui_lookup (k : string) (t : list (string * string)) : option string :=
  match t with
  | [] => None
  | (k', v) :: r => if String.eqb k k' then Some v else oui_lookup k r
  end.

(** A pattern of [BT_NAME_PATTERNS]: plain alternatives, and whether the
    alternative [remote\s?id] belongs to it. *)
Definition BT_NAME_PATTERNS : list (list string * bool) :=
  [ (["dji"; "mavic"; "phantom"; "inspire"; "matrice"; "mini"], false);
    (["parrot"; "anafi"; "bebop"], false);
    (["autel"; "evo"], false);
    (["skydio"; "yuneec"], false);
    (["opendroneid"; "uas"; "uav"; "drone"], true) ].

(** [remote\s?id] at the head of [s], ignoring case. *)
Definition remote_id_here (s : string) : bool :=
  startswith (lower s) "remote" &&
  let r := drop 6 s in
  startswith (lower r) "id" ||
  match r with
  | String c r' => isspace c && startswith (lower r') "id"
  | EmptyString => false
  end.

Fixpoint remote_id_anywhere (s : string) : bool :=
  remote_id_here s ||
  match s with
  | EmptyString => false
  | String _ r => remote_id_anywhere r
  end.

Definition name_search (pat : list string * bool) (s : string) : bool :=
  existsb (contains (lower s)) (fst pat) || (snd pat && remote_id_anywhere s).

Definition REMOTE_ID_UUID_HINTS : list string := ["fffa"; "faff"; "fffb"].

(** The known bands, each the double its literal denotes. *)
Definition RF_FREQ_HINTS_MHZ : list Q :=
  map b64 [315.0; 433.92; 868.0; 915.0; 1200.0; 2400.0; 5800.0]%Q.

Definition mem_str (x : string) (l : list string) : bool :=
  existsb (String.eqb x) l.

Section WithRuntime.
Context `{RT : Runtime}.

Definition _normalize_mac (v : value) : string :=
  let text := replace_char "-" ":" (upper (strip (str (or_ v (PyStr ""))))) in
  if (8 <=? String.length text)%nat then text else "".

Definition _extract_wifi_event (event : value) : option dict :=
  match event with
  | PyDict e =>
      match get "network" e with
      | PyDict n => Some n
      | _ =>
          if existsb (fun k => dict_mem k e) ["bssid"; "essid"; "ssid"]
          then Some e else None
      end
  | _ => None
  end.

Definition _extract_bt_event (event : value) : option dict :=
  match event with
  | PyDict e =>
      match get "device" e with
      | PyDict d => Some d
      | _ =>
          if existsb (fun k => dict_mem k e)
               ["device_id"; "address"; "name"; "manufacturer_name"; "service_uuids"]
          then Some e else None
      end
  | _ => None
  end.

(** [not x] for the optional dictionary the extractors return. *)
Definition falsy_dict (o : option dict) : bool :=
  match o with Some (_ :: _) => false | _ => true end.

Definition is_digit (c : ascii) : bool := in_range 48 57 (code c).

(** The longest run of [[0-9]] at the head of [s], and what follows it. *)
Fixpoint span_digits (s : string) : string * string :=
  match s with
  | EmptyString => (EmptyString, EmptyString)
  | String c r =>
      if is_digit c
      then let '(ds, rest) := span_digits r in (String c ds, rest)
      else (EmptyString, s)
  end.

(** [\s*MHz] at the head of [s], ignoring case. *)
Definition mhz_here (s : string) : bool := startswith (lower (lstrip s)) "mhz".

(** A match of [([0-9]{2,4}(?:\.[0-9]+)?)\s*MHz] that starts at the head
    of [s]: its group 1.  A run of more than four digits cannot be
    followed by the unit, and neither can a shorter part of a run. *)
Definition mhz_match_here (s : string) : option string :=
  let '(ds, r) := span_digits s in
  let n := String.length ds in
  if (2 <=? n)%nat && (n <=? 4)%nat then
    match r with
    | String "."%char r1 =>
        let '(fs, r2) := span_digits r1 in
        if negb (is_empty fs) && mhz_here r2 then Some (ds ++ "." ++ fs) else None
    | _ => if mhz_here r then Some ds else None
    end
  else None.

(** [re.search] of that pattern: the leftmost match. *)
Fixpoint mhz_search (s : string) : option string :=
  match mhz_match_here s with
  | Some g => Some g
  | None =>
      match s with
      | EmptyString => None
      | String _ r => mhz_search r
      end
  end.

Definition digit_value (c : ascii) : Z := Z.of_N (code c) - 48.

Fixpoint digits_value (acc : Z) (s : string) : Z :=
  match s with
  | EmptyString => acc
  | String c r => digits_value (10 * acc + digit_value c) r
  end.

(** The number a group [g] of digits with an optional fraction writes. *)
Definition float_of_decimal (g : string) : Q :=
  let '(ds, r) := span_digits g in
  match r with
  | String "."%char fs =>
      Qmake (digits_value (digits_value 0 ds) fs) (Pos.pow 10 (Pos.of_nat (String.length fs)))
  | _ => inject_Z (digits_value 0 ds)
  end.

(** What [_extract_frequency_mhz] ends with: the OverflowError of a
    [float] call, which it does not catch, or the value it returns. *)
Inductive extracted : Type :=
| Overflow
| NoFrequency
| Frequency (f : Q).

(** The loop over the candidates of [_extract_frequency_mhz]: [None]
    is passed over, and so is a value [float] rejects with TypeError or
    ValueError; the floats are doubles. *)
Fixpoint first_in_band (candidates : list value) : extracted :=
  match candidates with
  | [] => NoFrequency
  | v :: more =>
      if is_none v then first_in_band more
      else if float_raises v then Overflow
      else
        match float64 v with
        | None => first_in_band more
        | Some f0 =>
            let f := if flt 100000 f0 then fdiv f0 1000000 else f0 in
            if fle 1 f && fle f 7000 then Frequency (b64 (round6 f))
            else first_in_band more
        end
  end.

(** [_extract_frequency_mhz(event)]: the candidates, with the quotient
    of [frequency_hz] taken before the loop, then the text. *)
Definition extract_frequency (event : value) : extracted :=
  match event with
  | PyDict e =>
      let hz := get "frequency_hz" e in
      if dict_mem "frequency_hz" e && float_raises hz then Overflow
      else
        let candidates :=
          ([ get "frequency_mhz" e; get "frequency" e ] ++
           (if dict_mem "frequency_hz" e
            then match float64 hz with
                 | Some x => [PyFloat (fdiv x 1000000)]
                 | None => []
                 end
            else []))%list in
        match first_in_band candidates with
        | NoFrequency =>
            let text := str (or_ (or_ (get "text" e) (get "message" e)) (PyStr "")) in
            match mhz_search text with
            | Some g => Frequency (b64 (float_of_decimal g))
            | None => NoFrequency
            end
        | r => r
        end
  | _ => NoFrequency
  end.

(** The float [_extract_frequency_mhz] returns; [None] also where it
    raises. *)
Definition _extract_frequency_mhz (event : value) : option Q :=
  match extract_frequency event with
  | Frequency f => Some f
  | _ => None
  end.

(** Whether [_extract_frequency_mhz] raises. *)
Definition _extract_frequency_raises (event : value) : bool :=
  match extract_frequency event with
  | Overflow => true
  | _ => false
  end.

Fixpoint min_list (x : Q) (l : list Q) : Q :=
  match l with
  | [] => x
  | y :: r => min_list (fmin x y) r
  end.

(** [min(abs(freq_mhz - hint) for hint in RF_FREQ_HINTS_MHZ)] *)
Definition _closest_freq_delta (freq_mhz : Q) : Q :=
  match map (fun hint => Qabs (fsub freq_mhz hint)) RF_FREQ_HINTS_MHZ with
  | [] => 0%Q
  | d :: r => min_list d r
  end.

Record track : Type := {
  track_lat : Q;
  track_lon : Q;
  track_altitude_m : option Q;
  track_speed_mps : option Q;
  track_heading_deg : option Q;
  track_quality : Q;
  track_source : string
}.

Definition _maybe_track_from_remote_id (r : remote_id) (source : string)
  : option track :=
  if negb (detected r) then None
  else match lat r, lon r with
       | Some la, Some lo =>
           Some {| track_lat := la; track_lon := lo;
                   track_altitude_m := altitude_m r;
                   track_speed_mps := speed_mps r;
                   track_heading_deg := heading_deg r;
                   track_quality := confidence r;
                   track_source := source |}
       | _, _ => None
       end.

(** A detection (a dict with exactly these keys in the source). *)
Record detection : Type := {
  source : string;
  identifier : string;
  classification : string;
  det_confidence : Q;
  det_payload : dict;
  det_remote_id : option remote_id;
  det_track : option track
}.

Definition opt_str (o : option string) : value :=
  match o with Some s => PyStr s | None => PyNone end.

(** The local variables of [_detect_wifi] up to the threshold test. *)
Record wifi_eval : Type := {
  w_bssid : string;
  w_ssid : string;
  w_score : Q;
  w_reasons : list string;
  w_remote_id : remote_id
}.

Definition wifi_locals (network : dict) : wifi_eval :=
  let bssid := _normalize_mac (or_ (or_ (get "bssid" network) (get "mac" network))
                                   (get "id" network)) in
  let ssid := strip (str (or_ (or_ (or_ (get "essid" network) (get "ssid" network))
                                   (get "display_name" network)) (PyStr ""))) in
  let '(score1, reasons1) :=
    if PyStr.truthy ssid && existsb (fun pat => token_search pat ssid) SSID_PATTERNS
    then ((0 + 0.45)%Q, ["ssid_pattern"]) else (0%Q, []) in
  let '(score2, reasons2) :=
    if PyStr.truthy bssid && (8 <=? String.length bssid)%nat then
      match oui_lookup (take 8 bssid) DRONE_OUI_PREFIXES with
      | Some brand => ((score1 + 0.45)%Q, (reasons1 ++ [("known_oui:" ++ brand)%string])%list)
      | None => (score1, reasons1)
      end
    else (score1, reasons1) in
  let rid := decode_remote_id_payload (Value (PyDict network)) in
  let '(score3, reasons3) :=
    if detected rid then (fmax score2 0.75, (reasons2 ++ ["remote_id_payload"])%list)
    else (score2, reasons2) in
  {| w_bssid := bssid; w_ssid := ssid; w_score := score3;
     w_reasons := reasons3; w_remote_id := rid |}.

(** The detections [_detect_wifi] returns; [_detect_wifi_raises] below
    tells where the decoder makes it raise instead. *)
Definition _detect_wifi (event : value) : list detection :=
  let network := _extract_wifi_event event in
  match network with
  | Some ((_ :: _) as network) =>
      let w := wifi_locals network in
      let identifier := if PyStr.truthy (w_bssid w) then w_bssid w else w_ssid w in
      if negb (PyStr.truthy identifier) then []
      else if flt (w_score w) 0.5 then []
      else
        let rid := w_remote_id w in
        [ {| source := "wifi";
             identifier := identifier;
             classification :=
               if detected rid then "wifi_drone_remote_id" else "wifi_drone_signature";
             det_confidence := fmin 1 (round3 (w_score w));
             det_payload :=
               [ ("network", PyDict network);
                 ("reasons", PyList (map PyStr (w_reasons w)));
                 ("brand_hint",
                  if PyStr.truthy (w_bssid w)
                  then opt_str (oui_lookup (take 8 (w_bssid w)) DRONE_OUI_PREFIXES)
                  else PyNone) ];
             det_remote_id := if detected rid then Some rid else None;
             det_track := _maybe_track_from_remote_id rid "wifi" |} ]
  | _ => []
  end.

(** Whether [_detect_wifi] raises: the OverflowError of the decoder,
    which is called once the network has an identifier. *)
Definition _detect_wifi_raises (event : value) : bool :=
  match _extract_wifi_event event with
  | Some ((_ :: _) as network) =>
      let w := wifi_locals network in
      PyStr.truthy (if PyStr.truthy (w_bssid w) then w_bssid w else w_ssid w) &&
      decode_raises (Value (PyDict network))
  | _ => false
  end.

(** [s.replace(a, '')] for a one-character [a]. *)
Fixpoint remove_char (a : ascii) (s : string) : string :=
  match s with
  | EmptyString => EmptyString
  | String c r => if Ascii.eqb c a then remove_char a r else String c (remove_char a r)
  end.

Fixpoint chars (s : string) : list value :=
  match s with
  | EmptyString => []
  | String c r => PyStr (String c EmptyString) :: chars r
  end.

(** What [for x in v] goes through; [None] when [v] is not iterable
    (TypeError). *)
Definition iterate (v : value) : option (list value) :=
  match v with
  | PyList l => Some l
  | PyStr s => Some (chars s)
  | PyDict d => Some (map (fun kv => PyStr (fst kv)) d)
  | PyNone | PyBool _ | PyInt _ | PyFloat _ => None
  end.

Definition uuid_hint (uuid : value) : bool :=
  mem_str (last_chars 4 (lower (remove_char "-" (str uuid)))) REMOTE_ID_UUID_HINTS.

(** [_detect_bluetooth]; [None] when it raises: TypeError from the loop
    over [service_uuids], OverflowError from the decoder. *)
Definition _detect_bluetooth (event : value) : option (list detection) :=
  match _extract_bt_event event with
  | Some ((_ :: _) as device) =>
      let address := _normalize_mac (or_ (get "address" device) (get "mac" device)) in
      let device_id := strip (str (or_ (get "device_id" device) (PyStr ""))) in
      let name := strip (str (or_ (get "name" device) (PyStr ""))) in
      let manufacturer := strip (str (or_ (get "manufacturer_name" device) (PyStr ""))) in
      let identifier :=
        if PyStr.truthy address then address
        else if PyStr.truthy device_id then device_id else name in
      if negb (PyStr.truthy identifier) then Some []
      else
        let haystack := strip (name ++ " " ++ manufacturer) in
        let '(score1, reasons1) :=
          if PyStr.truthy haystack && existsb (fun pat => name_search pat haystack) BT_NAME_PATTERNS
          then ((0 + 0.55)%Q, ["name_or_vendor_pattern"]) else (0%Q, []) in
        match iterate (or_ (get "service_uuids" device) (PyList [])) with
        | None => None
        | Some uuids =>
            let '(score2, reasons2) :=
              if existsb uuid_hint uuids
              then (fmax score1 0.7, (reasons1 ++ ["remote_id_service_uuid"])%list)
              else (score1, reasons1) in
            let tracker := match get "tracker" device with PyDict t => t | _ => [] end in
            let '(score3, reasons3) :=
              if truthy (get "is_tracker" tracker) &&
                 contains (lower (str (or_ (get "type" tracker) (PyStr "")))) "drone"
              then (fmax score2 0.7, (reasons2 ++ ["tracker_engine_drone_label"])%list)
              else (score2, reasons2) in
            if decode_raises (Value (PyDict device)) then None
            else
            let rid := decode_remote_id_payload (Value (PyDict device)) in
            let '(score4, reasons4) :=
              if detected rid then (fmax score3 0.75, (reasons3 ++ ["remote_id_payload"])%list)
              else (score3, reasons3) in
            if flt score4 0.55 then Some []
            else
              Some
                [ {| source := "bluetooth";
                     identifier := identifier;
                     classification :=
                       if detected rid then "bluetooth_drone_remote_id"
                       else "bluetooth_drone_signature";
                     det_confidence := fmin 1 (round3 score4);
                     det_payload :=
                       [ ("device", PyDict device);
                         ("reasons", PyList (map PyStr reasons4)) ];
                     det_remote_id := if detected rid then Some rid else None;
                     det_track := _maybe_track_from_remote_id rid "bluetooth" |} ]
        end
  | _ => Some []
  end.

(** The detections [_detect_rf] returns; it raises where
    [_extract_frequency_mhz] does. *)
Definition _detect_rf (event : value) : list detection :=
  match event with
  | PyDict e =>
      match _extract_frequency_mhz event with
      | None => []
      | Some freq_mhz =>
          let delta := _closest_freq_delta freq_mhz in
          if flt 35 delta then []
          else
            let score := fmax 0.5 (fsub (b64 0.85) (fdiv delta 100)) in
            let confidence := fmin 1 (round3 score) in
            let event_id :=
              str (or_ (or_ (get "capture_id" e) (get "id" e))
                       (PyStr (format_3f freq_mhz ++ "MHz"))) in
            [ {| source := "rf";
                 identifier := "rf:" ++ event_id;
                 classification := "rf_drone_link_activity";
                 det_confidence := confidence;
                 det_payload :=
                   [ ("event", event);
                     ("frequency_mhz", PyFloat freq_mhz);
                     ("delta_from_known_band_mhz", PyFloat (round3 delta));
                     ("known_bands_mhz", PyList (map PyFloat RF_FREQ_HINTS_MHZ)) ];
                 det_remote_id := None;
                 det_track := None |} ]
      end
  | _ => []
  end.

(** [a or b] on optional strings ([None] and [''] are false). *)
Definition or_str (a : option string) (b : string) : string :=
  match a with
  | Some s => if PyStr.truthy s then s else b
  | None => b
  end.

(** [detect_from_event]; [None] when the call raises (TypeError or
    OverflowError, see the detectors). *)
Definition detect_from_event (mode : value) (event : value) (event_type : value)
  : option (list detection) :=
  let mode_lower := lower (str (or_ mode (PyStr ""))) in
  if startswith mode_lower "wifi"
  then if _detect_wifi_raises event then None else Some (_detect_wifi event)
  else if startswith mode_lower "bluetooth" || startswith mode_lower "bt"
  then _detect_bluetooth event
  else if mem_str mode_lower ["subghz"; "listening_scanner"; "waterfall"; "listening"]
  then if _extract_frequency_raises event then None else Some (_detect_rf event)
  else if decode_raises (Value event) then None
  else
    let rid := decode_remote_id_payload (Value event) in
    if detected rid then
      let src := if PyStr.truthy mode_lower then mode_lower else "unknown" in
      Some
        [ {| source := src;
             identifier := or_str (uas_id rid) (or_str (operator_id rid) "remote_id");
             classification := "remote_id_detected";
             det_confidence :=
               if Qeq_bool (confidence rid) 0 then 0.6%Q else confidence rid;
             det_payload := [ ("event", event); ("event_type", event_type) ];
             det_remote_id := Some rid;
             det_track := _maybe_track_from_remote_id rid src |} ]
    else Some [].

End WithRuntime.

End Detector.

(** ** The store behind the action workflow *)

Module Store.
Import Py.
Local Open Scope string_scope.

Inductive status : Type := pending | approved | rejected | executed.

Record approval : Type := {
  approved_by : string;
  decision : string;
  notes : option string
}.

Record action_request : Type := {
  id : Z;
  incident_id : Z;
  action_type : string;
  requested_by : string;
  payload : dict;
  req_status : status;
  approvals : list approval;
  executed_by : option string
}.

Record audit_entry : Type := {
  request_id : Z;
  event_type : string;
  actor : string;
  details : dict
}.

Record db : Type := {
  action_requests : gmap Z action_request;
  action_audit_log : list audit_entry;
  next_request_id : Z
}.

Definition empty_db : db :=
  {| action_requests := ∅; action_audit_log := []; next_request_id := 1 |}.

Definition with_requests (d : db) (m : gmap Z action_request) : db :=
  {| action_requests := m;
     action_audit_log := action_audit_log d;
     next_request_id := next_request_id d |}.

(** Modelled from the spec: utils/database.py is not among the sources.
    The spec treats it as a plain CRUD store over the tables it lists:
    identifiers are assigned in increasing order, a new request is
    [pending] with no approval, approvals and audit entries are appended,
    and a status update overwrites the status (and [executed_by] when it
    is given) of the row with that id. *)
Definition create_action_request (d : db) (incident : Z) (atype : string)
    (requester : string) (pl : dict) : db * Z :=
  let rid := next_request_id d in
  let row := {| id := rid; incident_id := incident; action_type := atype;
                requested_by := requester; payload := pl;
                req_status := pending; approvals := []; executed_by := None |} in
  ({| action_requests := <[rid := row]> (action_requests d);
      action_audit_log := action_audit_log d;
      next_request_id := rid + 1 |}, rid).

(** Modelled from the spec: [get_action_request] of utils/database.py,
    the row with its approvals, or [None]. *)
Definition get_action_request (d : db) (rid : Z) : option action_request :=
  action_requests d !! rid.

Definition append_approval (a : approval) (r : action_request) : action_request :=
  {| id := id r; incident_id := incident_id r; action_type := action_type r;
     requested_by := requested_by r; payload := payload r;
     req_status := req_status r; approvals := approvals r ++ [a];
     executed_by := executed_by r |}.

(** Modelled from the spec: [add_action_approval] of utils/database.py
    appends one approval to the request's list. *)
Definition add_action_approval (d : db) (rid : Z) (by_ : string) (dec : string)
    (nt : option string) : db :=
  with_requests d
    (alter (append_approval {| approved_by := by_; decision := dec; notes := nt |})
           rid (action_requests d)).

(** Modelled from the spec: [add_action_audit_log] of utils/database.py
    appends one entry to the audit log. *)
Definition add_action_audit_log (d : db) (rid : Z) (ev : string) (who : string)
    (det : dict) : db :=
  {| action_requests := action_requests d;
     action_audit_log :=
       action_audit_log d ++
       [ {| request_id := rid; event_type := ev; actor := who; details := det |} ];
     next_request_id := next_request_id d |}.

Definition set_status (st : status) (by_ : option string) (r : action_request)
  : action_request :=
  {| id := id r; incident_id := incident_id r; action_type := action_type r;
     requested_by := requested_by r; payload := payload r;
     req_status := st; approvals := approvals r;
     executed_by := match by_ with Some a => Some a | None => executed_by r end |}.

(** Modelled from the spec: [update_action_request_status] of
    utils/database.py overwrites the status of the row. *)
Definition update_action_request_status (d : db) (rid : Z) (st : status)
    (by_ : option string) : db :=
  with_requests d (alter (set_status st by_) rid (action_requests d)).

End Store.

(** ** utils/drone/service.py: policy and action workflow *)

Module Service.
Import PyStr Py Store.
Local Open Scope string_scope.

(** The four private fields of [DroneOpsService] behind [_policy_lock]. *)
Record policy : Type := {
  _armed_until_ts : option Q;
  _armed_by : option string;
  _arm_reason : option string;
  _arm_incident_id : option Z
}.

Definition disarmed : policy :=
  {| _armed_until_ts := None; _armed_by := None;
     _arm_reason := None; _arm_incident_id := None |}.

(** The dict [_policy_state_locked] returns; [armed_until] is kept as the
    time stamp that the source prints in ISO format. *)
Record policy_state : Type := {
  armed : bool;
  armed_by : option string;
  arm_reason : option string;
  arm_incident_id : option Z;
  armed_until : option Q;
  required_approvals_default : Z
}.

Definition _policy_state_locked (p : policy) (now : Q) : policy_state * policy :=
  let is_armed :=
    match _armed_until_ts p with
    | Some until => flt now until
    | None => false
    end in
  let p' := if is_armed then p else disarmed in
  ({| armed := is_armed;
      armed_by := _armed_by p';
      arm_reason := _arm_reason p';
      arm_incident_id := _arm_incident_id p';
      armed_until :=
        match _armed_until_ts p' with
        | Some until => if Qeq_bool until 0 then None else Some until
        | None => None
        end;
      required_approvals_default := 2 |}, p').

(** [int(duration_seconds or 900)] clamped to [60, 7200]. *)
Definition arm_duration (duration_seconds : option Z) : Z :=
  let d := match duration_seconds with
           | Some n => if Z.eqb n 0 then 900 else n
           | None => 900
           end in
  Z.max 60 (Z.min 7200 d).

Definition required_approvals (action_type : option string) : Z :=
  let action := lower (strip (or_empty action_type)) in
  if startswith action "passive_" then 1 else 2.

(** A request as the workflow methods return it: the row, and the keys
    [required_approvals] and [approved_count] when the method adds them. *)
Record request_view : Type := {
  row : action_request;
  view_required_approvals : option Z;
  view_approved_count : option Z
}.

Definition plain (r : action_request) : request_view :=
  {| row := r; view_required_approvals := None; view_approved_count := None |}.

(** The envelopes [_emit] hands to every subscriber (type and payload). *)
Inductive event : Type :=
| policy_armed (actor reason : string) (incident : Z) (st : policy_state)
| policy_disarmed (actor : string) (reason : option string) (st : policy_state)
| action_requested (r : request_view)
| action_approved (r : request_view)
| action_executed (r : request_view).

Record service : Type := {
  store : db;
  pol : policy;
  emitted : list event
}.

Definition initial : service :=
  {| store := empty_db; pol := disarmed; emitted := [] |}.

Definition _emit (s : service) (e : event) : service :=
  {| store := store s; pol := pol s; emitted := emitted s ++ [e] |}.

Definition with_store (s : service) (d : db) : service :=
  {| store := d; pol := pol s; emitted := emitted s |}.

Definition with_policy (s : service) (p : policy) : service :=
  {| store := store s; pol := p; emitted := emitted s |}.

Definition get_policy_state (s : service) (now : Q) : service * policy_state :=
  let '(st, p) := _policy_state_locked (pol s) now in (with_policy s p, st).

(** [arm_actions]: the clock is read at [now] to set the deadline and
    again at [now'] inside [_policy_state_locked]. *)
Definition arm_actions (s : service) (now now' : Q) (actor reason : string)
    (incident : Z) (duration_seconds : option Z) : service * policy_state :=
  let duration := arm_duration duration_seconds in
  let p := {| _armed_until_ts := Some (now + inject_Z duration)%Q;
              _armed_by := Some actor;
              _arm_reason := Some reason;
              _arm_incident_id := Some incident |} in
  let '(st, p') := _policy_state_locked p now' in
  (_emit (with_policy s p') (policy_armed actor reason incident st), st).

Definition disarm_actions (s : service) (now : Q) (actor : string)
    (reason : option string) : service * policy_state :=
  let '(st, p') := _policy_state_locked disarmed now in
  (_emit (with_policy s p') (policy_disarmed actor reason st), st).

Definition request_action (s : service) (incident : Z) (atype : string)
    (requester : string) (pl : option dict) : service * option request_view :=
  let '(d1, rid) :=
    create_action_request (store s) incident atype requester
      (match pl with Some p => p | None => [] end) in
  let d2 := add_action_audit_log d1 rid "requested" requester
              [("payload", PyDict (match pl with Some ((_ :: _) as p) => p | _ => [] end))] in
  match get_action_request d2 rid with
  | Some r =>
      let v := {| row := r;
                  view_required_approvals := Some (required_approvals (Some (action_type r)));
                  view_approved_count := None |} in
      (_emit (with_store s d2) (action_requested v), Some v)
  | None => (with_store s d2, None)
  end.

(** [len([a for a in approvals if str(a.get('decision')).lower() == 'approved'])] *)
Definition count_approved (l : list approval) : Z :=
  Z.of_nat (length (List.filter (fun a => String.eqb (lower (decision a)) "approved") l)).

Definition already_decided (approver : string) (l : list approval) : bool :=
  existsb (fun a => String.eqb (lower (approved_by a)) (lower approver)) l.

Definition approve_action (s : service) (rid : Z) (approver : string)
    (dec : string) (nt : option string) : service * option request_view :=
  match get_action_request (store s) rid with
  | None => (s, None)
  | Some req =>
      if already_decided approver (approvals req) then (s, Some (plain req))
      else
        let d1 := add_action_approval (store s) rid approver dec nt in
        let d2 := add_action_audit_log d1 rid "approval" approver
                    [("decision", PyStr dec);
                     ("notes", match nt with Some n => PyStr n | None => PyNone end)] in
        match get_action_request d2 rid with
        | None => (with_store s d2, None)
        | Some req2 =>
            let approved_count := count_approved (approvals req2) in
            let required := required_approvals (Some (action_type req2)) in
            let d3 :=
              if String.eqb (lower dec) "rejected"
              then update_action_request_status d2 rid rejected None
              else if Z.leb required approved_count &&
                      negb (match req_status req2 with
                            | executed | rejected => true
                            | _ => false
                            end)
              then update_action_request_status d2 rid approved None
              else d2 in
            match get_action_request d3 rid with
            | Some req3 =>
                let v := {| row := req3;
                            view_required_approvals := Some required;
                            view_approved_count := Some approved_count |} in
                (_emit (with_store s d3) (action_approved v), Some v)
            | None => (with_store s d3, None)
            end
        end
  end.

Definition show_Z (n : Z) : string := NilZero.string_of_int (Z.to_int n).

Definition execute_action (s : service) (now : Q) (rid : Z) (who : string)
  : service * (option request_view * option string) :=
  match get_action_request (store s) rid with
  | None => (s, (None, Some "Action request not found"))
  | Some req =>
      let '(s1, policy) := get_policy_state s now in
      if negb (armed policy) then (s1, (None, Some "Action plane is not armed"))
      else
        let approved_count := count_approved (approvals req) in
        let required := required_approvals (Some (action_type req)) in
        if Z.ltb approved_count required then
          (s1, (None, Some ("Insufficient approvals (" ++ show_Z approved_count ++ "/"
                              ++ show_Z required ++ ")")))
        else
          let d1 := update_action_request_status (store s1) rid executed (Some who) in
          let d2 := add_action_audit_log d1 rid "executed" who
                      [("dispatch", PyStr "framework");
                       ("note", PyStr
                          "Execution recorded. Attach route-specific handlers per action_type.")] in
          match get_action_request d2 rid with
          | Some r =>
              let v := {| row := r;
                          view_required_approvals := Some required;
                          view_approved_count := Some approved_count |} in
              (_emit (with_store s1 d2) (action_executed v), (Some v, None))
          | None => (with_store s1 d2, (None, None))
          end
  end.

End Service.

(** ** json.dumps(v, sort_keys=True, separators=(',', ':')) *)

Module Json.
Import PyStr Py.
Local Open Scope string_scope.

Definition dquote : ascii := ascii_of_N 34.
Definition backslash : ascii := ascii_of_N 92.

Definition hex_digit (n : N) : ascii :=
  match String.get (N.to_nat n) "0123456789abcdef" with
  | Some c => c
  | None => "0"%char
  end.

(** How the encoder writes one character of a string (ensure_ascii):
    the short escapes, the printable ASCII as it is, and a four-digit
    escape for the rest. *)
Definition escape_char (c : ascii) : string :=
  let n := code c in
  if (n =? 34)%N then String backslash (String dquote EmptyString)
  else if (n =? 92)%N then String backslash (String backslash EmptyString)
  else if (n =? 10)%N then String backslash "n"
  else if (n =? 13)%N then String backslash "r"
  else if (n =? 9)%N then String backslash "t"
  else if (n =? 12)%N then String backslash "f"
  else if (n =? 8)%N then String backslash "b"
  else if in_range 32 126 n then String c EmptyString
  else String backslash
         (String "u" (String "0" (String "0"
            (String (hex_digit (n / 16)) (String (hex_digit (n mod 16)) EmptyString))))).

Fixpoint escape (s : string) : string :=
  match s with
  | EmptyString => EmptyString
  | String c r => escape_char c ++ escape r
  end.

Definition quote (s : string) : string :=
  String dquote (escape s ++ String dquote EmptyString).

Fixpoint join (sep : string) (l : list string) : string :=
  match l with
  | [] => EmptyString
  | [x] => x
  | x :: r => x ++ sep ++ join sep r
  end.

(** [sorted(items)] by key: insertion into a list kept in order (stable). *)
Fixpoint insert_item (kv : string * string) (l : list (string * string))
  : list (string * string) :=
  match l with
  | [] => [kv]
  | kv' :: r =>
      if String.ltb (fst kv) (fst kv') then kv :: l else kv' :: insert_item kv r
  end.

Definition sort_items (l : list (string * string)) : list (string * string) :=
  fold_right insert_item [] l.

Definition show_int (n : Z) : string := NilZero.string_of_int (Z.to_int n).

Section WithRuntime.
Context `{RT : Runtime}.

Fixpoint dumps (v : value) : string :=
  match v with
  | PyNone => "null"
  | PyBool true => "true"
  | PyBool false => "false"
  | PyInt n => show_int n
  | PyFloat _ => repr v
  | PyStr s => quote s
  | PyList l => "[" ++ join "," (map dumps l) ++ "]"
  | PyDict d =>
      let items := map (fun kv => let '(k, x) := kv in (k, dumps x)) d in
      "{" ++ join "," (map (fun kv => quote (fst kv) ++ ":" ++ snd kv) (sort_items items))
          ++ "}"
  end.

End WithRuntime.

(** [s.encode('utf-8')]: the bytes of a string of code points below 256. *)
Fixpoint encode_utf8 (s : string) : list Z :=
  match s with
  | EmptyString => []
  | String c r =>
      let n := Z.of_N (code c) in
      if Z.ltb n 128 then n :: encode_utf8 r
      else (192 + n / 64) :: (128 + n mod 64) :: encode_utf8 r
  end.

End Json.

(** ** hashlib.sha256 (FIPS 180-4) on 32-bit words written as [Z] *)

Module Sha256.

Definition wrap (x : Z) : Z := x mod 2 ^ 32.
Definition add32 (x y : Z) : Z := wrap (x + y).
Definition rotr (n x : Z) : Z :=
  Z.lor (Z.shiftr x n) (wrap (Z.shiftl x (32 - n))).
Definition not32 (x : Z) : Z := Z.lxor x (2 ^ 32 - 1).

Definition Ch (x y z : Z) : Z := Z.lxor (Z.land x y) (Z.land (not32 x) z).
Definition Maj (x y z : Z) : Z :=
  Z.lxor (Z.lxor (Z.land x y) (Z.land x z)) (Z.land y z).
Definition Sigma0 (x : Z) : Z := Z.lxor (Z.lxor (rotr 2 x) (rotr 13 x)) (rotr 22 x).
Definition Sigma1 (x : Z) : Z := Z.lxor (Z.lxor (rotr 6 x) (rotr 11 x)) (rotr 25 x).
Definition sigma0 (x : Z) : Z := Z.lxor (Z.lxor (rotr 7 x) (rotr 18 x)) (Z.shiftr x 3).
Definition sigma1 (x : Z) : Z := Z.lxor (Z.lxor (rotr 17 x) (rotr 19 x)) (Z.shiftr x 10).

(** The constants are the first 32 bits of the fractional parts of the
    cube roots (round constants) and square roots (initial hash value)
    of the first primes. *)
Definition primes : list Z :=
  [ 2; 3; 5; 7; 11; 13; 17; 19; 23; 29; 31; 37; 41; 43; 47; 53; 59; 61; 67; 71;
    73; 79; 83; 89; 97; 101; 103; 107; 109; 113; 127; 131; 137; 139; 149; 151;
    157; 163; 167; 173; 179; 181; 191; 193; 197; 199; 211; 223; 227; 229; 233;
    239; 241; 251; 257; 263; 269; 271; 277; 281; 283; 293; 307; 311 ].

(** The largest [r] below 2^41 with [r ^ e <= n], found bit by bit. *)
Definition root (e n : Z) : Z :=
  fold_left (fun r k => if (r + 2 ^ k) ^ e <=? n then r + 2 ^ k else r)
            (map Z.of_nat (rev (seq 0 41))) 0.

Definition frac32 (e p : Z) : Z := wrap (root e (p * 2 ^ (32 * e))).

Definition K : list Z := Eval vm_compute in map (frac32 3) primes.

(** The eight working words. *)
Record regs : Type := {
  ra : Z; rb : Z; rc : Z; rd : Z; re : Z; rf : Z; rg : Z; rh : Z
}.

Definition H0 : regs :=
  Eval vm_compute in
  {| ra := frac32 2 2; rb := frac32 2 3; rc := frac32 2 5; rd := frac32 2 7;
     re := frac32 2 11; rf := frac32 2 13; rg := frac32 2 17; rh := frac32 2 19 |}.

(** Padding: the byte 0x80, zero bytes up to 56 modulo 64, and the bit
    length on eight bytes, most significant first. *)
Definition be_bytes (n : nat) (x : Z) : list Z :=
  map (fun i => (x / 256 ^ Z.of_nat i) mod 256) (rev (seq 0 n)).

Definition pad (msg : list Z) : list Z :=
  let len := Z.of_nat (length msg) in
  msg ++ [128] ++ repeat 0 (Z.to_nat ((55 - len) mod 64)) ++ be_bytes 8 (8 * len).

Fixpoint words (n : nat) (bytes : list Z) : list Z :=
  match n, bytes with
  | S n', b0 :: b1 :: b2 :: b3 :: r =>
      (((b0 * 256 + b1) * 256 + b2) * 256 + b3) :: words n' r
  | _, _ => []
  end.

(** The message schedule, latest word first: [extend k w] adds [k] words. *)
Fixpoint extend (k : nat) (w : list Z) : list Z :=
  match k with
  | O => w
  | S k' =>
      let x := add32 (add32 (add32 (sigma1 (nth 1 w 0)) (nth 6 w 0))
                            (sigma0 (nth 14 w 0))) (nth 15 w 0) in
      extend k' (x :: w)
  end.

Definition schedule (block : list Z) : list Z := rev (extend 48 (rev block)).

Definition round (r : regs) (kw : Z * Z) : regs :=
  let t1 := add32 (add32 (add32 (add32 (rh r) (Sigma1 (re r)))
                                (Ch (re r) (rf r) (rg r))) (fst kw)) (snd kw) in
  let t2 := add32 (Sigma0 (ra r)) (Maj (ra r) (rb r) (rc r)) in
  {| ra := add32 t1 t2; rb := ra r; rc := rb r; rd := rc r;
     re := add32 (rd r) t1; rf := re r; rg := rf r; rh := rg r |}.

Definition compress (h : regs) (block : list Z) : regs :=
  let r := fold_left round (combine K (schedule block)) h in
  {| ra := add32 (ra h) (ra r); rb := add32 (rb h) (rb r);
     rc := add32 (rc h) (rc r); rd := add32 (rd h) (rd r);
     re := add32 (re h) (re r); rf := add32 (rf h) (rf r);
     rg := add32 (rg h) (rg r); rh := add32 (rh h) (rh r) |}.

Fixpoint blocks (n : nat) (h : regs) (ws : list Z) : regs :=
  match n with
  | O => h
  | S n' => blocks n' (compress h (firstn 16 ws)) (skipn 16 ws)
  end.

Definition digest (msg : list Z) : regs :=
  let p := pad msg in
  blocks (length p / 64) H0 (words (length p / 4) p).

Definition hex_word (x : Z) : string :=
  fold_right
    (fun i acc => String (Json.hex_digit (Z.to_N ((x / 16 ^ Z.of_nat i) mod 16))) acc)
    EmptyString (rev (seq 0 8)).

(** [hashlib.sha256(msg).hexdigest()] *)
Definition hexdigest (msg : list Z) : string :=
  let r := digest msg in
  (hex_word (ra r) ++ hex_word (rb r) ++ hex_word (rc r) ++ hex_word (rd r) ++
   hex_word (re r) ++ hex_word (rf r) ++ hex_word (rg r) ++ hex_word (rh r))%string.

End Sha256.

(** ** utils/drone/service.py: evidence manifests *)

Module Evidence.
Import PyStr Py.
Local Open Scope string_scope.

(** What a call leaves: a returned value, or an exception that escapes
    it (KeyError on a missing column, TypeError on [len]). *)
Inductive outcome (A : Type) : Type :=
| Returned (x : A)
| Raised.
Arguments Returned {A} x.
Arguments Raised {A}.

Definition bind {A B} (o : outcome A) (f : A -> outcome B) : outcome B :=
  match o with Returned x => f x | Raised => Raised end.

Notation "'let*' x := c 'in' k" := (bind c (fun x => k))
  (at level 10, x name, c at level 100, k at level 200).

(** [d[k]] *)
Definition item (k : string) (d : dict) : outcome value :=
  match dict_get k d with Some v => Returned v | None => Raised end.

(** [len(v)] *)
Definition len (v : value) : outcome Z :=
  match v with
  | PyList l => Returned (Z.of_nat (length l))
  | PyDict d => Returned (Z.of_nat (length d))
  | PyStr s => Returned (Z.of_nat (String.length s))
  | PyNone | PyBool _ | PyInt _ | PyFloat _ => Raised
  end.

Fixpoint all_items (k : string) (rows : list dict) : outcome (list value) :=
  match rows with
  | [] => Returned []
  | r :: more =>
      let* v := item k r in
      let* vs := all_items k more in
      Returned (v :: vs)
  end.

(** The row handed to [create_evidence_manifest]. *)
Record evidence_row : Type := {
  ev_incident_id : Z;
  manifest : dict;
  hash_algo : string;
  signature : option string;
  created_by : string
}.

Section Manifest.
Context `{RT : Runtime}.

(** The reads of the store (utils/database.py is not among the sources):
    the incident row with its artifacts, the request rows of an incident
    (limit 1000) and the audit rows of a request (limit 500). *)
Variable get_drone_incident : Z -> option dict.
Variable list_action_requests : Z -> list dict.
Variable list_action_audit_logs : value -> list dict.

Definition sha256_hex (canonical : string) : string :=
  Sha256.hexdigest (Json.encode_utf8 canonical).

(** The dict [manifest_core]; [generated_at] is [_utc_now_iso()]. *)
Definition manifest_core (generated_at : string) (incident : dict)
    (action_requests action_audit : list dict) : outcome dict :=
  let* i_id := item "id" incident in
  let* i_title := item "title" incident in
  let* i_status := item "status" incident in
  let* i_severity := item "severity" incident in
  let* i_opened := item "opened_at" incident in
  let* i_closed := item "closed_at" incident in
  let artifacts :=
    match dict_get "artifacts" incident with Some a => a | None => PyList [] end in
  let* n_artifacts := len artifacts in
  Returned
    [ ("generated_at", PyStr generated_at);
      ("incident", PyDict [ ("id", i_id); ("title", i_title); ("status", i_status);
                            ("severity", i_severity); ("opened_at", i_opened);
                            ("closed_at", i_closed) ]);
      ("artifact_count", PyInt n_artifacts);
      ("action_request_count", PyInt (Z.of_nat (length action_requests)));
      ("audit_event_count", PyInt (Z.of_nat (length action_audit)));
      ("artifacts", artifacts);
      ("action_requests", PyList (map PyDict action_requests));
      ("action_audit", PyList (map PyDict action_audit)) ].

(** Modelled from the spec: [create_evidence_manifest] and
    [get_evidence_manifest] of utils/database.py persist the row they are
    given and return it; the method hands it back (and emits it as
    [evidence_manifest_created]). *)
Definition persist (incident_id : Z) (m : dict) (algo : string)
    (sig : option string) (creator : string) : option evidence_row :=
  Some {| ev_incident_id := incident_id; manifest := m; hash_algo := algo;
          signature := sig; created_by := creator |}.

Definition generate_evidence_manifest (generated_at : string) (incident_id : Z)
    (creator : string) (sig : option string) : outcome (option evidence_row) :=
  match get_drone_incident incident_id with
  | Some ((_ :: _) as incident) =>
      let action_requests := list_action_requests incident_id in
      let* request_ids := all_items "id" action_requests in
      let action_audit := concat (map list_action_audit_logs request_ids) in
      let* core := manifest_core generated_at incident action_requests action_audit in
      let canonical := Json.dumps (PyDict core) in
      let digest := sha256_hex canonical in
      let m := dict_set "integrity"
                 (PyDict [ ("algorithm", PyStr "sha256"); ("digest", PyStr digest) ])
                 core in
      Returned (persist incident_id m "sha256" sig creator)
  | _ => Returned None
  end.

End Manifest.

End Evidence.

(** ** The specification's wording, for comparison with the code *)

Module Spec.
Import PyStr Py.
Local Open Scope string_scope.

Fixpoint all_space (s : string) : bool :=
  match s with
  | EmptyString => true
  | String c r => isspace c && all_space r
  end.

Definition head_not_space (s : string) : bool :=
  match s with
  | EmptyString => true
  | String c _ => negb (isspace c)
  end.

Fixpoint last_not_space (s : string) : bool :=
  match s with
  | EmptyString => true
  | String c EmptyString => negb (isspace c)
  | String _ r => last_not_space r
  end.

(** "trimmed": [t] is [s] without its leading and trailing white space. *)
Definition trimmed (s t : string) : Prop :=
  exists l r, s = l ++ t ++ r /\ all_space l = true /\ all_space r = true /\
              head_not_space t = true /\ last_not_space t = true.

(** "action_type (trimmed, lower-cased) starts with passive_" *)
Definition passive_prefixed (action_type : option string) : Prop :=
  exists t rest, trimmed (or_empty action_type) t /\ lower t = "passive_" ++ rest.

(** "duration clamped to [60, 7200] (default 900)" *)
Definition effective_duration (duration_seconds : option Z) : Q :=
  inject_Z (Service.arm_duration duration_seconds).


(** "delta = min distance to any hint" *)
Definition is_min_distance (f delta : Q) : Prop :=
  (exists hint, In hint Detector.RF_FREQ_HINTS_MHZ /\ (delta == Qabs (f - hint))%Q) /\
  (forall hint, In hint Detector.RF_FREQ_HINTS_MHZ -> (delta <= Qabs (f - hint))%Q).

(** "confidence = min(1.0, max(0.5, 0.85 - delta/100)), rounded to 3 decimals" *)
Definition rf_confidence (delta : Q) : Q :=
  round3 (Qmin 1 (Qmax 0.5 (0.85 - delta / 100)))%Q.

(** The same formula carried out on doubles: 0.85 is the nearest
    double, the quotient and the difference are rounded to the nearest
    double, and the result is rounded to 3 decimals. *)
Definition rf_confidence_double (delta : Q) : Q :=
  round3 (Qmin 1 (Qmax 0.5 (fsub (b64 0.85) (fdiv delta 100)))).

End Spec.

(** A runtime for the closed examples.  None of them parses JSON or a
    number out of text, decodes bytes, prints a value that is not a
    string or formats a float, so the five functions are trivial here;
    the theorems hold for every runtime. *)
Definition example_runtime : Py.Runtime :=
  {| Py.json_loads := fun _ => None;
     Py.float_of_string := fun _ => None;
     Py.repr := fun _ => EmptyString;
     Py.utf8_decode := fun b => b;
     Py.format_3f := fun _ => EmptyString |}.

(** A sequence of [state()] calls at the given clock readings. *)
Fixpoint reads (s : Service.service) (times : list Q)
  : Service.service * list Service.policy_state :=
  match times with
  | [] => (s, [])
  | t :: more =>
      let '(s1, st) := Service.get_policy_state s t in
      let '(s2, sts) := reads s1 more in
      (s2, st :: sts)
  end.

(** The states the service can be in: what the public methods produce
    from the initial state, for any arguments and clock readings. *)
Inductive reachable : Service.service -> Prop :=
| reach_initial : reachable Service.initial
| reach_state s now :
    reachable s -> reachable (fst (Service.get_policy_state s now))
| reach_arm s now now' actor reason incident d :
    reachable s ->
    reachable (fst (Service.arm_actions s now now' actor reason incident d))
| reach_disarm s now actor reason :
    reachable s -> reachable (fst (Service.disarm_actions s now actor reason))
| reach_request s incident atype requester pl :
    reachable s ->
    reachable (fst (Service.request_action s incident atype requester pl))
| reach_approve s rid approver dec nt :
    reachable s -> reachable (fst (Service.approve_action s rid approver dec nt))
| reach_execute s now rid who :
    reachable s -> reachable (fst (Service.execute_action s now rid who)).

(** "at most one approval per approver per request (case-insensitive)" *)
Definition one_approval_per_approver (r : Store.action_request) : Prop :=
  List.NoDup (map (fun a => PyStr.lower (Store.approved_by a)) (Store.approvals r)).

(** The status of a request in a service state, if the request exists. *)
Definition status_of (s : Service.service) (rid : Z) : option Store.status :=
  option_map Store.req_status (Store.get_action_request (Service.store s) rid).

(** ** Auxiliary definitions and the scenarios of the specification *)

Section Scenarios.
Import PyStr Py Store Service Evidence.
Local Open Scope string_scope.

(** The row a fresh decision leaves behind. *)
Definition decided_row (r : action_request) (approver dec : string)
    (nt : option string) : action_request :=
  let r2 := append_approval {| approved_by := approver; decision := dec; notes := nt |} r in
  if String.eqb (lower dec) "rejected" then set_status rejected None r2
  else if Z.leb (required_approvals (Some (action_type r2)))
                (count_approved (approvals r2)) &&
          negb (match req_status r2 with executed | rejected => true | _ => false end)
  then set_status approved None r2
  else r2.

(** Every stored request satisfies [P]. *)
Definition every_request (P : action_request -> Prop) (d : db) : Prop :=
  forall rid r, get_action_request d rid = Some r -> P r.

(** A passive request, approved by one supervisor, with the action plane
    armed at time 1000 for the default 900 seconds. *)
Definition scenario_approved : service :=
  let s1 := fst (request_action initial 1 "passive_spectrum_capture" "op1" None) in
  let s2 := fst (approve_action s1 1 "supervisor-a" "approved" None) in
  fst (arm_actions s2 1000 1000 "op1" "passive validation" 1 None).

(** The same request after [execute_action] by op1 at time 1001. *)
Definition scenario_executed : service :=
  fst (execute_action scenario_approved 1001 1 "op1").

(** The approved request after a second supervisor rejects it. *)
Definition scenario_rejected : service :=
  fst (approve_action scenario_approved 1 "supervisor-b" "rejected" None).

(** The WiFi event of the spec's first scenario. *)
Definition dji_event : value :=
  PyDict [("bssid", PyStr "60:60:1F:AA:BB:CC"); ("ssid", PyStr "DJI-OPS-TEST")].

(** The order of two items of a JSON object: by key, as strings. *)
Definition key_le (a b : string * string) : Prop := String.leb (fst a) (fst b) = true.

(** A hexadecimal digit as [hexdigest] writes it. *)
Definition is_hex (c : ascii) : bool :=
  existsb (Ascii.eqb c) (list_ascii_of_string "0123456789abcdef").

(** An incident with one artifact, one request and its audit entry, as
    the store returns them. *)
Definition sample_incident : dict :=
  [ ("id", PyInt 3); ("title", PyStr "Unidentified UAS"); ("status", PyStr "open");
    ("severity", PyStr "high"); ("opened_at", PyStr "2026-01-05T10:00:00+00:00");
    ("closed_at", PyNone);
    ("artifacts",
     PyList [PyDict [("id", PyInt 1); ("artifact_type", PyStr "detection");
                     ("artifact_ref", PyStr "12345")]]) ].

Definition sample_requests : list dict :=
  [ [ ("id", PyInt 8); ("incident_id", PyInt 3);
      ("action_type", PyStr "passive_spectrum_capture"); ("status", PyStr "pending") ] ].

Definition sample_audit : list dict :=
  [ [ ("id", PyInt 21); ("request_id", PyInt 8); ("event_type", PyStr "requested");
      ("actor", PyStr "op1") ] ].

Definition sample_manifest : outcome (option evidence_row) :=
  @generate_evidence_manifest example_runtime
    (fun i => if Z.eqb i 3 then Some sample_incident else None)
    (fun i => if Z.eqb i 3 then sample_requests else [])
    (fun r => match r with PyInt 8 => sample_audit | _ => [] end)
    "2026-01-05T12:00:00+00:00" 3 "analyst1" None.

End Scenarios.

(** ** utils/drone/service.py: event streaming *)

Module Bus.
Import Py.
Local Open Scope string_scope.

(** The envelope [_emit] builds; [timestamp] is [_utc_now_iso()]. *)
Record envelope : Type := {
  type : string;
  timestamp : string;
  payload : dict
}.

(** A [queue.Queue]: its bound ([maxsize <= 0] means none) and what it
    holds, oldest first. *)
Record queue : Type := {
  maxsize : Z;
  items : list envelope
}.

Definition qsize (q : queue) : Z := Z.of_nat (length (items q)).

(** [q.put_nowait(e)]; [None] stands for [queue.Full]. *)
Definition put_nowait (q : queue) (e : envelope) : option queue :=
  if Z.ltb 0 (maxsize q) && Z.leb (maxsize q) (qsize q) then None
  else Some {| maxsize := maxsize q; items := items q ++ [e] |}.

(** [q.get_nowait()]; [None] stands for [queue.Empty]. *)
Definition get_nowait (q : queue) : option (envelope * queue) :=
  match items q with
  | [] => None
  | e :: rest => Some (e, {| maxsize := maxsize q; items := rest |})
  end.

(** The body of the loop of [_emit] for one subscriber: put, and when
    the queue is full drop its oldest envelope and put again. *)
Definition offer (e : envelope) (sub : queue) : queue :=
  match put_nowait sub e with
  | Some sub1 => sub1
  | None =>
      match get_nowait sub with
      | None => sub
      | Some (_, sub1) =>
          match put_nowait sub1 e with
          | Some sub2 => sub2
          | None => sub1
          end
      end
  end.

(** [_emit] on the subscribers, one queue each.  The source goes through
    a set; the queues are offered the envelope independently, so the
    order does not matter.  No client reads its queue while [_emit]
    runs: a read between the failed put and the drop is outside the
    model. *)
Definition _emit (subscribers : list queue) (now_iso : string)
    (event_type : string) (pl : dict) : list queue :=
  let envelope := {| type := event_type; timestamp := now_iso; payload := pl |} in
  map (offer envelope) subscribers.

(** The queue [stream_events] creates and subscribes. *)
Definition client_queue : queue := {| maxsize := 500; items := [] |}.

Definition subscribe (subscribers : list queue) : list queue :=
  subscribers ++ [client_queue].

(** One turn of the loop of [stream_events] when nothing arrives during
    the wait: the oldest envelope of the queue, or a keepalive. *)
Definition next_event (q : queue) (now_iso : string) : envelope * queue :=
  match get_nowait q with
  | Some (e, q1) => (e, q1)
  | None => ({| type := "keepalive"; timestamp := now_iso; payload := [] |}, q)
  end.

(** A sequence of [_emit] calls, each with its time stamp, type and
    payload. *)
Fixpoint emit_all (subscribers : list queue) (calls : list envelope) : list queue :=
  match calls with
  | [] => subscribers
  | c :: more => emit_all (_emit subscribers (timestamp c) (type c) (payload c)) more
  end.

(** A client that takes [n] turns of the loop, one after the other. *)
Fixpoint take_events (n : nat) (q : queue) (now_iso : string) : list envelope * queue :=
  match n with
  | O => ([], q)
  | S k =>
      let '(e, q1) := next_event q now_iso in
      let '(es, q2) := take_events k q1 now_iso in
      (e :: es, q2)
  end.

End Bus.

(** ** utils/authz.py *)

Module Authz.
Import PyStr Py.
Local Open Scope string_scope.

Definition ROLE_LEVELS : list (string * Z) :=
  [ ("viewer", 10); ("analyst", 20); ("operator", 30); ("supervisor", 40);
    ("admin", 50) ].

(** [table.get(role)] *)
Fixpoint level (table : list (string * Z)) (role : string) : option Z :=
  match table with
  | [] => None
  | (k, n) :: more => if String.eqb role k then Some n else level more role
  end.

(** [ROLE_LEVELS.get(role, ROLE_LEVELS[fallback])]; the fallback is a key
    of the table at both places the source writes it. *)
Definition level_or (role fallback : string) : Z :=
  match level ROLE_LEVELS role with
  | Some n => n
  | None => match level ROLE_LEVELS fallback with Some n => n | None => 0 end
  end.

Section WithRuntime.
Context `{RT : Runtime}.

(** The Flask session, read as a mapping. *)
Definition current_username (session : dict) : string :=
  str (or_ (get "username" session) (PyStr "anonymous")).

Definition current_role (session : dict) : string :=
  let role := lower (strip (str (or_ (get "role" session) (PyStr "viewer")))) in
  match level ROLE_LEVELS role with
  | Some _ => role
  | None => "viewer"
  end.

Definition has_role (session : dict) (required_role : string) : bool :=
  let required := level_or required_role "admin" in
  let actual := level_or (current_role session) "viewer" in
  Z.leb required actual.

End WithRuntime.

End Authz.

(** ** routes/drone_ops.py: the endpoints of the action workflow *)

Module Routes.
Import PyStr Py Store Service Authz.
Local Open Scope string_scope.

(** What an endpoint answers: the 403 of [require_role], the 403 of
    [require_armed], an error with its status code and message, or a
    success with its status code and the request it reports. *)
Inductive response : Type :=
| role_required (required_role role : string)
| not_armed (st : policy_state)
| error (code : Z) (message : string)
| success (code : Z) (request : option request_view).

Definition status_code (r : response) : Z :=
  match r with
  | role_required _ _ => 403
  | not_armed _ => 403
  | error code _ => code
  | success code _ => code
  end.

Section WithRuntime.
Context `{RT : Runtime}.

(** POST /drone-ops/actions/execute/<request_id>, under
    [require_role('operator')] and [require_armed]: the decorator reads
    the clock at [now], [execute_action] reads it again at [now']. *)
Definition actions_execute (session : dict) (s : service) (now now' : Q)
    (request_id : Z) : service * response :=
  if negb (has_role session "operator")
  then (s, role_required "operator" (current_role session))
  else
    let '(s1, st) := get_policy_state s now in
    if negb (armed st) then (s1, not_armed st)
    else
      let '(s2, (req, err)) :=
        execute_action s1 now' request_id (current_username session) in
      match err with
      | Some message =>
          if PyStr.truthy message then (s2, error 400 message)
          else (s2, success 200 req)
      | None => (s2, success 200 req)
      end.

(** POST /drone-ops/actions/approve/<request_id>, under
    [require_role('supervisor')].  [data] is the JSON object of the
    body and [nt] its [notes], a string or null as [approve_action]
    declares them. *)
Definition actions_approve (session : dict) (s : service) (data : dict)
    (nt : option string) (request_id : Z) : service * response :=
  if negb (has_role session "supervisor")
  then (s, role_required "supervisor" (current_role session))
  else
    let dec := lower (strip (str (or_ (get "decision" data) (PyStr "approved")))) in
    if negb (Detector.mem_str dec ["approved"; "rejected"])
    then (s, error 400 "decision must be approved or rejected")
    else
      match approve_action s request_id (current_username session) dec nt with
      | (s1, Some req) => (s1, success 200 (Some req))
      | (s1, None) => (s1, error 404 "Action request not found")
      end.

End WithRuntime.

End Routes.

(** ** The mapping that [decode_remote_id_payload] returns *)

Definition opt_float (o : option Q) : Py.value :=
  match o with Some x => Py.PyFloat x | None => Py.PyNone end.

(** The dict [normalized] of [decode_remote_id_payload], key by key; the
    record of the embedding stands for it. *)
Definition normalized (r : RemoteId.remote_id) : Py.dict :=
  [ ("detected", Py.PyBool (RemoteId.detected r));
    ("source_format", Py.PyStr (RemoteId.source_format r));
    ("uas_id", Detector.opt_str (RemoteId.uas_id r));
    ("operator_id", Detector.opt_str (RemoteId.operator_id r));
    ("lat", opt_float (RemoteId.lat r));
    ("lon", opt_float (RemoteId.lon r));
    ("altitude_m", opt_float (RemoteId.altitude_m r));
    ("speed_mps", opt_float (RemoteId.speed_mps r));
    ("heading_deg", opt_float (RemoteId.heading_deg r));
    ("confidence", Py.PyFloat (RemoteId.confidence r));
    ("raw", Py.PyDict (RemoteId.raw r)) ]%string.

(** ** Auxiliary definitions for the further properties *)

Section DecoderParts.
Import PyStr Py RemoteId.
Local Open Scope string_scope.
Context `{RT : Runtime}.

(** [decode_remote_id_payload] from what it picks out of the payload:
    the lines of the source after the calls of [_pick]. *)
Definition assemble (data : dict) (fmt : string) (drone operator : value)
    (la lo al sp he : option Q) : remote_id :=
  let c0 := 0%Q in
  let c1 := if truthy drone then (c0 + 0.35)%Q else c0 in
  let c2 := if both la lo then (c1 + 0.35)%Q else c1 in
  let c3 := if present al then (c2 + 0.15)%Q else c2 in
  let c4 := if truthy operator then (c3 + 0.15)%Q else c3 in
  let conf := fmin 1 (round3 c4) in
  {| detected := truthy drone || (both la lo && fle 0.35 conf);
     source_format := fmt;
     uas_id := if truthy drone then Some (strip (str drone)) else None;
     operator_id := if truthy operator then Some (strip (str operator)) else None;
     lat := la; lon := lo; altitude_m := al; speed_mps := sp; heading_deg := he;
     confidence := conf; raw := data |}.

End DecoderParts.

(** What [upper()] followed by [replace('-', ':')] does to one
    character. *)
Definition mac_char (c : ascii) : ascii :=
  let u := PyStr.upper_char c in if Ascii.eqb u "-" then ":"%char else u.



(** What a detection says about position agrees with the Remote ID
    record it carries. *)
Definition track_follows_remote_id (d : Detector.detection) : Prop :=
  match Detector.det_track d with
  | Some t =>
      exists r, Detector.det_remote_id d = Some r /\
                RemoteId.lat r = Some (Detector.track_lat t) /\
                RemoteId.lon r = Some (Detector.track_lon t) /\
                RemoteId.altitude_m r = Detector.track_altitude_m t /\
                Detector.track_quality t = RemoteId.confidence r /\
                Detector.track_source t = Detector.source d
  | None =>
      forall r, Detector.det_remote_id d = Some r ->
                RemoteId.lat r = None \/ RemoteId.lon r = None
  end.

(** A request whose approving decisions reach the number its action type
    requires. *)
Definition quorum_met (r : Store.action_request) : Prop :=
  Service.required_approvals (Some (Store.action_type r)) <=
  Service.count_approved (Store.approvals r).

(** A request that is approved or executed has its quorum. *)
Definition cleared_with_quorum (r : Store.action_request) : Prop :=
  Store.req_status r = Store.approved \/ Store.req_status r = Store.executed ->
  quorum_met r.

(** One call of a public method of the service. *)
Inductive call : Service.service -> Service.service -> Prop :=
| call_state s now : call s (fst (Service.get_policy_state s now))
| call_arm s now now' actor reason incident d :
    call s (fst (Service.arm_actions s now now' actor reason incident d))
| call_disarm s now actor reason :
    call s (fst (Service.disarm_actions s now actor reason))
| call_request s incident atype requester pl :
    call s (fst (Service.request_action s incident atype requester pl))
| call_approve s rid approver dec nt :
    call s (fst (Service.approve_action s rid approver dec nt))
| call_execute s now rid who :
    call s (fst (Service.execute_action s now rid who)).

(** What a later row keeps of an earlier row of the same request. *)
Definition continues (r r' : Store.action_request) : Prop :=
  Store.id r' = Store.id r /\
  Store.incident_id r' = Store.incident_id r /\
  Store.action_type r' = Store.action_type r /\
  Store.requested_by r' = Store.requested_by r /\
  Store.payload r' = Store.payload r /\
  (exists more, Store.approvals r' = (Store.approvals r ++ more)%list) /\
  (Store.req_status r <> Store.pending -> Store.req_status r' <> Store.pending).

(** The policy was cleared: by [disarm_actions], or by a read that found
    the deadline passed. *)
Definition cleared (s1 : Service.service) : Prop :=
  (exists s now actor reason, s1 = fst (Service.disarm_actions s now actor reason)) \/
  (exists s now, s1 = fst (Service.get_policy_state s now) /\
                 Service.armed (snd (Service.get_policy_state s now)) = false).

(** The [n] newest elements of a sequence, oldest first. *)
Definition newest {A} (n : nat) (l : list A) : list A := skipn (length l - n) l.

(** The envelope [stream_events] yields when its queue stays empty. *)
Definition keepalive (now_iso : string) : Bus.envelope :=
  {| Bus.type := "keepalive"; Bus.timestamp := now_iso; Bus.payload := [] |}.

(** Further scenarios: a request for an active action, armed but not
    approved; the same kind of request approved by two supervisors; the
    approved passive request after its arming window has run out; and a
    single request. *)
Definition scenario_insufficient : Service.service :=
  fst (Service.arm_actions
         (fst (Service.request_action Service.initial 1 "wifi_deauth_test" "op1" None))
         1000 1000 "op1" "test" 1 None).

Definition scenario_two_party : Service.service :=
  let s1 := fst (Service.request_action Service.initial 1 "wifi_deauth_test" "op1" None) in
  let s2 := fst (Service.approve_action s1 1 "supervisor-a" "approved" None) in
  fst (Service.approve_action s2 1 "supervisor-b" "Approved" None).

Definition scenario_expired : Service.service :=
  fst (Service.get_policy_state
         (fst (Service.arm_actions scenario_approved 1000 1000 "op1" "test" 1 (Some 60)))
         1060).

Definition scenario_requested : Service.service :=
  fst (Service.request_action Service.initial 1 "wifi_deauth_test" "op1" None).

(** A session of an operator. *)
Definition operator_session : Py.dict :=
  [ ("username", Py.PyStr "op1"); ("role", Py.PyStr " Operator ") ]%string.

(** Events for the detectors: a Remote ID message on a feed of no known
    mode, a Bluetooth device and an RF capture; and a mapping whose
    top-level uas_id is null while a nested one is not. *)
Definition rid_event : Py.value :=
  Py.PyDict [("uas_id", Py.PyStr "RID-1"); ("lat", Py.PyFloat 35.0);
             ("lon", Py.PyFloat (-115.0))]%string.

Definition bt_event : Py.value :=
  Py.PyDict [("address", Py.PyStr "aa-bb-cc-dd-ee-ff"); ("name", Py.PyStr "DJI Mavic 3")]%string.

(** A Bluetooth device whose latitude is an int no double can hold. *)
Definition bt_overflow_device : Py.dict :=
  [ ("address", Py.PyStr "aa-bb-cc-dd-ee-ff"); ("lat", Py.PyInt (10 ^ 400)) ]%string.

Definition rf_event : Py.value :=
  Py.PyDict [("capture_id", Py.PyStr "cap-1"); ("frequency_mhz", Py.PyFloat 868.5)]%string.

Definition shadowed_id : Py.dict :=
  [ ("uas_id", Py.PyNone);
    ("remote_id", Py.PyDict [("uas_id", Py.PyStr "RID-9")]) ]%string.

(** The identifier [_detect_bluetooth] gives a device: its address, else
    its device_id, else its name. *)
Definition bt_identifier `{Py.Runtime} (device : Py.dict) : string :=
  let address :=
    Detector._normalize_mac (Py.or_ (Py.get "address" device) (Py.get "mac" device)) in
  let device_id :=
    PyStr.strip (Py.str (Py.or_ (Py.get "device_id" device) (Py.PyStr ""))) in
  let name := PyStr.strip (Py.str (Py.or_ (Py.get "name" device) (Py.PyStr ""))) in
  if PyStr.truthy address then address
  else if PyStr.truthy device_id then device_id else name.

(** The value of a finite binary64 number of the Standard Library's
    IEEE 754 specification, the number an integer converts to, and the
    division and subtraction of binary64. *)
Definition sf_value (x : SpecFloat.spec_float) : Q :=
  match x with
  | SpecFloat.S754_finite s m e =>
      ((if s then -1 else 1) * inject_Z (Zpos m) * Py.pow2 e)%Q
  | _ => 0%Q
  end.

Definition sf_of_Z (n : Z) : SpecFloat.spec_float :=
  SpecFloat.binary_normalize 53 1024 n 0 false.

Definition sf_div (a b : SpecFloat.spec_float) : SpecFloat.spec_float :=
  SpecFloat.SFdiv 53 1024 a b.

Definition sf_sub (a b : SpecFloat.spec_float) : SpecFloat.spec_float :=
  SpecFloat.SFsub 53 1024 a b.

(** An RF capture at the given frequency. *)
Definition rf_capture (mhz : Q) : Py.value :=
  Py.PyDict [("frequency_mhz", Py.PyFloat mhz)]%string.

(** An RF capture 4.25 MHz above the 915 MHz band. *)
Definition tie_event : Py.value := rf_capture 919.25.

(** * Properties *)

Section StringFacts.
Import PyStr.
Local Open Scope string_scope.

Lemma startswith_prefix (s p : string) :
  startswith s p = true <-> exists rest, s = p ++ rest.
Proof.
  revert s. induction p as [|a p IH]; intros s; simpl.
  - split; [intros _; exists s; reflexivity | reflexivity].
  - destruct s as [|b s].
    + split; [discriminate | intros [rest H]; discriminate].
    + rewrite andb_true_iff, IH. split.
      * intros [Hab [rest ->]]. apply Ascii.eqb_eq in Hab. subst. eauto.
      * intros [rest H]. injection H as -> ->. split; [apply Ascii.eqb_refl | eauto].
Qed.

Lemma append_cons (c : ascii) (a b : string) : String c a ++ b = String c (a ++ b).
Proof. reflexivity. Qed.

Lemma append_nil_l (b : string) : "" ++ b = b.
Proof. reflexivity. Qed.

Lemma append_empty_r (a : string) : a ++ "" = a.
Proof. induction a as [|x a IH]; [reflexivity|]. now rewrite append_cons, IH. Qed.

Lemma lstrip_split (s : string) :
  exists l, s = l ++ lstrip s /\ Spec.all_space l = true /\
            Spec.head_not_space (lstrip s) = true.
Proof.
  induction s as [|c s [l [Hs [Hl Hh]]]]; simpl.
  - exists "". repeat split.
  - destruct (isspace c) eqn:E.
    + exists (String c l). rewrite append_cons, <- Hs. simpl. rewrite E, Hl.
      repeat split. exact Hh.
    + exists "". rewrite append_nil_l. simpl. rewrite E. repeat split.
Qed.

Lemma rstrip_split (s : string) :
  exists r, s = rstrip s ++ r /\ Spec.all_space r = true /\
            Spec.last_not_space (rstrip s) = true.
Proof.
  induction s as [|c s [r [Hs [Hr Hl]]]]; simpl.
  - exists "". repeat split.
  - destruct (rstrip s) as [|c' s'] eqn:E; simpl.
    + rewrite append_nil_l in Hs. subst s. destruct (isspace c) eqn:Ec.
      * exists (String c r). rewrite append_nil_l. simpl. rewrite Ec, Hr. repeat split.
      * exists r. rewrite append_cons, append_nil_l. simpl. rewrite Ec.
        repeat split. exact Hr.
    + exists r. rewrite append_cons, <- Hs. repeat split; assumption.
Qed.

Lemma rstrip_keeps_head (s : string) :
  Spec.head_not_space s = true -> Spec.head_not_space (rstrip s) = true.
Proof.
  destruct s as [|c s]; simpl; [reflexivity|]. intros H.
  apply negb_true_iff in H. rewrite H, andb_false_r. simpl. now rewrite H.
Qed.

(** The code's [strip] trims. *)
Lemma strip_trimmed (s : string) : Spec.trimmed s (strip s).
Proof.
  unfold strip, Spec.trimmed.
  destruct (lstrip_split s) as [l [Hs [Hl Hh]]].
  destruct (rstrip_split (lstrip s)) as [r [Hm [Hr Hlast]]].
  exists l, r. split; [rewrite <- Hm; exact Hs|].
  repeat split; try assumption. now apply rstrip_keeps_head.
Qed.

Lemma lstrip_spaces (l x : string) : Spec.all_space l = true -> lstrip (l ++ x) = lstrip x.
Proof.
  induction l as [|c l IH]; [reflexivity|]. rewrite append_cons. simpl.
  intros H. apply andb_true_iff in H as [Hc Hl]. rewrite Hc. now apply IH.
Qed.

Lemma lstrip_fixed (x : string) : Spec.head_not_space x = true -> lstrip x = x.
Proof.
  destruct x as [|c x]; simpl; [reflexivity|]. intros H.
  apply negb_true_iff in H.  now rewrite H.
Qed.

Lemma rstrip_spaces (t r : string) : Spec.all_space r = true -> rstrip (t ++ r) = rstrip t.
Proof.
  intros Hr. induction t as [|c t IH].
  - rewrite append_nil_l. simpl. induction r as [|c r IH]; simpl; [reflexivity|].
    simpl in Hr. apply andb_true_iff in Hr as [Hc Hr]. rewrite (IH Hr), Hc. reflexivity.
  - rewrite append_cons. simpl. now rewrite IH.
Qed.

Lemma rstrip_fixed (t : string) : Spec.last_not_space t = true -> rstrip t = t.
Proof.
  induction t as [|c t IH]; simpl; [reflexivity|].
  destruct t as [|c' t].
  - intros H. apply negb_true_iff in H. simpl. now rewrite H.
  - intros H. rewrite (IH H). reflexivity.
Qed.

(** Trimming has one result, the one [strip] computes. *)
Lemma trimmed_strip (s t : string) : Spec.trimmed s t -> t = strip s.
Proof.
  intros [l [r [-> [Hl [Hr [Hh Hlast]]]]]]. unfold strip.
  rewrite (lstrip_spaces l _ Hl).
  destruct t as [|c t].
  - rewrite append_nil_l. rewrite <- (append_empty_r r) at 1.
    rewrite (lstrip_spaces r "" Hr). reflexivity.
  - rewrite (lstrip_fixed (String c t ++ r)) by exact Hh.
    rewrite (rstrip_spaces _ r Hr). symmetry. now apply rstrip_fixed.
Qed.

End StringFacts.

Section PolicyFacts.
Import PyStr Service.
Local Open Scope string_scope.

(** The service method and the policy helper are the same function. *)
Lemma required_approvals_agree (A : option string) :
  required_approvals A = Policy.required_approvals_for_action A.
Proof. reflexivity. Qed.

Lemma passive_prefixed_iff (A : option string) :
  Spec.passive_prefixed A <->
  startswith (lower (strip (or_empty A))) "passive_" = true.
Proof.
  unfold Spec.passive_prefixed. rewrite startswith_prefix. split.
  - intros [t [rest [Ht Hl]]]. apply trimmed_strip in Ht. subst t. eauto.
  - intros [rest Hl]. exists (strip (or_empty A)), rest.
    split; [apply strip_trimmed | exact Hl].
Qed.

(** C4: the number of approvals an action type requires is 1 when its
    trimmed, lower-cased name starts with passive_, and 2 otherwise, for
    the service method and for the policy helper alike; a null or empty
    action type requires 2. *)
Theorem required_approvals_passive (A : option string) :
  (Spec.passive_prefixed A /\
   required_approvals A = 1 /\ Policy.required_approvals_for_action A = 1) \/
  (~ Spec.passive_prefixed A /\
   required_approvals A = 2 /\ Policy.required_approvals_for_action A = 2).
Proof.
  rewrite passive_prefixed_iff.
  unfold required_approvals, Policy.required_approvals_for_action.
  destruct (startswith (lower (strip (or_empty A))) "passive_").
  - left. repeat split.
  - right. repeat split. discriminate.
Qed.

Lemma required_approvals_null :
  required_approvals None = 2 /\ required_approvals (Some "") = 2.
Proof. split; reflexivity. Qed.

Example required_approvals_examples :
  required_approvals (Some "  PASSIVE_Scan ") = 1 /\
  required_approvals (Some "passive_spectrum_capture") = 1 /\
  required_approvals (Some "wifi_deauth_test") = 2 /\
  required_approvals (Some "passive") = 2.
Proof. repeat split. Qed.

End PolicyFacts.

Section FloatFacts.
Import Py.

Lemma flt_lt (a b : Q) : flt a b = true <-> (a < b)%Q.
Proof.
  unfold flt. destruct (Qlt_le_dec a b) as [H|H]; split; intros H'; try easy.
  exfalso. apply (Qlt_irrefl a). eapply Qlt_le_trans; eauto.
Qed.

Lemma flt_ge (a b : Q) : flt a b = false <-> (b <= a)%Q.
Proof.
  unfold flt. destruct (Qlt_le_dec a b) as [H|H]; split; intros H'; try easy.
  exfalso. apply (Qlt_irrefl a). eapply Qlt_le_trans; eauto.
Qed.


Lemma fmin_eq (a b : Q) : (fmin a b == Qmin a b)%Q.
Proof.
  unfold fmin. destruct (Qlt_le_dec b a) as [H|H].
  - symmetry. apply Q.min_r. now apply Qlt_le_weak.
  - symmetry. now apply Q.min_l.
Qed.

Lemma fmax_eq (a b : Q) : (fmax a b == Qmax a b)%Q.
Proof.
  unfold fmax. destruct (Qlt_le_dec a b) as [H|H].
  - symmetry. apply Q.max_r. now apply Qlt_le_weak.
  - symmetry. now apply Q.max_l.
Qed.

End FloatFacts.

Section ArmingWindow.
Import Py Service.

Lemma read_while_armed (p : policy) (now until : Q) :
  _armed_until_ts p = Some until -> (now < until)%Q ->
  armed (fst (_policy_state_locked p now)) = true /\
  snd (_policy_state_locked p now) = p.
Proof.
  intros Hp Hlt. unfold _policy_state_locked. rewrite Hp.
  apply flt_lt in Hlt. rewrite Hlt. split; reflexivity.
Qed.

Lemma read_after_expiry (p : policy) (now until : Q) :
  _armed_until_ts p = Some until -> (until <= now)%Q ->
  _policy_state_locked p now =
    ({| armed := false; armed_by := None; arm_reason := None;
        arm_incident_id := None; armed_until := None;
        required_approvals_default := 2 |}, disarmed).
Proof.
  intros Hp Hle. unfold _policy_state_locked. rewrite Hp.
  apply flt_ge in Hle. rewrite Hle. reflexivity.
Qed.

(** The invariant of the policy state, at every read: the flag returned
    is true exactly when a deadline is still stored and lies after the
    clock reading. *)
Lemma armed_iff_deadline_ahead (p : policy) (now : Q) :
  armed (fst (_policy_state_locked p now)) = true <->
  exists until, _armed_until_ts (snd (_policy_state_locked p now)) = Some until /\
                (now < until)%Q.
Proof.
  unfold _policy_state_locked. destruct (_armed_until_ts p) as [u|] eqn:Hp; simpl.
  - destruct (flt now u) eqn:E; simpl.
    + split; [intros _|reflexivity]. exists u. split; [exact Hp | now apply flt_lt].
    + split; [discriminate | intros [v [Hv _]]; discriminate].
  - split; [discriminate | intros [v [Hv _]]; discriminate].
Qed.

(** The same on the dict that is returned, for a clock at or after the
    epoch: its armed_until is null exactly when armed is false. *)
Lemma snapshot_armed_iff (p : policy) (now : Q) :
  (0 <= now)%Q ->
  armed (fst (_policy_state_locked p now)) = true <->
  exists until, armed_until (fst (_policy_state_locked p now)) = Some until /\
                (now < until)%Q.
Proof.
  intros Hnow. unfold _policy_state_locked.
  destruct (_armed_until_ts p) as [u|] eqn:Hp; simpl.
  - destruct (flt now u) eqn:E; simpl.
    + rewrite Hp. apply flt_lt in E. split; [intros _|reflexivity].
      destruct (Qeq_bool u 0) eqn:Eu.
      * apply Qeq_bool_eq in Eu. rewrite Eu in E.
        exfalso. apply (Qlt_irrefl 0). eapply Qle_lt_trans; eauto.
      * exists u. split; [reflexivity | exact E].
    + split; [discriminate | intros [v [Hv _]]; discriminate].
  - split; [discriminate | intros [v [Hv _]]; discriminate].
Qed.

Lemma state_while_armed (s : service) (now until : Q) :
  _armed_until_ts (pol s) = Some until -> (now < until)%Q ->
  fst (get_policy_state s now) = s /\ armed (snd (get_policy_state s now)) = true.
Proof.
  intros Hp Hlt. unfold get_policy_state.
  destruct (read_while_armed (pol s) now until Hp Hlt) as [Ha Hs].
  destruct (_policy_state_locked (pol s) now) as [st p']. simpl in *. subst p'.
  split; [destruct s; reflexivity | exact Ha].
Qed.

Lemma reads_while_armed (s : service) (until : Q) (times : list Q) :
  _armed_until_ts (pol s) = Some until ->
  Forall (fun x => (x < until)%Q) times ->
  fst (reads s times) = s /\
  Forall (fun st => armed st = true) (snd (reads s times)) /\
  length (snd (reads s times)) = length times.
Proof.
  intros Hp Hall. induction Hall as [|x l Hx Hl IH].
  - repeat split; constructor.
  - cbn [reads].
    destruct (state_while_armed s x until Hp Hx) as [Hs Ha].
    destruct (get_policy_state s x) as [s1 st]. simpl in Hs, Ha. subst s1.
    destruct (reads s l) as [s2 sts]. simpl in *.
    destruct IH as [-> [Hf Hlen]]. repeat split; [constructor; assumption | congruence].
Qed.

Lemma arm_sets_deadline (s : service) (t t' : Q) (actor reason : string)
    (incident : Z) (d : option Z) :
  (t' < t + Spec.effective_duration d)%Q ->
  pol (fst (arm_actions s t t' actor reason incident d)) =
    {| _armed_until_ts := Some (t + Spec.effective_duration d)%Q;
       _armed_by := Some actor; _arm_reason := Some reason;
       _arm_incident_id := Some incident |} /\
  armed (snd (arm_actions s t t' actor reason incident d)) = true.
Proof.
  intros Hlt. unfold arm_actions, Spec.effective_duration in *.
  set (p := {| _armed_until_ts := _ |}).
  destruct (read_while_armed p t' _ eq_refl Hlt) as [Ha Hs].
  destruct (_policy_state_locked p t') as [st p'] eqn:E. simpl in *.
  subst p'. split; [reflexivity | exact Ha].
Qed.

(** Inside the clamp the effective duration is the argument itself, and
    outside it is a bound of the clamp. *)
Lemma effective_duration_clamp (d : Z) :
  (60 <= d <= 7200 -> Spec.effective_duration (Some d) = inject_Z d) /\
  (0 < d < 60 -> Spec.effective_duration (Some d) = inject_Z 60) /\
  (7200 < d -> Spec.effective_duration (Some d) = inject_Z 7200).
Proof.
  unfold Spec.effective_duration, arm_duration.
  repeat split; intros H; (destruct (Z.eqb_spec d 0) as [E|E]; [lia|]); f_equal; lia.
Qed.

(** C3 (amended): the armed flag returned by a read is true exactly when
    a deadline is stored and lies after the clock; and after arm at time
    t, with D the duration after the clamp to [60, 7200] (900 for 0 or
    null), every state() call before t+D returns armed = true and leaves
    the state as it is, and the first call at or after t+D returns
    armed = false and clears armed_until, armed_by, arm_reason and
    arm_incident_id. *)
Theorem arming_window (s : service) (t t' : Q) (actor reason : string)
    (incident : Z) (d : option Z) (before : list Q) (after : Q) :
  let deadline := (t + Spec.effective_duration d)%Q in
  let s1 := fst (arm_actions s t t' actor reason incident d) in
  let s2 := fst (reads s1 before) in
  let last := snd (get_policy_state s2 after) in
  (t' < deadline)%Q ->
  Forall (fun x => (x < deadline)%Q) before ->
  (deadline <= after)%Q ->
  (forall p now,
     armed (fst (_policy_state_locked p now)) = true <->
     exists until, _armed_until_ts (snd (_policy_state_locked p now)) = Some until /\
                   (now < until)%Q) /\
  armed (snd (arm_actions s t t' actor reason incident d)) = true /\
  Forall (fun st => armed st = true) (snd (reads s1 before)) /\
  length (snd (reads s1 before)) = length before /\
  armed last = false /\ armed_until last = None /\ armed_by last = None /\
  arm_reason last = None /\ arm_incident_id last = None /\
  pol (fst (get_policy_state s2 after)) = disarmed.
Proof.
  intros deadline s1 s2 last Ht' Hbefore Hafter.
  destruct (arm_sets_deadline s t t' actor reason incident d Ht') as [Hpol Harmed].
  assert (Hdl : _armed_until_ts (pol s1) = Some deadline)
    by (unfold s1; rewrite Hpol; reflexivity).
  destruct (reads_while_armed s1 deadline before Hdl Hbefore) as [Hs2 [Hall Hlen]].
  split; [exact armed_iff_deadline_ahead|].
  split; [exact Harmed|]. split; [exact Hall|]. split; [exact Hlen|].
  unfold last, s2. rewrite Hs2. unfold get_policy_state.
  rewrite (read_after_expiry (pol s1) after deadline Hdl Hafter). simpl.
  repeat split.
Qed.

Lemma arming_window_witness :
  let s1 := fst (arm_actions initial 1000 1000 "operator-1" "controlled testing" 42 (Some 5)) in
  Forall (fun st => armed st = true) (snd (reads s1 [1001; 1059]%Q)) /\
  armed (snd (get_policy_state (fst (reads s1 [1001; 1059]%Q)) 1060)) = false.
Proof.
  assert (H1 : (1000 < 1000 + Spec.effective_duration (Some 5%Z))%Q) by reflexivity.
  assert (H2 : Forall (fun x => (x < 1000 + Spec.effective_duration (Some 5%Z))%Q)
                 [1001; 1059]%Q) by (repeat constructor).
  assert (H3 : (1000 + Spec.effective_duration (Some 5%Z) <= 1060)%Q) by (vm_compute; discriminate).
  pose proof (arming_window initial 1000 1000 "operator-1" "controlled testing" 42
                (Some 5) [1001; 1059]%Q 1060 H1 H2 H3) as H.
  cbv zeta in H.
  exact (conj (proj1 (proj2 (proj2 H))) (proj1 (proj2 (proj2 (proj2 (proj2 H)))))).
Defined.

(** C3, as stated with the raw argument d: armed for 5 seconds at time
    1000, the service still answers armed at 1010, after 1000 + 5. *)
Lemma arming_window_raw_duration_fails :
  (1000 + inject_Z 5 <= 1010)%Q /\
  armed (snd (get_policy_state
                (fst (arm_actions initial 1000 1000 "operator-1" "controlled testing"
                        42 (Some 5))) 1010)) = true.
Proof. split; [vm_compute; discriminate | reflexivity]. Qed.

(** C10: a duration of 0 or null arms for the default 900 seconds, not
    for the lower bound 60 of the clamp: the deadline stored is the
    clock reading plus 900. *)
Theorem arm_default_duration (s : service) (t t' : Q) (actor reason : string)
    (incident : Z) (d : option Z) :
  d = None \/ d = Some 0 ->
  (t' < t + 900)%Q ->
  arm_duration d = 900 /\
  _armed_until_ts (pol (fst (arm_actions s t t' actor reason incident d))) =
    Some (t + inject_Z 900)%Q /\
  armed (snd (arm_actions s t t' actor reason incident d)) = true.
Proof.
  intros Hd Hlt.
  assert (Hdur : arm_duration d = 900) by (destruct Hd; subst; reflexivity).
  split; [exact Hdur|].
  assert (Hlt' : (t' < t + Spec.effective_duration d)%Q)
    by (unfold Spec.effective_duration; rewrite Hdur; exact Hlt).
  destruct (arm_sets_deadline s t t' actor reason incident d Hlt') as [Hpol Harmed].
  split; [|exact Harmed].
  rewrite Hpol. simpl. unfold Spec.effective_duration. rewrite Hdur. reflexivity.
Qed.

Lemma arm_default_duration_witness :
  arm_duration (Some 0) = 900 /\
  _armed_until_ts (pol (fst (arm_actions initial 1000 1000 "op1" "test" 7 (Some 0)))) =
    Some (1000 + inject_Z 900)%Q /\
  armed (snd (arm_actions initial 1000 1000 "op1" "test" 7 (Some 0))) = true.
Proof.
  apply (arm_default_duration initial 1000 1000 "op1" "test" 7 (Some 0)).
  - right. reflexivity.
  - reflexivity.
Defined.

End ArmingWindow.

Section StoreFacts.
Import Store.

Lemma get_after_audit (d : db) (rid rid' : Z) ev who det :
  get_action_request (add_action_audit_log d rid ev who det) rid' =
  get_action_request d rid'.
Proof. reflexivity. Qed.

Lemma get_after_status (d : db) (rid rid' : Z) st by_ :
  get_action_request (update_action_request_status d rid st by_) rid' =
  if decide (rid = rid') then option_map (set_status st by_) (get_action_request d rid)
  else get_action_request d rid'.
Proof.
  unfold get_action_request, update_action_request_status. simpl.
  rewrite lookup_alter. destruct (decide (rid = rid')); [|reflexivity].
  destruct (action_requests d !! rid); reflexivity.
Qed.

Lemma get_after_approval (d : db) (rid rid' : Z) by_ dec nt :
  get_action_request (add_action_approval d rid by_ dec nt) rid' =
  if decide (rid = rid')
  then option_map (append_approval {| approved_by := by_; decision := dec; notes := nt |})
         (get_action_request d rid)
  else get_action_request d rid'.
Proof.
  unfold get_action_request, add_action_approval. simpl.
  rewrite lookup_alter. destruct (decide (rid = rid')); [|reflexivity].
  destruct (action_requests d !! rid); reflexivity.
Qed.

Lemma get_after_create (d : db) incident atype requester pl (rid' : Z) :
  get_action_request (fst (create_action_request d incident atype requester pl)) rid' =
  if decide (next_request_id d = rid')
  then Some {| id := next_request_id d; incident_id := incident; action_type := atype;
               requested_by := requester; payload := pl; req_status := pending;
               approvals := []; executed_by := None |}
  else get_action_request d rid'.
Proof. unfold get_action_request, create_action_request. simpl. apply lookup_insert. Qed.

End StoreFacts.

Section WorkflowFacts.
Import PyStr Py Store Service.
Local Open Scope string_scope.

Lemma approve_action_missing (s : service) rid approver dec nt :
  get_action_request (store s) rid = None ->
  approve_action s rid approver dec nt = (s, None).
Proof. intros H. unfold approve_action. rewrite H. reflexivity. Qed.

Lemma approve_action_repeat (s : service) rid approver dec nt r :
  get_action_request (store s) rid = Some r ->
  already_decided approver (approvals r) = true ->
  approve_action s rid approver dec nt = (s, Some (plain r)).
Proof. intros H Hd. unfold approve_action. rewrite H, Hd. reflexivity. Qed.

Lemma approve_action_fresh (s : service) rid approver dec nt r :
  get_action_request (store s) rid = Some r ->
  already_decided approver (approvals r) = false ->
  let res := approve_action s rid approver dec nt in
  (forall rid', get_action_request (store (fst res)) rid' =
                if decide (rid = rid') then Some (decided_row r approver dec nt)
                else get_action_request (store s) rid') /\
  action_audit_log (store (fst res)) =
    (action_audit_log (store s) ++
     [ {| request_id := rid; event_type := "approval"; actor := approver;
          details := [("decision", PyStr dec);
                      ("notes", match nt with Some n => PyStr n | None => PyNone end)] |} ])%list /\
  option_map row (snd res) = Some (decided_row r approver dec nt) /\
  pol (fst res) = pol s.
Proof.
  intros H Hd. unfold approve_action. rewrite H, Hd.
  rewrite get_after_audit, get_after_approval.
  destruct (decide (rid = rid)) as [_|]; [|congruence]. rewrite H. cbn [option_map].
  set (a := {| approved_by := approver; decision := dec; notes := nt |}).
  set (r2 := append_approval a r).
  set (d2 := add_action_audit_log _ _ _ _ _).
  assert (Hd2 : forall rid', get_action_request d2 rid' =
                  if decide (rid = rid') then Some r2 else get_action_request (store s) rid').
  { intros rid'. unfold d2. rewrite get_after_audit, get_after_approval.
    destruct (decide (rid = rid')); [rewrite H|]; reflexivity. }
  unfold decided_row. fold a. fold r2.
  destruct (String.eqb (lower dec) "rejected") eqn:Erej;
    [|destruct (Z.leb _ _ && negb _) eqn:Eapp].
  - rewrite get_after_status. destruct (decide (rid = rid)) as [_|]; [|congruence].
    rewrite Hd2. destruct (decide (rid = rid)) as [_|]; [|congruence]. cbn.
    split; [|split; [reflexivity|split; reflexivity]].
    intros rid'. rewrite get_after_status, !Hd2.
    repeat case_decide; congruence || reflexivity.
  - rewrite get_after_status. destruct (decide (rid = rid)) as [_|]; [|congruence].
    rewrite Hd2. destruct (decide (rid = rid)) as [_|]; [|congruence]. cbn.
    split; [|split; [reflexivity|split; reflexivity]].
    intros rid'. rewrite get_after_status, !Hd2.
    repeat case_decide; congruence || reflexivity.
  - rewrite Hd2. destruct (decide (rid = rid)) as [_|]; [|congruence]. cbn.
    split; [|split; [reflexivity|split; reflexivity]].
    intros rid'. apply Hd2.
Qed.

Lemma state_keeps_store (s : service) (now : Q) :
  store (fst (get_policy_state s now)) = store s /\
  emitted (fst (get_policy_state s now)) = emitted s.
Proof.
  unfold get_policy_state. destruct (_policy_state_locked (pol s) now). split; reflexivity.
Qed.

Lemma arm_keeps_store (s : service) now now' who reason incident d :
  store (fst (arm_actions s now now' who reason incident d)) = store s.
Proof.
  unfold arm_actions. destruct (_policy_state_locked _ now'). reflexivity.
Qed.

Lemma disarm_keeps_store (s : service) now who reason :
  store (fst (disarm_actions s now who reason)) = store s.
Proof.
  unfold disarm_actions. destruct (_policy_state_locked _ now). reflexivity.
Qed.

Lemma request_action_store (s : service) incident atype requester pl rid' :
  get_action_request (store (fst (request_action s incident atype requester pl))) rid' =
  if decide (next_request_id (store s) = rid')
  then Some {| id := next_request_id (store s); incident_id := incident;
               action_type := atype; requested_by := requester;
               payload := match pl with Some p => p | None => [] end;
               req_status := pending; approvals := []; executed_by := None |}
  else get_action_request (store s) rid'.
Proof.
  unfold request_action.
  pose proof (get_after_create (store s) incident atype requester
                (match pl with Some p => p | None => [] end)) as Hc.
  destruct (create_action_request _ _ _ _ _) as [d1 rid] eqn:E. simpl in Hc.
  assert (Hrid : rid = next_request_id (store s))
    by (unfold create_action_request in E; congruence).
  subst rid.
  destruct (get_action_request (add_action_audit_log d1 _ _ _ _) _); simpl;
    rewrite get_after_audit; apply Hc.
Qed.

(** What [execute_action] does when every gate is open, whatever the
    status of the request. *)
Lemma execute_action_runs (s : service) (now until : Q) rid who r :
  get_action_request (store s) rid = Some r ->
  _armed_until_ts (pol s) = Some until -> (now < until)%Q ->
  required_approvals (Some (action_type r)) <= count_approved (approvals r) ->
  let res := execute_action s now rid who in
  let v := {| row := set_status executed (Some who) r;
              view_required_approvals := Some (required_approvals (Some (action_type r)));
              view_approved_count := Some (count_approved (approvals r)) |} in
  snd res = (Some v, None) /\
  (forall rid', get_action_request (store (fst res)) rid' =
                if decide (rid = rid') then Some (set_status executed (Some who) r)
                else get_action_request (store s) rid') /\
  action_audit_log (store (fst res)) =
    (action_audit_log (store s) ++
     [ {| request_id := rid; event_type := "executed"; actor := who;
          details :=
            [("dispatch", PyStr "framework");
             ("note", PyStr "Execution recorded. Attach route-specific handlers per action_type.")]
       |} ])%list /\
  emitted (fst res) = (emitted s ++ [action_executed v])%list.
Proof.
  intros H Hp Hlt Hq. unfold execute_action. rewrite H.
  destruct (state_while_armed s now until Hp Hlt) as [Hs Ha].
  destruct (get_policy_state s now) as [s1 st]. simpl in Hs, Ha. subst s1.
  rewrite Ha. cbn [negb]. cbv zeta.
  destruct (Z.ltb_spec (count_approved (approvals r)) (required_approvals (Some (action_type r))));
    [lia|].
  rewrite get_after_audit, get_after_status.
  destruct (decide (rid = rid)) as [_|]; [|congruence]. rewrite H.
  cbn [option_map fst snd store _emit with_store].
  split; [reflexivity|]. split; [|split; reflexivity].
  intros rid'. rewrite get_after_audit, get_after_status, H.
  repeat case_decide; congruence || reflexivity.
Qed.

(** Every path of [execute_action] leaves the rows as they are, or
    overwrites the status of the one request with [executed]. *)
Lemma execute_action_store (s : service) (now : Q) rid who :
  store (fst (execute_action s now rid who)) = store s \/
  exists r, get_action_request (store s) rid = Some r /\
    forall rid', get_action_request (store (fst (execute_action s now rid who))) rid' =
                 if decide (rid = rid') then Some (set_status executed (Some who) r)
                 else get_action_request (store s) rid'.
Proof.
  unfold execute_action. destruct (get_action_request (store s) rid) as [r|] eqn:H;
    [|left; reflexivity].
  pose proof (state_keeps_store s now) as [Hst _].
  destruct (get_policy_state s now) as [s1 st]. simpl in Hst. cbv zeta.
  destruct (negb (armed st)); [left; exact Hst|].
  destruct (Z.ltb _ _); [left; exact Hst|].
  right. exists r. split; [reflexivity|].
  assert (Hget : forall rid', get_action_request
            (add_action_audit_log (update_action_request_status (store s1) rid executed (Some who))
               rid "executed" who
               [("dispatch", PyStr "framework");
                ("note", PyStr "Execution recorded. Attach route-specific handlers per action_type.")])
            rid' =
          if decide (rid = rid') then Some (set_status executed (Some who) r)
          else get_action_request (store s) rid').
  { intros rid'. rewrite get_after_audit, get_after_status, Hst, H.
    repeat case_decide; congruence || reflexivity. }
  destruct (get_action_request (add_action_audit_log _ _ _ _ _) rid); simpl; exact Hget.
Qed.

Lemma already_decided_iff (approver : string) (l : list approval) :
  already_decided approver l = true <->
  In (lower approver) (map (fun a => lower (approved_by a)) l).
Proof.
  unfold already_decided. rewrite existsb_exists, in_map_iff. split.
  - intros [a [Hin He]]. apply String.eqb_eq in He. eauto.
  - intros [a [He Hin]]. exists a. split; [exact Hin|]. now apply String.eqb_eq.
Qed.

Lemma decided_row_approvals (r : action_request) approver dec nt :
  approvals (decided_row r approver dec nt) =
  (approvals r ++ [ {| approved_by := approver; decision := dec; notes := nt |} ])%list.
Proof.
  unfold decided_row. destruct (String.eqb _ _); [reflexivity|].
  destruct (_ && _); reflexivity.
Qed.

End WorkflowFacts.

Section ActionWorkflow.
Import PyStr Py Store Service.
Local Open Scope string_scope.

(** C1 (what the code does instead): with the policy armed and the
    quorum met, execute_action on a request whose status is already
    executed returns the request with no error, overwrites executed_by
    with the new actor, appends one more executed entry to the audit log
    and emits action_executed again. *)
Theorem execute_action_on_executed_runs_again (s : service) (now until : Q)
    (rid : Z) (who : string) (r : action_request) :
  get_action_request (store s) rid = Some r ->
  req_status r = executed ->
  _armed_until_ts (pol s) = Some until -> (now < until)%Q ->
  required_approvals (Some (action_type r)) <= count_approved (approvals r) ->
  let res := execute_action s now rid who in
  snd (snd res) = None /\
  option_map row (fst (snd res)) = Some (set_status executed (Some who) r) /\
  get_action_request (store (fst res)) rid = Some (set_status executed (Some who) r) /\
  length (action_audit_log (store (fst res))) = S (length (action_audit_log (store s))) /\
  length (emitted (fst res)) = S (length (emitted s)).
Proof.
  intros H _ Hp Hlt Hq res.
  destruct (execute_action_runs s now until rid who r H Hp Hlt Hq) as [Hr [Hg [Ha He]]].
  fold res in Hr, Hg, Ha, He. rewrite Hr, Ha, He, Hg. cbn [fst snd option_map row].
  repeat split.
  - destruct (decide (rid = rid)); [reflexivity|congruence].
  - rewrite length_app. simpl. lia.
  - rewrite length_app. simpl. lia.
Qed.

Lemma row_executed_by (o : option request_view) (x : action_request) :
  option_map row o = Some x ->
  option_map (fun v => executed_by (row v)) o = Some (executed_by x).
Proof. destruct o; simpl; [intros H; injection H as <-; reflexivity | discriminate]. Qed.

Lemma execute_action_on_executed_runs_again_witness :
  status_of scenario_executed 1 = Some executed /\
  snd (snd (execute_action scenario_executed 1002 1 "op2")) = None /\
  option_map (fun v => executed_by (row v))
    (fst (snd (execute_action scenario_executed 1002 1 "op2"))) = Some (Some "op2") /\
  length (action_audit_log (store (fst (execute_action scenario_executed 1002 1 "op2")))) =
    S (length (action_audit_log (store scenario_executed))).
Proof.
  assert (H : exists r, get_action_request (store scenario_executed) 1 = Some r /\
                        req_status r = executed /\
                        required_approvals (Some (action_type r)) <=
                          count_approved (approvals r)).
  { eexists. split; [vm_compute; reflexivity|]. split; [reflexivity|].
    vm_compute. discriminate. }
  destruct H as [r [Hget [Hst Hq]]].
  assert (Hp : _armed_until_ts (pol scenario_executed) = Some (1000 + inject_Z 900)%Q)
    by (vm_compute; reflexivity).
  assert (Hlt : (1002 < 1000 + inject_Z 900)%Q) by reflexivity.
  pose proof (execute_action_on_executed_runs_again scenario_executed 1002 _ 1 "op2" r
                Hget Hst Hp Hlt Hq) as Hx.
  cbv zeta in Hx. destruct Hx as [H1 [H2 [_ [H4 _]]]].
  split; [unfold status_of; rewrite Hget; simpl; congruence|].
  split; [exact H1|]. split; [|exact H4].
  exact (row_executed_by _ _ H2).
Defined.

(** C2, as stated, fails on the code: a request that is approved moves
    to rejected when a second supervisor rejects it, and execute_action
    then moves the rejected request to executed. *)
Lemma rejected_not_only_from_pending :
  status_of scenario_approved 1 = Some approved /\
  status_of scenario_rejected 1 = Some rejected /\
  status_of (fst (execute_action scenario_rejected 1001 1 "op1")) 1 = Some executed.
Proof. repeat split; vm_compute; reflexivity. Qed.

Lemma status_after_approve (s : service) rid approver dec nt rid' :
  status_of (fst (approve_action s rid approver dec nt)) rid' =
  match get_action_request (store s) rid with
  | Some r =>
      if already_decided approver (approvals r) then status_of s rid'
      else if decide (rid = rid') then Some (req_status (decided_row r approver dec nt))
      else status_of s rid'
  | None => status_of s rid'
  end.
Proof.
  unfold status_of. destruct (get_action_request (store s) rid) as [r|] eqn:H.
  - destruct (already_decided approver (approvals r)) eqn:Hd.
    + rewrite (approve_action_repeat s rid approver dec nt r H Hd). reflexivity.
    + destruct (approve_action_fresh s rid approver dec nt r H Hd) as [Hg _].
      rewrite Hg. destruct (decide (rid = rid')); reflexivity.
  - rewrite (approve_action_missing s rid approver dec nt H). reflexivity.
Qed.

Lemma decided_row_status (r : action_request) approver dec nt :
  req_status (decided_row r approver dec nt) = rejected <->
  req_status r = rejected \/ lower dec = "rejected".
Proof.
  unfold decided_row. destruct (String.eqb_spec (lower dec) "rejected") as [E|E].
  - simpl. split; [now right|reflexivity].
  - cbn [append_approval req_status].
    destruct (Z.leb _ _); cbn [andb]; destruct (req_status r) eqn:Es; simpl;
      (split; [intros H; try congruence; auto | intros [H|H]; congruence]).
Qed.

(** C2 (amended): once the status of a request is rejected, no
    approve_action call changes it; a request becomes rejected only when
    approve_action records a decision rejected from an approver with no
    earlier decision on it, and such a decision rejects a request that
    is pending or approved; execute_action never moves a request to
    rejected. *)
Theorem rejected_under_approve_action (s : service) (rid rid' : Z)
    (approver dec : string) (nt : option string) :
  let s' := fst (approve_action s rid approver dec nt) in
  (status_of s rid' = Some rejected -> status_of s' rid' = Some rejected) /\
  (status_of s' rid' = Some rejected ->
   status_of s rid' = Some rejected \/
   (rid' = rid /\ lower dec = "rejected" /\
    exists r, get_action_request (store s) rid = Some r /\
              already_decided approver (approvals r) = false)) /\
  (forall r, get_action_request (store s) rid = Some r ->
             req_status r = pending \/ req_status r = approved ->
             already_decided approver (approvals r) = false ->
             lower dec = "rejected" -> status_of s' rid = Some rejected) /\
  (forall now who,
     status_of (fst (execute_action s now rid who)) rid' = Some rejected ->
     status_of s rid' = Some rejected).
Proof.
  intros s'. unfold s'. rewrite !status_after_approve.
  split; [|split; [|split]].
  - intros Hrej. destruct (get_action_request (store s) rid) as [r|] eqn:H; [|exact Hrej].
    destruct (already_decided approver (approvals r)); [exact Hrej|].
    destruct (decide (rid = rid')) as [<-|]; [|exact Hrej].
    f_equal. apply decided_row_status. left.
    unfold status_of in Hrej. rewrite H in Hrej. simpl in Hrej. congruence.
  - intros Hrej. destruct (get_action_request (store s) rid) as [r|] eqn:H; [|now left].
    destruct (already_decided approver (approvals r)) eqn:Hd; [now left|].
    destruct (decide (rid = rid')) as [<-|]; [|now left].
    injection Hrej as Hrej. apply decided_row_status in Hrej. destruct Hrej as [Hr|Hr].
    + left. unfold status_of. rewrite H. simpl. congruence.
    + right. repeat split; eauto.
  - intros r H _ Hd Hdec. rewrite H, Hd.
    destruct (decide (rid = rid)); [|congruence].
    f_equal. apply decided_row_status. now right.
  - intros now who. unfold status_of.
    destruct (execute_action_store s now rid who) as [->|[r [H Hg]]]; [easy|].
    rewrite Hg. destruct (decide (rid = rid')) as [<-|]; [|easy]. discriminate.
Qed.

Lemma rejected_under_approve_action_witness :
  status_of scenario_rejected 1 = Some rejected /\
  status_of (fst (approve_action scenario_rejected 1 "supervisor-c" "approved" None)) 1 =
    Some rejected.
Proof.
  split; [reflexivity|].
  apply (proj1 (rejected_under_approve_action scenario_rejected 1 1
                  "supervisor-c" "approved" None)).
  reflexivity.
Defined.

Lemma nodup_map_snoc {A B} (f : A -> B) (l : list A) (a : A) :
  List.NoDup (map f l) -> ~ In (f a) (map f l) -> List.NoDup (map f (l ++ [a])).
Proof.
  intros Hnd Hnin. rewrite map_app. simpl.
  apply NoDup_ListNoDup, NoDup_app. split; [now apply NoDup_ListNoDup|]. split.
  - intros x Hx Hx'. apply list_elem_of_singleton in Hx'. subst x.
    apply Hnin. now apply list_elem_of_In.
  - apply NoDup_singleton.
Qed.

Lemma approve_action_keeps_one_approval (s : service) rid approver dec nt :
  every_request one_approval_per_approver (store s) ->
  every_request one_approval_per_approver
    (store (fst (approve_action s rid approver dec nt))).
Proof.
  intros Hinv rid' r' Hget.
  destruct (get_action_request (store s) rid) as [r|] eqn:H.
  - destruct (already_decided approver (approvals r)) eqn:Hd.
    + rewrite (approve_action_repeat s rid approver dec nt r H Hd) in Hget.
      exact (Hinv rid' r' Hget).
    + destruct (approve_action_fresh s rid approver dec nt r H Hd) as [Hg _].
      rewrite Hg in Hget. destruct (decide (rid = rid')) as [<-|].
      * injection Hget as <-. unfold one_approval_per_approver.
        rewrite decided_row_approvals. apply nodup_map_snoc.
        -- exact (Hinv rid r H).
        -- simpl. intros Hin. apply already_decided_iff in Hin. congruence.
      * exact (Hinv rid' r' Hget).
  - rewrite (approve_action_missing s rid approver dec nt H) in Hget.
    exact (Hinv rid' r' Hget).
Qed.

Lemma reachable_one_approval (s : service) :
  reachable s -> every_request one_approval_per_approver (store s).
Proof.
  induction 1 as [|s now _ IH|s now now' who reason incident d _ IH|s now who reason _ IH
                  |s incident atype requester pl _ IH|s rid approver dec nt _ IH
                  |s now rid who _ IH].
  - intros rid r Hget. unfold get_action_request in Hget. simpl in Hget.
    rewrite lookup_empty in Hget. discriminate.
  - destruct (state_keeps_store s now) as [-> _]. exact IH.
  - rewrite arm_keeps_store. exact IH.
  - rewrite disarm_keeps_store. exact IH.
  - intros rid r Hget. rewrite request_action_store in Hget.
    destruct (decide (next_request_id (store s) = rid)).
    + injection Hget as <-. apply List.NoDup_nil.
    + exact (IH rid r Hget).
  - now apply approve_action_keeps_one_approval.
  - intros rid' r' Hget.
    destruct (execute_action_store s now rid who) as [Hs|[r [H Hg]]].
    + rewrite Hs in Hget. exact (IH rid' r' Hget).
    + rewrite Hg in Hget. destruct (decide (rid = rid')) as [<-|].
      * injection Hget as <-. exact (IH rid r H).
      * exact (IH rid' r' Hget).
Qed.

(** C5: approve_action is idempotent per approver.  When the approver
    already has a recorded approval on the request, names compared
    without regard to case, a further approve_action leaves the whole
    service state as it is (no approval appended, no audit entry, no
    status change, no event) and returns the current request; and in
    every reachable state every request holds at most one approval per
    approver. *)
Theorem approve_action_idempotent_per_approver :
  (forall (s : service) rid approver dec nt r,
     get_action_request (store s) rid = Some r ->
     In (lower approver) (map (fun a => lower (approved_by a)) (approvals r)) ->
     approve_action s rid approver dec nt = (s, Some (plain r))) /\
  (forall s, reachable s ->
     forall rid r, get_action_request (store s) rid = Some r ->
                   one_approval_per_approver r).
Proof.
  split.
  - intros s rid approver dec nt r H Hin.
    apply approve_action_repeat; [exact H|]. now apply already_decided_iff.
  - intros s Hr. exact (reachable_one_approval s Hr).
Qed.

(** The approved request of the scenario, approved again by the same
    supervisor under another spelling of the name. *)
Lemma approve_action_idempotent_per_approver_witness :
  exists r,
    get_action_request (store scenario_approved) 1 = Some r /\
    approve_action scenario_approved 1 "Supervisor-A" "rejected" None =
      (scenario_approved, Some (plain r)) /\
    one_approval_per_approver r.
Proof.
  assert (H : exists r, get_action_request (store scenario_approved) 1 = Some r /\
                        In (lower "Supervisor-A")
                           (map (fun a => lower (approved_by a)) (approvals r))).
  { eexists. split; [vm_compute; reflexivity|]. left. reflexivity. }
  destruct H as [r [Hget Hin]]. exists r. split; [exact Hget|]. split.
  - exact (proj1 approve_action_idempotent_per_approver scenario_approved 1
             "Supervisor-A" "rejected" None r Hget Hin).
  - apply (proj2 approve_action_idempotent_per_approver scenario_approved) with (rid := 1);
      [|exact Hget].
    unfold scenario_approved. apply reach_arm, reach_approve, reach_request, reach_initial.
Defined.

End ActionWorkflow.

Section RemoteIdFacts.
Import PyStr Py RemoteId.
Context `{RT : Runtime}.



(** The Remote-ID JSON scenario of the spec: whatever else the runtime
    does, when [json.loads] reads the text as this mapping the payload is
    detected, in format json, with altitude 80.0 and confidence 0.85. *)
Lemma decode_json_scenario (text : string) :
  is_empty (strip text) = false ->
  json_loads (strip text) =
    Some (PyDict [("uas_id", PyStr "RID-ABC"); ("lat", PyFloat 35.0);
                  ("lon", PyFloat (-115.0)); ("altitude", PyInt 80)]%string) ->
  detected (decode_remote_id_payload (Value (PyStr text))) = true /\
  source_format (decode_remote_id_payload (Value (PyStr text))) = "json"%string /\
  uas_id (decode_remote_id_payload (Value (PyStr text))) = Some "RID-ABC"%string /\
  altitude_m (decode_remote_id_payload (Value (PyStr text))) = Some (inject_Z 80) /\
  (0.85 <= confidence (decode_remote_id_payload (Value (PyStr text))))%Q.
Proof.
  intros Hne Hj. unfold decode_remote_id_payload, _normalize_input.
  assert (Hs : str (or_ (PyStr text) (PyStr "")) = text).
  { unfold or_. destruct (truthy (PyStr text)) eqn:E; [reflexivity|].
    simpl in E. unfold PyStr.truthy in E. destruct text; [reflexivity|discriminate]. }
  rewrite Hs, Hne, Hj. vm_compute. repeat split; discriminate.
Qed.

End RemoteIdFacts.

Section RoundingFacts.
Import Py.

Lemma round_half_even_comp (x y : Q) :
  (x == y)%Q -> round_half_even x = round_half_even y.
Proof.
  intros H. unfold round_half_even. rewrite (Qfloor_comp _ _ H).
  assert (Hc : (x - inject_Z (Qfloor y) ?= 1 # 2)%Q = (y - inject_Z (Qfloor y) ?= 1 # 2)%Q)
    by (apply Qcompare_comp; [rewrite H|]; reflexivity).
  rewrite Hc. reflexivity.
Qed.

Lemma round3_comp (x y : Q) : (x == y)%Q -> round3 x = round3 y.
Proof.
  intros H. unfold round3. f_equal. apply round_half_even_comp. rewrite H. reflexivity.
Qed.

(** Rounding does not pass an integer that bounds its argument. *)
Lemma round_half_even_le (x : Q) (n : Z) :
  (x <= inject_Z n)%Q -> round_half_even x <= n.
Proof.
  intros H. unfold round_half_even.
  pose proof (Qfloor_le x) as Hf.
  assert (Hfn : Qfloor x <= n).
  { rewrite Zle_Qle. eapply Qle_trans; eauto. }
  destruct (Z.eq_dec (Qfloor x) n) as [E|E].
  - assert (Hx : (x == inject_Z (Qfloor x))%Q).
    { apply Qle_antisym; [rewrite E; exact H | exact Hf]. }
    assert (Hc : (x - inject_Z (Qfloor x) ?= 1 # 2)%Q = Lt).
    { rewrite <- Qlt_alt. rewrite Hx at 1. field_simplify. reflexivity. }
    rewrite Hc. lia.
  - destruct (x - inject_Z (Qfloor x) ?= 1 # 2)%Q; [destruct (Z.even _)| |]; lia.
Qed.

Lemma round_half_even_ge (x : Q) (n : Z) :
  (inject_Z n <= x)%Q -> n <= round_half_even x.
Proof.
  intros H. unfold round_half_even.
  assert (Hfn : n <= Qfloor x).
  { rewrite <- (Qfloor_Z n). now apply Qfloor_resp_le. }
  destruct (x - inject_Z (Qfloor x) ?= 1 # 2)%Q; [destruct (Z.even _)| |]; lia.
Qed.

End RoundingFacts.

(** ** Doubles *)

Section Binary64.
Import Py.

Lemma pow2_pos (e : Z) : (0 < pow2 e)%Q.
Proof. apply Qpower_0_lt. reflexivity. Qed.

Lemma pow2_add (a b : Z) : (pow2 (a + b) == pow2 a * pow2 b)%Q.
Proof. apply Qpower_plus. discriminate. Qed.

Lemma pow2_cancel (e : Z) : (pow2 (- e) * pow2 e == 1)%Q.
Proof. rewrite <- pow2_add. replace (- e + e) with 0 by lia. reflexivity. Qed.

Lemma pow2_lt (a b : Z) : a < b -> (pow2 a < pow2 b)%Q.
Proof. intros H. apply Qpower_lt_compat_l; [exact H | reflexivity]. Qed.

Lemma pow2_le (a b : Z) : a <= b -> (pow2 a <= pow2 b)%Q.
Proof. intros H. apply Qpower_le_compat_l; [exact H | discriminate]. Qed.

Lemma pow2_lt_inv (a b : Z) : (pow2 a < pow2 b)%Q -> a < b.
Proof. intros H. apply (Qpower_lt_compat_l_inv 2); [exact H | reflexivity]. Qed.

Lemma pow2_Z (k : Z) : 0 <= k -> (pow2 k == inject_Z (2 ^ k))%Q.
Proof. intros H. unfold pow2. rewrite Zpower_Qpower by exact H. reflexivity. Qed.

(** [ilog2 a] is the integer part of the binary logarithm of [a]. *)
Lemma ilog2_spec (a : Q) :
  (0 < a)%Q -> (pow2 (ilog2 a) <= a)%Q /\ (a < pow2 (ilog2 a + 1))%Q.
Proof.
  intros Ha. destruct a as [n d]. unfold ilog2. cbn [Qnum Qden].
  assert (Hn : 0 < n) by (unfold Qlt in Ha; simpl in Ha; lia).
  set (ln := Z.log2 n). set (ld := Z.log2 (Z.pos d)).
  pose proof (Z.log2_spec n Hn) as [Hn1 Hn2]. fold ln in Hn1, Hn2.
  pose proof (Z.log2_spec (Z.pos d) eq_refl) as [Hd1 Hd2]. fold ld in Hd1, Hd2.
  pose proof (Z.log2_nonneg n) as Hln. fold ln in Hln.
  pose proof (Z.log2_nonneg (Z.pos d)) as Hld. fold ld in Hld.
  assert (Hup : (n # d < pow2 (ln - ld + 1))%Q).
  { apply (Qmult_lt_r _ _ (pow2 ld) (pow2_pos ld)).
    rewrite <- pow2_add. replace (ln - ld + 1 + ld) with (Z.succ ln) by lia.
    rewrite !pow2_Z by lia. unfold Qlt. simpl.
    rewrite Z.mul_1_r. apply Z.lt_le_trans with (2 ^ Z.succ ln * 2 ^ ld); [|nia].
    apply Z.mul_lt_mono_pos_r; [lia | exact Hn2]. }
  assert (Hlo : (pow2 (ln - ld - 1) < n # d)%Q).
  { apply (Qmult_lt_r _ _ (pow2 (Z.succ ld)) (pow2_pos _)).
    rewrite <- pow2_add. replace (ln - ld - 1 + Z.succ ld) with ln by lia.
    rewrite !pow2_Z by lia. unfold Qlt. simpl.
    rewrite Z.mul_1_r. apply Z.le_lt_trans with (n * Z.pos d); [nia|].
    apply Z.mul_lt_mono_pos_l; [lia | exact Hd2]. }
  destruct (Qle_bool (pow2 (ln - ld)) (n # d)) eqn:E.
  - apply Qle_bool_iff in E. split; [exact E | exact Hup].
  - split; [apply Qlt_le_weak; exact Hlo|].
    replace (ln - ld - 1 + 1) with (ln - ld) by lia.
    apply Qnot_le_lt. intros H. apply Qle_bool_iff in H. congruence.
Qed.

Lemma ilog2_unique (a : Q) (k : Z) :
  (pow2 k <= a)%Q -> (a < pow2 (k + 1))%Q -> ilog2 a = k.
Proof.
  intros H1 H2.
  assert (Ha : (0 < a)%Q) by (eapply Qlt_le_trans; [apply (pow2_pos k) | exact H1]).
  destruct (ilog2_spec a Ha) as [H3 H4].
  assert (ilog2 a < k + 1)
    by (apply pow2_lt_inv; eapply Qle_lt_trans; [exact H3 | exact H2]).
  assert (k < ilog2 a + 1)
    by (apply pow2_lt_inv; eapply Qle_lt_trans; [exact H1 | exact H4]).
  lia.
Qed.

Lemma ilog2_comp (a b : Q) : (0 < a)%Q -> (a == b)%Q -> ilog2 a = ilog2 b.
Proof.
  intros Ha E. destruct (ilog2_spec a Ha) as [H1 H2].
  symmetry. apply ilog2_unique; rewrite <- E; assumption.
Qed.

Lemma round_half_even_error (x : Q) :
  (Qabs (inject_Z (round_half_even x) - x) <= 1 # 2)%Q.
Proof.
  unfold round_half_even.
  pose proof (Qfloor_le x) as H1. pose proof (Qlt_floor x) as H2.
  rewrite inject_Z_plus in H2. change (inject_Z 1) with 1%Q in H2.
  apply Qabs_Qle_condition.
  destruct (Qcompare_spec (x - inject_Z (Qfloor x)) (1 # 2)) as [E|E|E].
  - destruct (Z.even (Qfloor x)).
    + split; lra.
    + rewrite inject_Z_plus. change (inject_Z 1) with 1%Q. split; lra.
  - split; lra.
  - rewrite inject_Z_plus. change (inject_Z 1) with 1%Q. split; lra.
Qed.

Lemma round_half_even_Z (n : Z) : round_half_even (inject_Z n) = n.
Proof.
  unfold round_half_even. rewrite Qfloor_Z.
  assert (Hc : (inject_Z n - inject_Z n ?= 1 # 2)%Q = Lt).
  { rewrite <- Qlt_alt. lra. }
  rewrite Hc. reflexivity.
Qed.

Lemma Qabs_pos_nonzero (x : Q) : Qeq_bool x 0 = false -> (0 < Qabs x)%Q.
Proof.
  intros H. destruct (Qlt_le_dec 0 (Qabs x)) as [Hl|Hl]; [exact Hl|].
  exfalso. assert (E : (x == 0)%Q).
  { pose proof (Qabs_nonneg x) as Hn.
    assert (Hz : (Qabs x == 0)%Q) by (apply Qle_antisym; assumption).
    apply Qabs_Qle_condition in Hl. lra. }
  apply Qeq_bool_iff in E. congruence.
Qed.

Lemma b64_comp (x y : Q) : (x == y)%Q -> (b64 x == b64 y)%Q.
Proof.
  intros E. unfold b64.
  assert (Hb : Qeq_bool x 0 = Qeq_bool y 0).
  { destruct (Qeq_bool x 0) eqn:Ex, (Qeq_bool y 0) eqn:Ey; try reflexivity.
    - apply Qeq_bool_iff in Ex. rewrite E in Ex. apply Qeq_bool_iff in Ex. congruence.
    - apply Qeq_bool_iff in Ey. rewrite <- E in Ey. apply Qeq_bool_iff in Ey. congruence. }
  rewrite <- Hb. destruct (Qeq_bool x 0) eqn:Ex; [reflexivity|].
  assert (He : ulp_exp (Qabs x) = ulp_exp (Qabs y)).
  { unfold ulp_exp. f_equal. f_equal. apply ilog2_comp; [now apply Qabs_pos_nonzero|].
    rewrite E. reflexivity. }
  cbv zeta. rewrite <- He.
  assert (Em : (x * pow2 (- ulp_exp (Qabs x)) == y * pow2 (- ulp_exp (Qabs x)))%Q)
    by (apply Qmult_comp; [exact E | reflexivity]).
  rewrite (round_half_even_comp _ _ Em). reflexivity.
Qed.

(** The last place of a double is at most 2^-52 of its size, or the
    last place of the subnormal numbers. *)
Lemma ulp_exp_cases (a : Q) :
  (0 < a)%Q ->
  (pow2 (ulp_exp a) <= a * pow2 (-52))%Q \/ ulp_exp a = -1074.
Proof.
  intros Ha. unfold ulp_exp. destruct (Z.max_spec (ilog2 a - 52) (-1074)) as [[_ ->]|[_ ->]].
  - right. reflexivity.
  - left. replace (ilog2 a - 52) with (ilog2 a + -52) by lia. rewrite pow2_add.
    apply Qmult_le_compat_r; [apply ilog2_spec; exact Ha | apply Qlt_le_weak, pow2_pos].
Qed.

Lemma b64_error (x : Q) :
  Qeq_bool x 0 = false ->
  (Qabs (b64 x - x) <= (1 # 2) * pow2 (ulp_exp (Qabs x)))%Q.
Proof.
  intros Hx. unfold b64. rewrite Hx. cbv zeta.
  set (e := ulp_exp (Qabs x)). set (s := (x * pow2 (- e))%Q).
  assert (Es : (x == s * pow2 e)%Q).
  { unfold s. rewrite <- Qmult_assoc, pow2_cancel. ring. }
  assert (E : (inject_Z (round_half_even s) * pow2 e - x ==
               (inject_Z (round_half_even s) - s) * pow2 e)%Q).
  { rewrite Es at 1. ring. }
  rewrite E, Qabs_Qmult, (Qabs_pos (pow2 e)) by apply Qlt_le_weak, pow2_pos.
  apply Qmult_le_compat_r; [apply round_half_even_error | apply Qlt_le_weak, pow2_pos].
Qed.

(** Rounding to a double moves a number by at most 2^-53 of its size,
    or by half the last place of the subnormal numbers. *)
Lemma b64_close (x : Q) :
  (Qabs (b64 x - x) <= (Qabs x + 1) * (1 # 1000000000000000))%Q.
Proof.
  destruct (Qeq_bool x 0) eqn:Hx.
  - unfold b64. rewrite Hx. apply Qeq_bool_iff in Hx. rewrite Hx. discriminate.
  - pose proof (b64_error x Hx) as He.
    pose proof (Qabs_pos_nonzero x Hx) as Hp.
    assert (H52 : (pow2 (-52) <= 1 # 1000000000000000)%Q) by (vm_compute; discriminate).
    assert (H1074 : (pow2 (-1074) <= 1 # 1000000000000000)%Q) by (vm_compute; discriminate).
    destruct (ulp_exp_cases (Qabs x) Hp) as [Hu|Hu].
    + assert (Hm : (Qabs x * pow2 (-52) <= Qabs x * (1 # 1000000000000000))%Q).
      { rewrite !(Qmult_comm (Qabs x)). apply Qmult_le_compat_r; [exact H52 | apply Qabs_nonneg]. }
      pose proof (Qle_trans _ _ _ Hu Hm) as Hum.
      clear - He Hum Hp. revert He Hum Hp.
      generalize (pow2 (ulp_exp (Qabs x))) (Qabs (b64 x - x)) (Qabs x).
      intros u d a He Hum Hp. lra.
    + rewrite Hu in He. clear - He H1074 Hp. revert He H1074 Hp.
      generalize (pow2 (-1074)) (Qabs (b64 x - x)) (Qabs x).
      intros p d a He Hp1074 Hp. lra.
Qed.

(** A number with a mantissa of 53 bits and an exponent in range is a
    double. *)
Lemma b64_exact (x : Q) (k j : Z) :
  (x == inject_Z k * pow2 j)%Q -> Z.abs k < 2 ^ 53 -> -1074 <= j ->
  (b64 x == x)%Q.
Proof.
  intros Ex Hk Hj. unfold b64. destruct (Qeq_bool x 0) eqn:Hx.
  - apply Qeq_bool_iff in Hx. rewrite Hx. reflexivity.
  - cbv zeta. set (e := ulp_exp (Qabs x)).
    pose proof (Qabs_pos_nonzero x Hx) as Hp.
    assert (He : e <= j).
    { unfold e, ulp_exp. apply Z.max_lub; [|exact Hj].
      destruct (ilog2_spec (Qabs x) Hp) as [H1 _].
      assert (H2 : (Qabs x < pow2 (53 + j))%Q).
      { rewrite Ex, Qabs_Qmult, (Qabs_pos (pow2 j)) by apply Qlt_le_weak, pow2_pos.
        rewrite pow2_add. apply Qmult_lt_r; [apply pow2_pos|].
        rewrite pow2_Z by lia. change (Qabs (inject_Z k)) with (inject_Z (Z.abs k)).
        rewrite <- Zlt_Qlt. exact Hk. }
      assert (ilog2 (Qabs x) < 53 + j)
        by (apply pow2_lt_inv; eapply Qle_lt_trans; [exact H1 | exact H2]).
      lia. }
    assert (Es : (x * pow2 (- e) == inject_Z (k * 2 ^ (j - e)))%Q).
    { rewrite Ex, inject_Z_mult, <- pow2_Z by lia.
      rewrite <- Qmult_assoc, <- pow2_add. replace (j + - e) with (j - e) by lia.
      reflexivity. }
    rewrite (round_half_even_comp _ _ Es), round_half_even_Z.
    rewrite Ex, inject_Z_mult, <- pow2_Z by lia.
    rewrite <- Qmult_assoc, <- pow2_add. replace (j - e + e) with j by lia.
    reflexivity.
Qed.

(** Every double has a mantissa of at most 53 bits and an exponent in
    range. *)
Lemma b64_grid (x : Q) :
  exists m e, (b64 x == inject_Z m * pow2 e)%Q /\ Z.abs m <= 2 ^ 53 /\ -1074 <= e.
Proof.
  unfold b64. destruct (Qeq_bool x 0) eqn:Hx.
  - exists 0, 0. split; [reflexivity|]. split; [discriminate | lia].
  - cbv zeta. set (e := ulp_exp (Qabs x)).
    exists (round_half_even (x * pow2 (- e))), e.
    split; [reflexivity|]. split; [|unfold e, ulp_exp; lia].
    pose proof (Qabs_pos_nonzero x Hx) as Hp.
    destruct (ilog2_spec (Qabs x) Hp) as [_ H2].
    assert (Hs : (Qabs (x * pow2 (- e)) <= inject_Z (2 ^ 53))%Q).
    { rewrite Qabs_Qmult, (Qabs_pos (pow2 (- e))) by apply Qlt_le_weak, pow2_pos.
      rewrite <- pow2_Z by lia.
      apply (Qmult_le_r _ _ (pow2 e) (pow2_pos e)).
      rewrite <- Qmult_assoc, pow2_cancel, Qmult_1_r, <- pow2_add.
      apply Qlt_le_weak. eapply Qlt_le_trans; [exact H2|].
      apply pow2_le. unfold e, ulp_exp. lia. }
    apply Qabs_Qle_condition in Hs. destruct Hs as [Hs1 Hs2].
    apply Z.abs_le. split.
    + apply round_half_even_ge. rewrite inject_Z_opp. exact Hs1.
    + apply round_half_even_le. exact Hs2.
Qed.

End Binary64.

Section RoundingNear.
Import Py.

Lemma round_half_even_lt_half (x : Q) (n : Z) :
  (x < inject_Z n + (1 # 2))%Q -> round_half_even x <= n.
Proof.
  intros H. pose proof (round_half_even_error x) as He.
  apply Qabs_Qle_condition in He. destruct He as [_ He].
  assert (Hlt : (inject_Z (round_half_even x) < inject_Z (n + 1))%Q).
  { rewrite inject_Z_plus. change (inject_Z 1) with 1%Q. lra. }
  rewrite <- Zlt_Qlt in Hlt. lia.
Qed.

(** Two numbers less than 1 apart round to integers at most 1 apart. *)
Lemma round_half_even_near (x y : Q) :
  (Qabs (x - y) < 1)%Q -> Z.abs (round_half_even x - round_half_even y) <= 1.
Proof.
  intros H. apply Qabs_Qlt_condition in H. destruct H as [H1 H2].
  pose proof (round_half_even_error x) as Hx. apply Qabs_Qle_condition in Hx.
  pose proof (round_half_even_error y) as Hy. apply Qabs_Qle_condition in Hy.
  destruct Hx as [Hx1 Hx2], Hy as [Hy1 Hy2].
  assert (Hl : (inject_Z (round_half_even x) < inject_Z (round_half_even y + 2))%Q).
  { rewrite inject_Z_plus. change (inject_Z 2) with 2%Q. lra. }
  assert (Hr : (inject_Z (round_half_even y) < inject_Z (round_half_even x + 2))%Q).
  { rewrite inject_Z_plus. change (inject_Z 2) with 2%Q. lra. }
  rewrite <- Zlt_Qlt in Hl, Hr. lia.
Qed.

Lemma round3_near (x y : Q) :
  (Qabs (x - y) < 1 # 1000)%Q -> (Qabs (round3 x - round3 y) <= 1 # 1000)%Q.
Proof.
  intros H.
  assert (H' : (Qabs (x * 1000 - y * 1000) < 1)%Q).
  { apply Qabs_Qlt_condition in H. apply Qabs_Qlt_condition. lra. }
  pose proof (round_half_even_near _ _ H') as Hn.
  apply Qabs_Qle_condition. unfold round3, Qle, Qminus, Qplus, Qopp. simpl. lia.
Qed.

End RoundingNear.

Section RfDetector.
Import PyStr Py RemoteId Detector.
Local Open Scope string_scope.

Lemma fmin_le_l (a b : Q) : (fmin a b <= a)%Q.
Proof. unfold fmin. destruct (Qlt_le_dec b a); [now apply Qlt_le_weak | apply Qle_refl]. Qed.

Lemma fmin_le_r (a b : Q) : (fmin a b <= b)%Q.
Proof. unfold fmin. destruct (Qlt_le_dec b a); [apply Qle_refl | assumption]. Qed.

Lemma fmin_either (a b : Q) : fmin a b = a \/ fmin a b = b.
Proof. unfold fmin. destruct (Qlt_le_dec b a); auto. Qed.

Lemma min_list_le (l : list Q) (x : Q) :
  (min_list x l <= x)%Q /\ forall y, In y l -> (min_list x l <= y)%Q.
Proof.
  revert x. induction l as [|z l IH]; intros x; simpl.
  - split; [apply Qle_refl | intros y []].
  - destruct (IH (fmin x z)) as [H1 H2]. split.
    + eapply Qle_trans; [exact H1 | apply fmin_le_l].
    + intros y [<-|Hy]; [eapply Qle_trans; [exact H1 | apply fmin_le_r] | now apply H2].
Qed.

Lemma min_list_in (l : list Q) (x : Q) : min_list x l = x \/ In (min_list x l) l.
Proof.
  revert x. induction l as [|z l IH]; intros x; simpl; [now left|].
  destruct (IH (fmin x z)) as [H|H]; [|now right; right].
  rewrite H. destruct (fmin_either x z) as [->| ->]; [now left | now right; left].
Qed.

(** The delta the detector computes is the least of the differences it
    takes, each a double. *)
Lemma closest_freq_delta_least (f : Q) :
  (exists hint, In hint RF_FREQ_HINTS_MHZ /\
                _closest_freq_delta f = Qabs (fsub f hint)) /\
  (forall hint, In hint RF_FREQ_HINTS_MHZ ->
                (_closest_freq_delta f <= Qabs (fsub f hint))%Q).
Proof.
  unfold _closest_freq_delta.
  remember (map (fun hint => Qabs (fsub f hint)) RF_FREQ_HINTS_MHZ) as ds eqn:Hds.
  destruct ds as [|d ds]; [discriminate|].
  assert (Hin : forall y, In y (d :: ds) -> exists hint,
                  In hint RF_FREQ_HINTS_MHZ /\ y = Qabs (fsub f hint)).
  { intros y Hy. rewrite Hds in Hy. apply in_map_iff in Hy.
    destruct Hy as [h [<- Hh]]. eauto. }
  destruct (min_list_le ds d) as [Hle1 Hle2]. split.
  - destruct (min_list_in ds d) as [E|E].
    + destruct (Hin d (or_introl eq_refl)) as [h [Hh Hd]].
      exists h. split; [exact Hh|]. rewrite E, Hd. reflexivity.
    + destruct (Hin _ (or_intror E)) as [h [Hh Hd]].
      exists h. split; [exact Hh|]. rewrite Hd. reflexivity.
  - intros h Hh.
    assert (Hy : In (Qabs (fsub f h)) (d :: ds))
      by (rewrite Hds; exact (in_map (fun hint => Qabs (fsub f hint)) _ _ Hh)).
    destruct Hy as [<-|Hy]; [exact Hle1 | now apply Hle2].
Qed.

(** The known bands are multiples of 2 ** -44 between 315 and 5800. *)
Lemma hint_grid (h : Q) :
  In h RF_FREQ_HINTS_MHZ ->
  exists H : Z, (h == inject_Z H * pow2 (-44))%Q /\ (315 <= h <= 5800)%Q.
Proof.
  unfold RF_FREQ_HINTS_MHZ. intros Hin. apply in_map_iff in Hin.
  destruct Hin as [x [<- Hx]]. simpl in Hx.
  repeat (destruct Hx as [<-|Hx];
          [match goal with
           | |- exists H : Z, (b64 ?c == _)%Q /\ _ => exists (Qfloor (b64 c * pow2 44))
           end;
           split; [vm_compute; reflexivity | split; vm_compute; discriminate]|]).
  destruct Hx.
Qed.

(** A double within 36 of a known band differs from it by a double, so
    the subtraction is exact; farther away the rounded difference stays
    above 35. *)
Lemma fsub_hint (x h : Q) :
  In h RF_FREQ_HINTS_MHZ ->
  ((Qabs (b64 x - h) < 36)%Q -> (fsub (b64 x) h == b64 x - h)%Q) /\
  ((36 <= Qabs (b64 x - h))%Q -> (35 < Qabs (fsub (b64 x) h))%Q).
Proof.
  intros Hin. destruct (hint_grid h Hin) as [H [Eh [Hh1 Hh2]]]. split.
  - intros Hlt. unfold fsub.
    destruct (b64_grid x) as [m [e [Ef [Hm He]]]].
    pose proof Hlt as Hlt'. apply Qabs_Qlt_condition in Hlt'. destruct Hlt' as [Hl1 Hl2].
    assert (Hf : (279 < b64 x)%Q) by lra.
    assert (He44 : -44 <= e).
    { assert (Hle : (b64 x <= pow2 (53 + e))%Q).
      { rewrite Ef, pow2_add, (pow2_Z 53) by lia.
        apply Qmult_le_compat_r; [|apply Qlt_le_weak, pow2_pos].
        rewrite <- Zle_Qle. lia. }
      assert (H8 : (pow2 8 < pow2 (53 + e))%Q).
      { eapply Qlt_le_trans; [|exact Hle]. eapply Qlt_trans; [|exact Hf]. reflexivity. }
      apply pow2_lt_inv in H8. lia. }
    set (K := m * 2 ^ (e + 44) - H).
    assert (EK : (b64 x - h == inject_Z K * pow2 (-44))%Q).
    { unfold K. rewrite Ef, Eh. unfold Zminus.
      rewrite inject_Z_plus, inject_Z_opp, inject_Z_mult, <- pow2_Z by lia.
      replace e with (e + 44 + -44) at 1 by lia. rewrite (pow2_add (e + 44)). ring. }
    apply (b64_exact _ K (-44)); [exact EK | | lia].
    rewrite EK, Qabs_Qmult, (Qabs_pos (pow2 (-44))) in Hlt by apply Qlt_le_weak, pow2_pos.
    change (Qabs (inject_Z K)) with (inject_Z (Z.abs K)) in Hlt.
    assert (HK : (inject_Z (Z.abs K) < inject_Z (36 * 2 ^ 44))%Q).
    { apply (Qmult_lt_r _ _ (pow2 (-44)) (pow2_pos _)).
      eapply Qlt_le_trans; [exact Hlt|]. vm_compute. discriminate. }
    rewrite <- Zlt_Qlt in HK. eapply Z.lt_trans; [exact HK|]. reflexivity.
  - intros Hge. unfold fsub.
    pose proof (b64_close (b64 x - h)) as Hc.
    pose proof (Qabs_triangle_reverse (b64 x - h) (b64 (b64 x - h))) as Ht.
    rewrite (Qabs_Qminus (b64 x - h)) in Ht.
    revert Hge Hc Ht.
    generalize (Qabs (b64 (b64 x - h) - (b64 x - h))) (Qabs (b64 (b64 x - h)))
               (Qabs (b64 x - h)).
    intros d B a Hge Hc Ht. lra.
Qed.

(** The delta of the detector against the exact distance to the nearest
    band: they agree up to 35, and beyond 35 both are. *)
Lemma closest_freq_delta_exact (x delta : Q) :
  Spec.is_min_distance (b64 x) delta ->
  ((delta <= 35)%Q -> (_closest_freq_delta (b64 x) == delta)%Q) /\
  ((35 < delta)%Q -> (35 < _closest_freq_delta (b64 x))%Q).
Proof.
  intros [[h0 [Hh0 E0]] Hmin].
  destruct (closest_freq_delta_least (b64 x)) as [[h1 [Hh1 E1]] Hleast].
  destruct (fsub_hint x h1 Hh1) as [Hnear1 Hfar1].
  split.
  - intros Hle. destruct (fsub_hint x h0 Hh0) as [Hnear0 _].
    assert (E0' : (Qabs (fsub (b64 x) h0) == delta)%Q).
    { rewrite Hnear0; [symmetry; exact E0|]. rewrite <- E0. lra. }
    apply Qle_antisym.
    + rewrite <- E0'. now apply Hleast.
    + rewrite E1. destruct (Qlt_le_dec (Qabs (b64 x - h1)) 36) as [Hn|Hf].
      * rewrite (Hnear1 Hn). now apply Hmin.
      * specialize (Hfar1 Hf). lra.
  - intros Hgt. rewrite E1. destruct (Qlt_le_dec (Qabs (b64 x - h1)) 36) as [Hn|Hf].
    + rewrite (Hnear1 Hn). eapply Qlt_le_trans; [exact Hgt | now apply Hmin].
    + exact (Hfar1 Hf).
Qed.

(** A delta of at most 35 is the exact distance to one of the bands. *)
Lemma closest_freq_delta_hint (x : Q) :
  (_closest_freq_delta (b64 x) <= 35)%Q ->
  exists hint, In hint RF_FREQ_HINTS_MHZ /\
               (_closest_freq_delta (b64 x) == Qabs (b64 x - hint))%Q.
Proof.
  intros Hle. destruct (closest_freq_delta_least (b64 x)) as [[h [Hh E]] _].
  destruct (fsub_hint x h Hh) as [Hnear Hfar].
  exists h. split; [exact Hh|]. rewrite E.
  destruct (Qlt_le_dec (Qabs (b64 x - h)) 36) as [Hn|Hf].
  - rewrite (Hnear Hn). reflexivity.
  - specialize (Hfar Hf). rewrite E in Hle. lra.
Qed.

Lemma closest_freq_delta_nonneg (f : Q) : (0 <= _closest_freq_delta f)%Q.
Proof.
  destruct (closest_freq_delta_least f) as [[h [_ E]] _]. rewrite E. apply Qabs_nonneg.
Qed.

Lemma min_distance_nonneg (f d : Q) : Spec.is_min_distance f d -> (0 <= d)%Q.
Proof. intros [[h [_ E]] _]. rewrite E. apply Qabs_nonneg. Qed.

(** The score on doubles lies within 10 ** -14 of the exact one. *)
Lemma rf_score_close (delta : Q) :
  (0 <= delta <= 35)%Q ->
  (Qabs (fsub (b64 0.85) (fdiv delta 100) - (0.85 - delta / 100))
   <= 1 # 100000000000000)%Q.
Proof.
  intros [H0 H35]. unfold fsub, fdiv.
  assert (Ht : (0 <= delta / 100 <= 35 # 100)%Q).
  { assert (E : (delta / 100 == delta * (1 # 100))%Q) by reflexivity.
    rewrite E. split; lra. }
  clear H0 H35. revert Ht. generalize (delta / 100)%Q. intros t [Ht0 Ht1].
  pose proof (b64_close 0.85) as Hc. change (Qabs 0.85) with 0.85%Q in Hc.
  pose proof (b64_close t) as Hq. rewrite (Qabs_pos t Ht0) in Hq.
  pose proof (b64_close (b64 0.85 - b64 t)) as Hz.
  apply Qabs_Qle_condition in Hc, Hq.
  assert (Ha : (Qabs (b64 0.85 - b64 t) <= 2)%Q).
  { apply Qabs_Qle_condition. revert Hc Hq. generalize (b64 0.85) (b64 t). intros. lra. }
  apply Qabs_Qle_condition in Hz. apply Qabs_Qle_condition.
  revert Hc Hq Hz Ha.
  generalize (Qabs (b64 0.85 - b64 t)) (b64 (b64 0.85 - b64 t)) (b64 0.85) (b64 t).
  intros. lra.
Qed.

Context `{RT : Runtime}.

Lemma first_in_band_double (candidates : list value) (f : Q) :
  first_in_band candidates = Frequency f -> exists x, f = b64 x.
Proof.
  induction candidates as [|v more IH]; simpl; [discriminate|].
  destruct (is_none v); [exact IH|].
  destruct (float_raises v); [discriminate|].
  destruct (float64 v) as [f0|]; [|exact IH].
  destruct (fle 1 _ && fle _ 7000); [|exact IH].
  intros [= <-]. eexists. reflexivity.
Qed.

(** The frequency the extraction returns is a double. *)
Lemma extracted_is_double (event : value) (f : Q) :
  _extract_frequency_mhz event = Some f -> exists x, f = b64 x.
Proof.
  unfold _extract_frequency_mhz, extract_frequency.
  destruct event as [| | | | | |e]; try discriminate.
  cbv zeta. destruct (dict_mem "frequency_hz" e && float_raises _); [discriminate|].
  destruct (first_in_band _) as [| |g] eqn:E; [discriminate| |].
  - destruct (mhz_search _) as [g|]; [|discriminate].
    intros [= <-]. eexists. reflexivity.
  - intros [= <-]. exact (first_in_band_double _ _ E).
Qed.

(** The rounded score of an accepted delta. *)
Lemma rf_score_bounds (delta : Q) :
  (0 <= delta <= 35)%Q ->
  (0.5 <= round3 (fmax 0.5 (fsub (b64 0.85) (fdiv delta 100))) <= 0.85)%Q.
Proof.
  intros Hd. pose proof (rf_score_close delta Hd) as Hc.
  apply Qabs_Qle_condition in Hc. destruct Hc as [_ Hc].
  assert (He : (0.85 - delta / 100 <= 0.85)%Q).
  { assert (E : (delta / 100 == delta * (1 # 100))%Q) by reflexivity.
    rewrite E. lra. }
  revert He Hc. generalize (0.85 - delta / 100)%Q (fsub (b64 0.85) (fdiv delta 100)).
  intros e s He Hc. set (score := fmax 0.5 s).
  assert (Hlo : (0.5 <= score)%Q).
  { unfold score. rewrite fmax_eq. apply Q.le_max_l. }
  assert (Hhi : (score <= 0.8501)%Q).
  { unfold score. rewrite fmax_eq. apply Q.max_lub; [discriminate | lra]. }
  assert (H1 : 500 <= round_half_even (score * 1000)).
  { apply round_half_even_ge. change (inject_Z 500) with 500%Q.
    clearbody score. clear - Hlo. lra. }
  assert (H2 : round_half_even (score * 1000) <= 850).
  { apply round_half_even_lt_half. change (inject_Z 850) with 850%Q.
    clearbody score. clear - Hhi. lra. }
  unfold round3, Qle. simpl. lia.
Qed.

Lemma fmin_one (r : Q) : (r <= 0.85)%Q -> fmin 1 r = r.
Proof.
  intros H. unfold fmin. destruct (Qlt_le_dec r 1) as [_|Hge]; [reflexivity|].
  exfalso. lra.
Qed.

(** The confidence the detector computes from its delta is the formula
    of the spec carried out on doubles, and within 0.001 of the formula
    carried out exactly. *)
Lemma rf_score_rounding (delta' delta : Q) :
  (delta' == delta)%Q -> (0 <= delta <= 35)%Q ->
  fmin 1 (round3 (fmax 0.5 (fsub (b64 0.85) (fdiv delta' 100)))) =
    Spec.rf_confidence_double delta /\
  (Qabs (Spec.rf_confidence_double delta - Spec.rf_confidence delta) <= 0.001)%Q.
Proof.
  intros Hd Hr.
  assert (Hr' : (0 <= delta' <= 35)%Q) by (rewrite Hd; exact Hr).
  pose proof (rf_score_bounds delta' Hr') as Hb.
  assert (Es : (fsub (b64 0.85) (fdiv delta' 100) == fsub (b64 0.85) (fdiv delta 100))%Q).
  { unfold fsub, fdiv. apply b64_comp.
    assert (Eq : (b64 (delta' / 100) == b64 (delta / 100))%Q)
      by (apply b64_comp; rewrite Hd; reflexivity).
    rewrite Eq. reflexivity. }
  pose proof (rf_score_close delta Hr) as Hc.
  assert (He : (0.5 <= 0.85 - delta / 100 + 0.35 /\ 0.85 - delta / 100 <= 0.85)%Q).
  { assert (E : (delta / 100 == delta * (1 # 100))%Q) by reflexivity.
    rewrite E. split; lra. }
  unfold Spec.rf_confidence_double, Spec.rf_confidence.
  revert Hb Es Hc He.
  generalize (fsub (b64 0.85) (fdiv delta' 100)) (fsub (b64 0.85) (fdiv delta 100))
             (0.85 - delta / 100)%Q.
  intros s' s e Hb Es Hc [_ He].
  apply Qabs_Qle_condition in Hc.
  assert (Hmax : (Qmax 0.5 s <= 0.8501)%Q) by (apply Q.max_lub; [discriminate | lra]).
  assert (Hmaxe : (Qmax 0.5 e <= 0.85)%Q) by (apply Q.max_lub; [discriminate | lra]).
  assert (E1 : (fmax 0.5 s' == Qmin 1 (Qmax 0.5 s))%Q).
  { rewrite fmax_eq, Es. symmetry. apply Q.min_r. lra. }
  assert (E2 : (Qmin 1 (Qmax 0.5 e) == Qmax 0.5 e)%Q) by (apply Q.min_r; lra).
  assert (E3 : (Qmin 1 (Qmax 0.5 s) == Qmax 0.5 s)%Q) by (apply Q.min_r; lra).
  split.
  - rewrite (fmin_one _ (proj2 Hb)). apply round3_comp. exact E1.
  - change 0.001%Q with (1 # 1000)%Q. apply round3_near. rewrite E2, E3.
    apply Qabs_Qlt_condition.
    destruct (Q.max_spec 0.5 s) as [[Hs ->]|[Hs ->]];
      destruct (Q.max_spec 0.5 e) as [[Hm ->]|[Hm ->]]; split; lra.
Qed.

(** C8: for an RF event with extracted frequency f and delta the minimum
    distance from f to the known bands, the RF detector emits nothing
    when delta > 35, and otherwise exactly one detection, of source rf
    and classification rf_drone_link_activity; its confidence is
    min(1.0, max(0.5, 0.85 - delta/100)) rounded to 3 decimals with the
    quotient and the difference taken on doubles, which is within 0.001
    of the value of the formula. *)
Theorem rf_detection_confidence (event : value) (f delta : Q) :
  _extract_frequency_mhz event = Some f ->
  Spec.is_min_distance f delta ->
  ((35 < delta)%Q -> _detect_rf event = []) /\
  ((delta <= 35)%Q ->
   exists d, _detect_rf event = [d] /\
             source d = "rf" /\
             classification d = "rf_drone_link_activity" /\
             det_confidence d = Spec.rf_confidence_double delta /\
             (Qabs (det_confidence d - Spec.rf_confidence delta) <= 0.001)%Q).
Proof.
  intros Hf Hmin.
  destruct (extracted_is_double event f Hf) as [x ->].
  destruct (closest_freq_delta_exact x delta Hmin) as [Hnear Hfar].
  pose proof (min_distance_nonneg _ _ Hmin) as Hpos.
  unfold _detect_rf. destruct event as [| | | | | |e]; try discriminate.
  rewrite Hf. split.
  - intros Hgt. apply Hfar, flt_lt in Hgt. rewrite Hgt. reflexivity.
  - intros Hle. pose proof (Hnear Hle) as Hd.
    assert (Hge : flt 35 (_closest_freq_delta (b64 x)) = false)
      by (apply flt_ge; rewrite Hd; exact Hle).
    rewrite Hge.
    eexists. split; [reflexivity|]. cbn [source classification det_confidence].
    split; [reflexivity|]. split; [reflexivity|].
    destruct (rf_score_rounding _ _ Hd (conj Hpos Hle)) as [E1 E2].
    rewrite E1. split; [reflexivity | exact E2].
Qed.

End RfDetector.

(** The band match of the spec: 868.5 MHz lies 0.5 MHz from the 868 MHz
    band and is detected with confidence 0.845. *)
Lemma rf_detection_confidence_witness :
  exists d,
    @Detector._detect_rf example_runtime
      (Py.PyDict [("capture_id", Py.PyStr "cap-1"); ("frequency_mhz", Py.PyFloat 868.5)]%string)
      = [d] /\
    Detector.classification d = "rf_drone_link_activity"%string /\
    (Detector.det_confidence d == 0.845)%Q.
Proof.
  assert (Hf : exists f,
             @Detector._extract_frequency_mhz example_runtime
               (Py.PyDict [("capture_id", Py.PyStr "cap-1");
                           ("frequency_mhz", Py.PyFloat 868.5)]%string) = Some f /\
             (f == 868.5)%Q).
  { eexists. split; [vm_compute; reflexivity | vm_compute; reflexivity]. }
  destruct Hf as [f [Hf Ef]].
  assert (Hmin : Spec.is_min_distance f 0.5).
  { split.
    - exists (Py.b64 868.0). split; [right; right; left; reflexivity|].
      rewrite Ef. vm_compute. reflexivity.
    - intros h Hh. rewrite Ef. unfold Detector.RF_FREQ_HINTS_MHZ in Hh.
      apply in_map_iff in Hh. destruct Hh as [c [<- Hc]]. simpl in Hc.
      repeat (destruct Hc as [<-|Hc]; [vm_compute; discriminate|]). destruct Hc. }
  destruct (proj2 (@rf_detection_confidence example_runtime _ f 0.5 Hf Hmin))
    as [d [Hd [_ [Hc [Hconf _]]]]]; [vm_compute; discriminate|].
  exists d. split; [exact Hd|]. split; [exact Hc|]. rewrite Hconf.
  vm_compute. reflexivity.
Defined.

(** Where the formula and the detector part: at 919.25 MHz, 4.25 MHz
    from the 915 MHz band, the formula gives 0.8075, which rounds to
    0.808; the double nearest to 0.85 - 0.0425 lies below 0.8075, and
    the detector reports 0.807. *)
Lemma rf_confidence_below_formula :
  exists f d,
    @Detector._extract_frequency_mhz example_runtime tie_event = Some f /\
    (f == 919.25)%Q /\
    Spec.is_min_distance f 4.25 /\
    @Detector._detect_rf example_runtime tie_event = [d] /\
    (Detector.det_confidence d == 0.807)%Q /\
    (0.85 - 4.25 / 100 == 0.8075)%Q /\
    (Spec.rf_confidence 4.25 == 0.808)%Q.
Proof.
  eexists. eexists.
  split; [vm_compute; reflexivity|]. split; [vm_compute; reflexivity|].
  split.
  { split.
    - exists (Py.b64 915.0). split; [right; right; right; left; reflexivity|].
      vm_compute. reflexivity.
    - intros h Hh. unfold Detector.RF_FREQ_HINTS_MHZ in Hh.
      apply in_map_iff in Hh. destruct Hh as [c [<- Hc]]. simpl in Hc.
      repeat (destruct Hc as [<-|Hc]; [vm_compute; discriminate|]). destruct Hc. }
  split; [vm_compute; reflexivity|].
  split; [vm_compute; reflexivity|]. split; vm_compute; reflexivity.
Qed.

Section WifiDetector.
Import PyStr Py RemoteId Detector.
Local Open Scope string_scope.

Context `{RT : Runtime}.

Lemma detect_wifi_cases (event : value) :
  _detect_wifi event = [] \/
  exists network d,
    _extract_wifi_event event = Some network /\
    _detect_wifi event = [d] /\
    (0.5 <= w_score (wifi_locals network))%Q /\
    source d = "wifi" /\
    identifier d =
      (if PyStr.truthy (w_bssid (wifi_locals network))
       then w_bssid (wifi_locals network) else w_ssid (wifi_locals network)) /\
    det_confidence d = fmin 1 (round3 (w_score (wifi_locals network))).
Proof.
  unfold _detect_wifi.
  destruct (_extract_wifi_event event) as [[|kv network]|];
    [left; reflexivity| |left; reflexivity].
  cbv zeta. set (w := wifi_locals (kv :: network)).
  destruct (negb (PyStr.truthy (if PyStr.truthy (w_bssid w) then w_bssid w else w_ssid w)));
    [left; reflexivity|].
  destruct (flt (w_score w) 0.5) eqn:E; [left; reflexivity|].
  right. eexists. eexists. split; [reflexivity|]. split; [reflexivity|].
  split; [now apply flt_ge|]. repeat split.
Qed.

(** C9: the WiFi detector emits a detection only when its score is at
    least 0.5, and the identifier of the detection is the BSSID when
    there is one and the SSID otherwise; for mode wifi and the event
    with bssid 60:60:1F:AA:BB:CC and ssid DJI-OPS-TEST, detect_from_event
    returns exactly one detection, of source wifi, classification
    wifi_drone_signature and confidence at least 0.9. *)
Theorem wifi_detection_threshold (event_type : value) :
  (forall event d,
     In d (_detect_wifi event) ->
     exists network,
       _extract_wifi_event event = Some network /\
       _detect_wifi event = [d] /\
       (0.5 <= w_score (wifi_locals network))%Q /\
       identifier d =
         (if PyStr.truthy (w_bssid (wifi_locals network))
          then w_bssid (wifi_locals network) else w_ssid (wifi_locals network))) /\
  (exists d,
     detect_from_event (PyStr "wifi") dji_event event_type = Some [d] /\
     source d = "wifi" /\
     identifier d = "60:60:1F:AA:BB:CC" /\
     classification d = "wifi_drone_signature" /\
     (0.9 <= det_confidence d)%Q).
Proof.
  split.
  - intros event d Hin.
    destruct (detect_wifi_cases event) as [E|[network [d' [He [E [Hs [_ [Hi _]]]]]]]].
    + rewrite E in Hin. destruct Hin.
    + rewrite E in Hin. destruct Hin as [<-|[]]. exists network. auto.
  - eexists. split; [vm_compute; reflexivity|]. cbn [source identifier classification det_confidence].
    repeat split. vm_compute. discriminate.
Qed.

End WifiDetector.

Lemma wifi_detection_threshold_witness :
  exists d,
    @Detector._detect_wifi example_runtime dji_event = [d] /\
    (0.5 <= Detector.w_score
              (@Detector.wifi_locals example_runtime
                 [("bssid", Py.PyStr "60:60:1F:AA:BB:CC"); ("ssid", Py.PyStr "DJI-OPS-TEST")]%string))%Q /\
    Detector.identifier d = "60:60:1F:AA:BB:CC"%string.
Proof.
  destruct (@Detector._detect_wifi example_runtime dji_event) as [|d l] eqn:E;
    [vm_compute in E; discriminate|].
  destruct (proj1 (@wifi_detection_threshold example_runtime Py.PyNone) dji_event d)
    as [network [He [Hd [Hs Hi]]]]; [rewrite E; left; reflexivity|].
  vm_compute in He. injection He as <-.
  exists d. split; [rewrite <- E; exact Hd|]. split; [exact Hs|].
  rewrite Hi. reflexivity.
Defined.

Section CanonicalJson.
Import Py Json.

Lemma ltb_leb (a b : string) : String.ltb a b = true -> String.leb a b = true.
Proof. unfold String.ltb, String.leb. destruct (String.compare a b); congruence. Qed.

Lemma not_ltb_leb (a b : string) : String.ltb a b = false -> String.leb b a = true.
Proof.
  unfold String.ltb, String.leb. rewrite (String.compare_antisym b a).
  destruct (String.compare a b); simpl; congruence.
Qed.

Lemma insert_item_head (kv : string * string) (l : list (string * string)) (x : string * string) :
  key_le x kv -> HdRel key_le x l -> HdRel key_le x (insert_item kv l).
Proof.
  intros Hx Hl. destruct l as [|y l]; simpl; [now constructor|].
  destruct (String.ltb (fst kv) (fst y)); constructor; [exact Hx|].
  now inversion Hl.
Qed.

Lemma insert_item_sorted (kv : string * string) (l : list (string * string)) :
  Sorted key_le l -> Sorted key_le (insert_item kv l).
Proof.
  induction 1 as [|y l Hs IH Hhd]; simpl; [repeat constructor|].
  destruct (String.ltb (fst kv) (fst y)) eqn:E.
  - constructor; [now constructor|]. constructor. now apply ltb_leb.
  - constructor; [exact IH|]. apply insert_item_head; [|exact Hhd].
    now apply not_ltb_leb.
Qed.

(** The keys of an object are written in lexicographic order. *)
Lemma sort_items_sorted (l : list (string * string)) : Sorted key_le (sort_items l).
Proof.
  induction l as [|kv l IH]; simpl; [constructor|]. now apply insert_item_sorted.
Qed.

Lemma insert_item_perm (kv : string * string) (l : list (string * string)) :
  Permutation (insert_item kv l) (kv :: l).
Proof.
  induction l as [|y l IH]; simpl; [reflexivity|].
  destruct (String.ltb (fst kv) (fst y)); [reflexivity|].
  rewrite IH. apply perm_swap.
Qed.

(** Sorting neither drops nor adds an item. *)
Lemma sort_items_perm (l : list (string * string)) : Permutation (sort_items l) l.
Proof.
  induction l as [|kv l IH]; simpl; [reflexivity|].
  rewrite insert_item_perm. now constructor.
Qed.

End CanonicalJson.

Section EvidenceManifest.
Import PyStr Py Evidence.
Local Open Scope string_scope.

Lemma hex_digit_is_hex (n : N) : (n < 16)%N -> is_hex (Json.hex_digit n) = true.
Proof.
  intros H. destruct n as [|p]; [reflexivity|].
  do 4 (try destruct p as [p|p|]); try reflexivity; lia.
Qed.

Lemma hex_word_chars (x : Z) :
  String.length (Sha256.hex_word x) = 8%nat /\
  Forall (fun c => is_hex c = true) (list_ascii_of_string (Sha256.hex_word x)).
Proof.
  unfold Sha256.hex_word. cbn [rev seq app fold_right]. split; [reflexivity|].
  cbn [list_ascii_of_string].
  repeat (constructor;
          [apply hex_digit_is_hex;
           match goal with |- (Z.to_N (?a mod 16) < 16)%N =>
             pose proof (Z.mod_pos_bound a 16 eq_refl); lia end|]).
  constructor.
Qed.

Lemma string_length_app (a b : string) :
  String.length (a ++ b) = (String.length a + String.length b)%nat.
Proof. induction a as [|c a IH]; simpl; [reflexivity|]. now rewrite IH. Qed.

Lemma list_ascii_app (a b : string) :
  list_ascii_of_string (a ++ b) = (list_ascii_of_string a ++ list_ascii_of_string b)%list.
Proof. induction a as [|c a IH]; simpl; [reflexivity|]. now rewrite IH. Qed.

(** A digest is 64 characters, each one of 0-9 and a-f. *)
Lemma hexdigest_chars (msg : list Z) :
  String.length (Sha256.hexdigest msg) = 64%nat /\
  Forall (fun c => is_hex c = true) (list_ascii_of_string (Sha256.hexdigest msg)).
Proof.
  unfold Sha256.hexdigest. generalize (Sha256.digest msg). intros r.
  rewrite !string_length_app, !list_ascii_app.
  pose proof (hex_word_chars (Sha256.ra r)) as [La Ha].
  pose proof (hex_word_chars (Sha256.rb r)) as [Lb Hb].
  pose proof (hex_word_chars (Sha256.rc r)) as [Lc Hc].
  pose proof (hex_word_chars (Sha256.rd r)) as [Ld Hd].
  pose proof (hex_word_chars (Sha256.re r)) as [Le He].
  pose proof (hex_word_chars (Sha256.rf r)) as [Lf Hf].
  pose proof (hex_word_chars (Sha256.rg r)) as [Lg Hg].
  pose proof (hex_word_chars (Sha256.rh r)) as [Lh Hh].
  split; [lia|]. repeat (apply Forall_app; split); assumption.
Qed.

Lemma dict_set_fresh (k : string) (v : value) (d : dict) :
  dict_get k d = None ->
  dict_get k (dict_set k v d) = Some v /\ dict_remove k (dict_set k v d) = d.
Proof.
  induction d as [|[k' v'] d IH]; simpl.
  - intros _. rewrite !String.eqb_refl. now split.
  - destruct (String.eqb k k') eqn:E; [discriminate|]. intros H.
    simpl. rewrite E. destruct (IH H) as [H1 H2]. rewrite H2. now split.
Qed.

Section Manifest.
Context `{RT : Runtime}.
Variable get_drone_incident : Z -> option dict.
Variable list_action_requests : Z -> list dict.
Variable list_action_audit_logs : value -> list dict.

Lemma manifest_core_no_integrity generated_at incident requests audit core :
  manifest_core generated_at incident requests audit = Returned core ->
  dict_get "integrity" core = None.
Proof.
  unfold manifest_core, bind, item.
  repeat match goal with
         | |- context [match dict_get ?k incident with _ => _ end] =>
             destruct (dict_get k incident); try discriminate
         end.
  all: destruct (len _); [|discriminate].
  all: intros H; injection H as <-; reflexivity.
Qed.

(** C6: the digest stored in a manifest that generate_evidence_manifest
    produces is the SHA-256 hex digest, 64 hexadecimal characters, of the
    UTF-8 bytes of the canonical JSON serialization (keys sorted,
    separators , and : with no white space) of the manifest without its
    integrity field. *)
Theorem manifest_digest_is_sha256 (generated_at : string) (incident_id : Z)
    (creator : string) (sig : option string) (stored : evidence_row) :
  generate_evidence_manifest get_drone_incident list_action_requests
    list_action_audit_logs generated_at incident_id creator sig = Returned (Some stored) ->
  exists digest,
    dict_get "integrity" (manifest stored) =
      Some (PyDict [("algorithm", PyStr "sha256"); ("digest", PyStr digest)]) /\
    digest = Sha256.hexdigest
               (Json.encode_utf8
                  (Json.dumps (PyDict (dict_remove "integrity" (manifest stored))))) /\
    String.length digest = 64%nat /\
    Forall (fun c => is_hex c = true) (list_ascii_of_string digest) /\
    hash_algo stored = "sha256".
Proof.
  unfold generate_evidence_manifest, persist, bind.
  destruct (get_drone_incident incident_id) as [[|kv incident]|]; try discriminate.
  destruct (all_items "id" _) as [ids|]; [|discriminate].
  destruct (manifest_core _ _ _ _) as [core|] eqn:Hcore; [|discriminate].
  set (digest := sha256_hex (Json.dumps (PyDict core))).
  intros H. injection H as <-. cbn [manifest hash_algo].
  apply manifest_core_no_integrity in Hcore.
  destruct (dict_set_fresh "integrity"
              (PyDict [("algorithm", PyStr "sha256"); ("digest", PyStr digest)])
              core Hcore) as [Hget Hrem].
  exists digest. split; [exact Hget|]. rewrite Hrem.
  split; [reflexivity|]. unfold digest, sha256_hex.
  destruct (hexdigest_chars (Json.encode_utf8 (Json.dumps (PyDict core)))) as [Hl Hh].
  split; [exact Hl|]. split; [exact Hh|reflexivity].
Qed.

End Manifest.

Lemma manifest_digest_is_sha256_witness :
  exists stored digest,
    sample_manifest = Returned (Some stored) /\
    dict_get "integrity" (manifest stored) =
      Some (PyDict [("algorithm", PyStr "sha256"); ("digest", PyStr digest)]) /\
    String.length digest = 64%nat.
Proof.
  assert (E : exists stored, sample_manifest = Returned (Some stored))
    by (eexists; vm_compute; reflexivity).
  destruct E as [stored E]. exists stored.
  destruct (@manifest_digest_is_sha256 example_runtime _ _ _ _ _ _ _ stored E)
    as [digest [Hget [_ [Hlen _]]]].
  exists digest. split; [exact E|]. split; [exact Hget | exact Hlen].
Defined.

(** The digest of the sample, as hashlib and json compute it. *)
Example sample_manifest_digest :
  match sample_manifest with
  | Returned (Some stored) => dict_get "integrity" (manifest stored)
  | _ => None
  end =
  Some (PyDict [("algorithm", PyStr "sha256");
                ("digest",
                 PyStr "befefed1caa2c713dd28b39da0c47e0ce2312fffe1fa73224e5d117ff3c7cfa9")]).
Proof. vm_compute. reflexivity. Qed.

End EvidenceManifest.

(** ** The repository's tests, evaluated on the embedding *)

Section RepositoryTests.
Import PyStr Py RemoteId Store Service.
Local Open Scope string_scope.

(** tests/test_drone_ops_remote_id.py, dictionary payload *)
Example test_decode_remote_id_from_dict_payload :
  let decoded :=
    @decode_remote_id_payload example_runtime
      (Value (PyDict [("remote_id",
                       PyDict [("uas_id", PyStr "UAS-001"); ("operator_id", PyStr "OP-007");
                               ("lat", PyFloat 37.7749); ("lon", PyFloat (-122.4194));
                               ("altitude_m", PyFloat 121.5); ("speed_mps", PyFloat 12.3);
                               ("heading_deg", PyFloat 270.0)])])) in
  detected decoded = true /\ source_format decoded = "dict" /\
  uas_id decoded = Some "UAS-001" /\ operator_id decoded = Some "OP-007" /\
  lat decoded = Some 37.7749%Q /\ altitude_m decoded = Some 121.5%Q /\
  (confidence decoded == 1)%Q.
Proof. vm_compute. repeat split. Qed.

(** tests/test_drone_ops_remote_id.py, opaque text *)
Example test_decode_remote_id_from_raw_text_is_not_detected :
  let decoded :=
    @decode_remote_id_payload example_runtime (Value (PyStr "not-a-remote-id-payload")) in
  detected decoded = false /\ source_format decoded = "raw" /\
  uas_id decoded = None /\ operator_id decoded = None /\
  raw decoded = [("raw", PyStr "not-a-remote-id-payload")].
Proof. vm_compute. repeat split. Qed.

(** tests/test_drone_ops_policy.py *)
Example test_required_approvals_policy_helper :
  Policy.required_approvals_for_action (Some "passive_scan") = 1 /\
  Policy.required_approvals_for_action (Some "wifi_deauth_test") = 2.
Proof. split; reflexivity. Qed.

Example test_service_arm_disarm_policy_state :
  let '(s1, st) := arm_actions initial 1000 1000 "operator-1" "controlled testing" 42 (Some 5) in
  let '(_, st') := disarm_actions s1 1001 "operator-1" (Some "test complete") in
  armed st = true /\ armed_by st = Some "operator-1" /\
  arm_reason st = Some "controlled testing" /\ arm_incident_id st = Some 42 /\
  armed_until st = Some (1000 + 60)%Q /\
  armed st' = false /\ armed_by st' = None /\ arm_reason st' = None /\
  arm_incident_id st' = None.
Proof. vm_compute. repeat split. Qed.

(** tests/test_drone_ops_routes.py: execution needs arming and two
    approvals (the third scenario of the spec). *)
Example test_action_execution_requires_arming_and_two_approvals :
  let s1 := fst (request_action initial 7 "wifi_deauth_test" "op1"
                   (Some [("target", PyStr "aa:bb:cc:dd:ee:ff")])) in
  let e1 := execute_action s1 999 1 "op1" in
  let s2 := fst (arm_actions (fst e1) 1000 1000 "op1" "controlled test" 7 None) in
  let e2 := execute_action s2 1001 1 "op1" in
  let a1 := approve_action (fst e2) 1 "supervisor-a" "approved" None in
  let e3 := execute_action (fst a1) 1002 1 "op1" in
  let a2 := approve_action (fst e3) 1 "supervisor-b" "approved" None in
  let e4 := execute_action (fst a2) 1003 1 "op1" in
  snd e1 = (None, Some "Action plane is not armed") /\
  snd e2 = (None, Some "Insufficient approvals (0/2)") /\
  status_of (fst a1) 1 = Some pending /\
  snd e3 = (None, Some "Insufficient approvals (1/2)") /\
  status_of (fst a2) 1 = Some approved /\
  snd (snd e4) = None /\ status_of (fst e4) 1 = Some executed /\
  map event_type (action_audit_log (store (fst e4))) =
    ["requested"; "approval"; "approval"; "executed"].
Proof. vm_compute. repeat split. Qed.

(** tests/test_drone_ops_routes.py: a passive action needs one approval. *)
Example test_passive_action_executes_after_single_approval :
  status_of scenario_approved 1 = Some approved /\
  status_of scenario_executed 1 = Some executed.
Proof. vm_compute. repeat split. Qed.

End RepositoryTests.

(** ** Checks of the embedded library functions *)

Section LibraryChecks.
Import Py.
Local Open Scope string_scope.

(** FIPS 180-4 test vectors: the empty message, one block, two blocks. *)
Example sha256_empty :
  Sha256.hexdigest [] =
  "e3b0c44298fc1c149afbf4c8996fb92427ae41e4649b934ca495991b7852b855".
Proof. vm_compute. reflexivity. Qed.

Example sha256_abc :
  Sha256.hexdigest (Json.encode_utf8 "abc") =
  "ba7816bf8f01cfea414140de5dae2223b00361a396177a9cb410ff61f20015ad".
Proof. vm_compute. reflexivity. Qed.

Example sha256_two_blocks :
  Sha256.hexdigest
    (Json.encode_utf8 "abcdbcdecdefdefgefghfghighijhijkijkljklmklmnlmnomnopnopq") =
  "248d6a61d20638b8e5c026930c3e6039a33ce45964ff2167f6ecedd419db06c1".
Proof. vm_compute. reflexivity. Qed.

(** The first round constant and the first word of the initial hash. *)
Example sha256_constants :
  nth 0 Sha256.K 0 = 0x428a2f98 /\ nth 63 Sha256.K 0 = 0xc67178f2 /\
  Sha256.ra Sha256.H0 = 0x6a09e667 /\ Sha256.rh Sha256.H0 = 0x5be0cd19.
Proof. repeat split. Qed.

(** Keys come out sorted at every level, with no white space; control
    characters and characters above the ASCII range are escaped. *)
Example dumps_sorts_and_escapes :
  @Json.dumps example_runtime
    (PyDict [ ("b", PyInt (-5));
              ("a", PyList [PyNone; PyBool true;
                            PyStr (String (ascii_of_N 9) (String (ascii_of_N 233) "~ "))]);
              ("c", PyDict [("z", PyInt 0); ("y", PyStr "")]);
              ("B", PyDict []) ]) =
  String.concat ""
    [ "{"; Json.quote "B"; ":{},"; Json.quote "a"; ":[null,true,";
      String Json.dquote (String Json.backslash "t");
      String Json.backslash "u00e9~ "; String Json.dquote "],";
      Json.quote "b"; ":-5,"; Json.quote "c"; ":{"; Json.quote "y"; ":";
      String Json.dquote (String Json.dquote ","); Json.quote "z"; ":0}}" ].
Proof. vm_compute. reflexivity. Qed.

(** Ties go to the even neighbour (0.8125 and 0.4375 are binary fractions). *)
Example round3_ties_to_even :
  (round3 0.8125 == 0.812)%Q /\ (round3 0.4375 == 0.438)%Q /\
  (round3 0.84549 == 0.845)%Q.
Proof. repeat split. Qed.

(** The doubles of the embedding against the IEEE 754 specification of
    the Standard Library: literals as correctly rounded quotients of
    integers, and the quotient and difference of the RF score. *)
Example b64_agrees_with_ieee :
  (Py.b64 0.85 == sf_value (sf_div (sf_of_Z 85) (sf_of_Z 100)))%Q /\
  (Py.b64 433.92 == sf_value (sf_div (sf_of_Z 43392) (sf_of_Z 100)))%Q /\
  (Py.b64 915.15 == sf_value (sf_div (sf_of_Z 91515) (sf_of_Z 100)))%Q /\
  (Py.fdiv 4.25 100 == sf_value (sf_div (sf_div (sf_of_Z 17) (sf_of_Z 4)) (sf_of_Z 100)))%Q /\
  (Py.fsub (Py.b64 0.85) (Py.fdiv 4.25 100) ==
   sf_value (sf_sub (sf_div (sf_of_Z 85) (sf_of_Z 100))
                    (sf_div (sf_div (sf_of_Z 17) (sf_of_Z 4)) (sf_of_Z 100))))%Q /\
  (Py.fsub (Py.b64 915.15) 915 ==
   sf_value (sf_sub (sf_div (sf_of_Z 91515) (sf_of_Z 100)) (sf_of_Z 915)))%Q /\
  (Py.fdiv 2437000000 1000000 ==
   sf_value (sf_div (sf_of_Z 2437000000) (sf_of_Z 1000000)))%Q /\
  (Py.b64 (1 # 3) == sf_value (sf_div (sf_of_Z 1) (sf_of_Z 3)))%Q /\
  (Py.b64 (-2 # 3) == sf_value (sf_div (sf_of_Z (-2)) (sf_of_Z 3)))%Q.
Proof. repeat split; vm_compute; reflexivity. Qed.

(** The confidence of RF captures whose score falls on or beside a tie
    of the rounding to 3 decimals. *)
Example rf_confidence_near_ties :
  map (fun d => Qred (Detector.det_confidence d))
      (flat_map (fun mhz => @Detector._detect_rf example_runtime (rf_capture mhz))
                [915.15; 868.75; 433.97; 919.25; 868.5]%Q)
  = map Qred [0.849; 0.843; 0.849; 0.807; 0.845]%Q.
Proof. vm_compute. reflexivity. Qed.

End LibraryChecks.

(** ** Further properties of the Remote ID decoder *)

Section DecoderFacts.
Import PyStr Py RemoteId.
Local Open Scope string_scope.
Context `{RT : Runtime}.

(** The four answers of [_normalize_input]. *)
Lemma normalize_input_formats (p : payload) :
  (exists d, p = Value (PyDict d) /\ _normalize_input p = (d, "dict")) \/
  _normalize_input p = ([], "empty") \/
  (exists d, _normalize_input p = (d, "json")) \/
  (exists text, _normalize_input p = ([("raw", PyStr text)], "raw")).
Proof.
  destruct p as [v|b].
  - destruct v as [| | | | | |d];
      try (unfold _normalize_input;
           destruct (is_empty _); [right; left; reflexivity|];
           destruct (json_loads _) as [[| | | | | |parsed]|];
           solve [right; right; left; eexists; reflexivity
                 |right; right; right; eexists; reflexivity]).
    left. exists d. split; reflexivity.
  - unfold _normalize_input.
    destruct (is_empty _); [right; left; reflexivity|].
    destruct (json_loads _) as [[| | | | | |parsed]|];
      solve [right; right; left; eexists; reflexivity
            |right; right; right; eexists; reflexivity].
Qed.

(** X1: a payload that is no mapping and whose text does not parse as a
    JSON object (the decoder reports the format raw or empty) is never
    detected: its confidence is 0 and the record carries no identifier,
    position, altitude, speed or heading. *)
Theorem opaque_payload_is_not_detected (p : payload) :
  source_format (decode_remote_id_payload p) = "raw" \/
  source_format (decode_remote_id_payload p) = "empty" ->
  detected (decode_remote_id_payload p) = false /\
  (confidence (decode_remote_id_payload p) == 0)%Q /\
  uas_id (decode_remote_id_payload p) = None /\
  operator_id (decode_remote_id_payload p) = None /\
  lat (decode_remote_id_payload p) = None /\
  lon (decode_remote_id_payload p) = None /\
  altitude_m (decode_remote_id_payload p) = None /\
  speed_mps (decode_remote_id_payload p) = None /\
  heading_deg (decode_remote_id_payload p) = None.
Proof.
  unfold decode_remote_id_payload.
  destruct (normalize_input_formats p) as [[d [_ E]]|[E|[[d E]|[text E]]]]; rewrite E;
    cbn [source_format].
  - intros [|]; discriminate.
  - intros _. vm_compute. repeat split; discriminate.
  - intros [|]; discriminate.
  - intros _. vm_compute. repeat split; discriminate.
Qed.

Lemma strip_idempotent (s : string) : strip (strip s) = strip s.
Proof.
  symmetry. apply trimmed_strip.
  destruct (strip_trimmed s) as [l [r [_ [_ [_ [Hh Hl]]]]]].
  exists "", "". rewrite append_nil_l, append_empty_r. repeat split; assumption.
Qed.

Lemma coerce_float_back (o : option Q) : _coerce_float (opt_float o) = o.
Proof. destruct o; reflexivity. Qed.

Lemma pick_normalized (r : remote_id) :
  _pick (normalized r) DRONE_ID_KEYS ["remote_id"; "message"; "uas"] =
    Detector.opt_str (uas_id r) /\
  _pick (normalized r) OPERATOR_ID_KEYS ["remote_id"; "message"; "operator"] =
    Detector.opt_str (operator_id r) /\
  _pick (normalized r) LAT_KEYS ["remote_id"; "message"; "position"] = opt_float (lat r) /\
  _pick (normalized r) LON_KEYS ["remote_id"; "message"; "position"] = opt_float (lon r) /\
  _pick (normalized r) ALT_KEYS ["remote_id"; "message"; "position"] =
    opt_float (altitude_m r) /\
  _pick (normalized r) SPEED_KEYS ["remote_id"; "message"; "position"] =
    opt_float (speed_mps r) /\
  _pick (normalized r) HEADING_KEYS ["remote_id"; "message"; "position"] =
    opt_float (heading_deg r).
Proof. repeat split; reflexivity. Qed.

(** The identifier a decoded record carries reads back as it is, unless
    it is the empty string. *)
Lemma id_reads_back (v : value) :
  let o := if truthy v then Some (strip (str v)) else None in
  o <> Some "" ->
  truthy (Detector.opt_str o) = truthy v /\
  (if truthy (Detector.opt_str o) then Some (strip (str (Detector.opt_str o))) else None) = o.
Proof.
  cbv zeta. destruct (truthy v); [|split; reflexivity].
  intros Hne. cbn [Detector.opt_str truthy str].
  assert (Ht : PyStr.truthy (strip (str v)) = true).
  { unfold PyStr.truthy. destruct (strip (str v)); [congruence | reflexivity]. }
  rewrite Ht. split; [reflexivity|]. now rewrite strip_idempotent.
Qed.

Lemma decode_assemble (p : payload) :
  decode_remote_id_payload p =
  let position := ["remote_id"; "message"; "position"] in
  assemble (fst (_normalize_input p)) (snd (_normalize_input p))
    (_pick (fst (_normalize_input p)) DRONE_ID_KEYS ["remote_id"; "message"; "uas"])
    (_pick (fst (_normalize_input p)) OPERATOR_ID_KEYS ["remote_id"; "message"; "operator"])
    (_coerce_float (_pick (fst (_normalize_input p)) LAT_KEYS position))
    (_coerce_float (_pick (fst (_normalize_input p)) LON_KEYS position))
    (_coerce_float (_pick (fst (_normalize_input p)) ALT_KEYS position))
    (_coerce_float (_pick (fst (_normalize_input p)) SPEED_KEYS position))
    (_coerce_float (_pick (fst (_normalize_input p)) HEADING_KEYS position)).
Proof.
  unfold decode_remote_id_payload. destruct (_normalize_input p). reflexivity.
Qed.

(** X2: decoding the mapping that the decoder returned gives the same
    identifiers, position, altitude, speed, heading, confidence and
    detected flag again, in format dict, provided that no identifier of
    the record is the empty string (an identifier of white space only is
    kept as the empty string and is lost on the way back). *)
Theorem redecode_is_stable (p : payload) :
  let r := decode_remote_id_payload p in
  let r' := decode_remote_id_payload (Value (PyDict (normalized r))) in
  uas_id r <> Some "" -> operator_id r <> Some "" ->
  source_format r' = "dict" /\
  uas_id r' = uas_id r /\ operator_id r' = operator_id r /\
  lat r' = lat r /\ lon r' = lon r /\ altitude_m r' = altitude_m r /\
  speed_mps r' = speed_mps r /\ heading_deg r' = heading_deg r /\
  confidence r' = confidence r /\ detected r' = detected r.
Proof.
  cbv zeta. rewrite (decode_assemble p). cbv zeta.
  generalize (fst (_normalize_input p)) (snd (_normalize_input p)). intros data fmt.
  generalize (_pick data DRONE_ID_KEYS ["remote_id"; "message"; "uas"]).
  generalize (_pick data OPERATOR_ID_KEYS ["remote_id"; "message"; "operator"]).
  generalize (_coerce_float (_pick data LAT_KEYS ["remote_id"; "message"; "position"])).
  generalize (_coerce_float (_pick data LON_KEYS ["remote_id"; "message"; "position"])).
  generalize (_coerce_float (_pick data ALT_KEYS ["remote_id"; "message"; "position"])).
  generalize (_coerce_float (_pick data SPEED_KEYS ["remote_id"; "message"; "position"])).
  generalize (_coerce_float (_pick data HEADING_KEYS ["remote_id"; "message"; "position"])).
  intros he sp al lo la operator drone.
  set (r := assemble data fmt drone operator la lo al sp he).
  intros Hu Ho.
  rewrite (decode_assemble (Value (PyDict (normalized r)))). cbv zeta.
  change (_normalize_input (Value (PyDict (normalized r)))) with (normalized r, "dict").
  cbn [fst snd].
  destruct (pick_normalized r) as [E1 [E2 [E3 [E4 [E5 [E6 E7]]]]]].
  rewrite E1, E2, E3, E4, E5, E6, E7, !coerce_float_back.
  destruct (id_reads_back drone Hu) as [Htu Hru].
  destruct (id_reads_back operator Ho) as [Hto Hro].
  clear E1 E2 E3 E4 E5 E6 E7. subst r. unfold assemble in *.
  cbn [source_format uas_id operator_id lat lon altitude_m speed_mps heading_deg
       confidence detected] in *.
  rewrite Hru, Hro, Htu, Hto.
  repeat split; reflexivity.
Qed.

Lemma pick_top_some (data : dict) (keys : list string) (k : string) :
  In k keys -> dict_mem k data = true ->
  exists k', In k' keys /\ dict_mem k' data = true /\ pick_top data keys = Some (get k' data).
Proof.
  induction keys as [|k0 keys IH]; intros Hin Hm; [destruct Hin|].
  cbn [pick_top]. destruct (dict_mem k0 data) eqn:E.
  - exists k0. split; [now left|]. auto.
  - destruct Hin as [->|Hin]; [congruence|].
    destruct (IH Hin Hm) as [k' [Hk' [Hm' Hp]]]. exists k'. split; [now right|]. auto.
Qed.

(** X3: a key that is present at the top level of the payload wins over
    every nested place, also when its value is null: [_pick] then
    returns a top-level value whatever the nested mappings hold, and a
    payload whose top-level uas_id is null decodes without a uas_id,
    with confidence at most 0.65. *)
Theorem top_level_key_hides_nested (data : dict) :
  (forall keys prefixes k,
     In k keys -> dict_mem k data = true ->
     exists k', In k' keys /\ dict_mem k' data = true /\
                _pick data keys prefixes = get k' data) /\
  (dict_get "uas_id" data = Some PyNone ->
   uas_id (decode_remote_id_payload (Value (PyDict data))) = None /\
   (confidence (decode_remote_id_payload (Value (PyDict data))) <= 0.65)%Q).
Proof.
  split.
  - intros keys prefixes k Hin Hm.
    destruct (pick_top_some data keys k Hin Hm) as [k' [Hk' [Hm' Hp]]].
    exists k'. split; [exact Hk'|]. split; [exact Hm'|]. unfold _pick. now rewrite Hp.
  - intros Hnull. unfold decode_remote_id_payload. cbn [_normalize_input].
    assert (E : _pick data DRONE_ID_KEYS ["remote_id"; "message"; "uas"] = PyNone).
    { unfold _pick, DRONE_ID_KEYS. cbn [pick_top]. unfold dict_mem, get. now rewrite Hnull. }
    rewrite E.
    generalize (_pick data OPERATOR_ID_KEYS ["remote_id"; "message"; "operator"]).
    generalize (_coerce_float (_pick data LAT_KEYS ["remote_id"; "message"; "position"])).
    generalize (_coerce_float (_pick data LON_KEYS ["remote_id"; "message"; "position"])).
    generalize (_coerce_float (_pick data ALT_KEYS ["remote_id"; "message"; "position"])).
    intros alt lo la operator. cbn [uas_id confidence truthy].
    split; [reflexivity|]. unfold both.
    destruct (truthy operator), la, lo, alt; vm_compute; discriminate.
Qed.

(** The confidence of a decoded payload lies in [0, 1], and a detected
    payload has at least 0.35. *)
Lemma decode_confidence_bounds (p : payload) :
  (0 <= confidence (decode_remote_id_payload p) <= 1)%Q /\
  (detected (decode_remote_id_payload p) = true ->
   (0.35 <= confidence (decode_remote_id_payload p))%Q).
Proof.
  unfold decode_remote_id_payload.
  destruct (_normalize_input p) as [data fmt].
  generalize (_pick data DRONE_ID_KEYS ["remote_id"; "message"; "uas"]).
  generalize (_pick data OPERATOR_ID_KEYS ["remote_id"; "message"; "operator"]).
  generalize (_coerce_float (_pick data LAT_KEYS ["remote_id"; "message"; "position"])).
  generalize (_coerce_float (_pick data LON_KEYS ["remote_id"; "message"; "position"])).
  generalize (_coerce_float (_pick data ALT_KEYS ["remote_id"; "message"; "position"])).
  intros alt lo la operator drone.
  cbn [detected confidence]. unfold both.
  destruct (truthy drone), (truthy operator), la, lo, alt; cbn [present andb orb];
    (split; [split; vm_compute; discriminate|]);
    vm_compute; congruence.
Qed.

End DecoderFacts.

(** A text that is no JSON for the runtime of the examples. *)
Lemma opaque_payload_is_not_detected_witness :
  RemoteId.detected
    (@RemoteId.decode_remote_id_payload example_runtime
       (RemoteId.Value (Py.PyStr "not-a-remote-id-payload"))) = false.
Proof.
  refine (proj1 (@opaque_payload_is_not_detected example_runtime
                   (RemoteId.Value (Py.PyStr "not-a-remote-id-payload")) _)).
  left. reflexivity.
Defined.

(** The Remote ID message of the examples, decoded twice. *)
Lemma redecode_is_stable_witness :
  RemoteId.uas_id
    (@RemoteId.decode_remote_id_payload example_runtime
       (RemoteId.Value
          (Py.PyDict
             (normalized
                (@RemoteId.decode_remote_id_payload example_runtime
                   (RemoteId.Value rid_event)))))) = Some "RID-1"%string.
Proof.
  destruct (@redecode_is_stable example_runtime (RemoteId.Value rid_event))
    as [_ [Hu _]]; [vm_compute; discriminate | vm_compute; discriminate |].
  rewrite Hu. reflexivity.
Defined.

(** A null uas_id at the top level hides the nested one; without the
    top-level key the nested one is found. *)
Lemma top_level_key_hides_nested_witness :
  RemoteId.uas_id (@RemoteId.decode_remote_id_payload example_runtime
                     (RemoteId.Value (Py.PyDict shadowed_id))) = None /\
  RemoteId.uas_id (@RemoteId.decode_remote_id_payload example_runtime
                     (RemoteId.Value (Py.PyDict (Py.dict_remove "uas_id" shadowed_id)))) =
    Some "RID-9"%string.
Proof.
  split.
  - exact (proj1 (proj2 (@top_level_key_hides_nested example_runtime shadowed_id) eq_refl)).
  - reflexivity.
Defined.

(** ** Further properties of the detectors *)

Section MacFacts.
Import PyStr Py RemoteId Detector.
Local Open Scope string_scope.
Context `{RT : Runtime}.

Lemma mac_char_facts (c : ascii) :
  mac_char (mac_char c) = mac_char c /\ isspace (mac_char c) = isspace c /\
  upper_char (mac_char c) = mac_char c /\ Ascii.eqb (mac_char c) "-" = false.
Proof.
  destruct c as [b0 b1 b2 b3 b4 b5 b6 b7].
  destruct b0, b1, b2, b3, b4, b5, b6, b7; vm_compute; repeat split.
Qed.

Lemma map_chars_compose (f g : ascii -> ascii) (s : string) :
  map_chars f (map_chars g s) = map_chars (fun c => f (g c)) s.
Proof. induction s as [|c s IH]; simpl; [reflexivity | now rewrite IH]. Qed.

Lemma map_chars_ext (f g : ascii -> ascii) (s : string) :
  (forall c, f c = g c) -> map_chars f s = map_chars g s.
Proof. intros H. induction s as [|c s IH]; simpl; [reflexivity | now rewrite H, IH]. Qed.



Lemma map_chars_head (f : ascii -> ascii) (s : string) :
  (forall c, isspace (f c) = isspace c) ->
  Spec.head_not_space (map_chars f s) = Spec.head_not_space s.
Proof. intros H. destruct s as [|c s]; simpl; [reflexivity | now rewrite H]. Qed.

Lemma map_chars_last (f : ascii -> ascii) (s : string) :
  (forall c, isspace (f c) = isspace c) ->
  Spec.last_not_space (map_chars f s) = Spec.last_not_space s.
Proof.
  intros H. induction s as [|c s IH]; [reflexivity|].
  destruct s as [|c' s]; [simpl; now rewrite H|].
  exact IH.
Qed.

Lemma mac_text (s : string) :
  replace_char "-" ":" (upper (strip s)) = map_chars mac_char (strip s).
Proof. unfold replace_char, upper. rewrite map_chars_compose. reflexivity. Qed.

Lemma strip_mac_text (s : string) :
  strip (map_chars mac_char (strip s)) = map_chars mac_char (strip s).
Proof.
  destruct (strip_trimmed s) as [l [r [_ [_ [_ [Hh Hl]]]]]].
  unfold strip at 1. rewrite lstrip_fixed.
  - apply rstrip_fixed. rewrite map_chars_last; [exact Hl|]. intros c. apply mac_char_facts.
  - rewrite map_chars_head; [exact Hh|]. intros c. apply mac_char_facts.
Qed.

Lemma or_empty_str (s : string) : str (or_ (PyStr s) (PyStr "")) = s.
Proof. unfold or_. destruct s; reflexivity. Qed.

(** X4: [_normalize_mac] answers in canonical form.  Normalising its
    answer again changes nothing, and the answer is either the empty
    string or a text of at least 8 characters without a hyphen, without
    leading or trailing white space and unchanged by [upper()]. *)
Theorem normalize_mac_is_canonical (v : value) :
  _normalize_mac (PyStr (_normalize_mac v)) = _normalize_mac v /\
  (_normalize_mac v = "" \/
   (8 <= String.length (_normalize_mac v))%nat /\
   contains (_normalize_mac v) "-" = false /\
   upper (_normalize_mac v) = _normalize_mac v /\
   strip (_normalize_mac v) = _normalize_mac v).
Proof.
  set (s := str (or_ v (PyStr ""))).
  set (t := map_chars mac_char (strip s)).
  assert (E : _normalize_mac v = if (8 <=? String.length t)%nat then t else "").
  { unfold _normalize_mac. cbv zeta. fold s. rewrite (mac_text s). reflexivity. }
  assert (Hstrip : strip t = t) by apply strip_mac_text.
  assert (Hidem : map_chars mac_char t = t).
  { unfold t. rewrite map_chars_compose. apply map_chars_ext. intros c. apply mac_char_facts. }
  rewrite E. destruct (8 <=? String.length t)%nat eqn:Hlen.
  - split.
    + unfold _normalize_mac. cbv zeta. rewrite or_empty_str, mac_text, Hstrip, Hidem, Hlen.
      reflexivity.
    + right. split; [now apply Nat.leb_le|]. split; [|split; [|exact Hstrip]].
      * clear. unfold t. generalize (strip s). intros x.
        induction x as [|c x IH]; [reflexivity|].
        cbn [map_chars contains startswith]. rewrite IH.
        destruct (mac_char_facts c) as [_ [_ [_ Hd]]].
        rewrite Ascii.eqb_sym, Hd. reflexivity.
      * unfold upper, t. rewrite map_chars_compose. apply map_chars_ext.
        intros c. apply mac_char_facts.
  - split; [reflexivity | left; reflexivity].
Qed.

End MacFacts.

Section TokenFacts.
Import PyStr Py RemoteId Detector.
Local Open Scope string_scope.









(** A brand word inside a longer word is no match. *)
Example ssid_pattern_examples :
  existsb (fun pat => token_search pat "DJI-OPS-TEST") SSID_PATTERNS = true /\
  existsb (fun pat => token_search pat "my Mavic_3") SSID_PATTERNS = true /\
  existsb (fun pat => token_search pat "minimal") SSID_PATTERNS = false /\
  existsb (fun pat => token_search pat "mydji") SSID_PATTERNS = false.
Proof. repeat split; reflexivity. Qed.

End TokenFacts.

Section DetectorFacts.
Import PyStr Py RemoteId Detector.
Local Open Scope string_scope.
Context `{RT : Runtime}.

Lemma truthy_nonempty (s : string) : PyStr.truthy s = true <-> s <> "".
Proof. unfold PyStr.truthy. destruct s; simpl; split; congruence. Qed.

Lemma maybe_track_follows (r : remote_id) (src ident cls : string) (c : Q) (pl : dict) :
  track_follows_remote_id
    {| source := src; identifier := ident; classification := cls; det_confidence := c;
       det_payload := pl; det_remote_id := if detected r then Some r else None;
       det_track := _maybe_track_from_remote_id r src |}.
Proof.
  unfold track_follows_remote_id, _maybe_track_from_remote_id.
  cbn [det_track det_remote_id source].
  destruct (detected r); cbn [negb].
  - destruct (lat r) as [la|] eqn:Hla, (lon r) as [lo|] eqn:Hlo.
    + exists r. cbn [track_lat track_lon track_altitude_m track_quality track_source].
      repeat split; assumption || reflexivity.
    + intros r' [= <-]. auto.
    + intros r' [= <-]. auto.
    + intros r' [= <-]. auto.
  - intros r' [=].
Qed.

(** The three ways [_detect_wifi] ends. *)
Lemma detect_wifi_record (event : value) :
  _detect_wifi event = [] \/
  exists network,
    _extract_wifi_event event = Some network /\
    let w := wifi_locals network in
    let ident := if PyStr.truthy (w_bssid w) then w_bssid w else w_ssid w in
    ident <> "" /\ (0.5 <= w_score w)%Q /\
    _detect_wifi event =
      [ {| source := "wifi";
           identifier := ident;
           classification :=
             if detected (w_remote_id w) then "wifi_drone_remote_id"
             else "wifi_drone_signature";
           det_confidence := fmin 1 (round3 (w_score w));
           det_payload :=
             [ ("network", PyDict network);
               ("reasons", PyList (map PyStr (w_reasons w)));
               ("brand_hint",
                if PyStr.truthy (w_bssid w)
                then opt_str (oui_lookup (take 8 (w_bssid w)) DRONE_OUI_PREFIXES)
                else PyNone) ];
           det_remote_id := if detected (w_remote_id w) then Some (w_remote_id w) else None;
           det_track := _maybe_track_from_remote_id (w_remote_id w) "wifi" |} ].
Proof.
  unfold _detect_wifi.
  destruct (_extract_wifi_event event) as [[|kv network]|];
    [left; reflexivity| |left; reflexivity].
  cbv zeta. set (w := wifi_locals (kv :: network)).
  destruct (PyStr.truthy (if PyStr.truthy (w_bssid w) then w_bssid w else w_ssid w)) eqn:Hi;
    cbn [negb]; [|left; reflexivity].
  destruct (flt (w_score w) 0.5) eqn:E; [left; reflexivity|].
  right. eexists. split; [reflexivity|]. fold w.
  split; [now apply truthy_nonempty|]. split; [now apply flt_ge|]. reflexivity.
Qed.

(** The score of [_detect_wifi] and what it stands on. *)
Lemma wifi_score_cases (network : dict) :
  let w := wifi_locals network in
  (fmin 1 (round3 (w_score w)) == 0.9 /\
   In "ssid_pattern" (w_reasons w) /\
   exists brand, In ("known_oui:" ++ brand) (w_reasons w))%Q \/
  (fmin 1 (round3 (w_score w)) == 0.75 /\ detected (w_remote_id w) = true)%Q \/
  (w_score w < 0.5)%Q.
Proof.
  cbv zeta. unfold wifi_locals.
  generalize (decode_remote_id_payload (Value (PyDict network))). intros rid.
  destruct (PyStr.truthy _ && existsb _ SSID_PATTERNS);
    destruct (PyStr.truthy _ && (8 <=? _)%nat);
    try destruct (oui_lookup _ DRONE_OUI_PREFIXES) as [brand|];
    destruct (detected rid) eqn:Hd; cbn [w_score w_reasons w_remote_id];
    first [ left; split; [vm_compute; reflexivity|]; split; [simpl; tauto|];
            exists brand; simpl; tauto
          | right; left; split; [vm_compute; reflexivity | exact Hd]
          | right; right; vm_compute; reflexivity ].
Qed.


(** What [_detect_bluetooth] answers. *)
Lemma detect_bluetooth_cases (event : value) (ds : list detection) (d : detection) :
  _detect_bluetooth event = Some ds -> In d ds ->
  ds = [d] /\ source d = "bluetooth" /\ identifier d <> "" /\
  track_follows_remote_id d /\
  ((exists r, det_remote_id d = Some r /\ detected r = true /\
              classification d = "bluetooth_drone_remote_id" /\
              (det_confidence d == 0.75)%Q) \/
   (det_remote_id d = None /\ classification d = "bluetooth_drone_signature" /\
    ((det_confidence d == 0.55)%Q \/ (det_confidence d == 0.7)%Q))).
Proof.
  unfold _detect_bluetooth.
  destruct (_extract_bt_event event) as [[|kv device]|]; cbv beta iota;
    [intros [= <-] []| |intros [= <-] []].
  cbv zeta.
  set (ident := if PyStr.truthy _ then _ else _).
  destruct (PyStr.truthy ident) eqn:Hi; cbn [negb]; cbv beta iota; [|intros [= <-] []].
  apply truthy_nonempty in Hi.
  generalize (decode_remote_id_payload (Value (PyDict (kv :: device)))). intros rid.
  destruct (PyStr.truthy _ && existsb _ BT_NAME_PATTERNS);
    (destruct (iterate _) as [uuids|]; cbv beta iota; [|intros [=]]);
    destruct (existsb uuid_hint uuids);
    destruct (truthy _ && contains _ "drone");
    (destruct (decode_raises _); [intros [=]|]);
    destruct (detected rid) eqn:Hd;
    match goal with
    | |- context [flt ?x 0.55] =>
        let b := eval vm_compute in (flt x 0.55) in
        change (flt x 0.55) with b; cbv iota
    end;
    intros [= <-] Hin; try (destruct Hin; fail);
    destruct Hin as [<-|[]];
    (split; [reflexivity|]); (split; [reflexivity|]); (split; [exact Hi|]);
    (split; [pose proof (maybe_track_follows rid "bluetooth") as Ht;
             rewrite Hd in Ht; apply Ht|]);
    cbn [det_remote_id classification det_confidence];
    first [ left; exists rid; split; [reflexivity|]; split; [exact Hd|];
            split; [reflexivity|]; vm_compute; reflexivity
          | right; split; [reflexivity|]; split; [reflexivity|];
            first [ left; vm_compute; reflexivity | right; vm_compute; reflexivity ] ].
Qed.

(** What [_detect_rf] answers. *)
Lemma detect_rf_cases (event : value) (d : detection) :
  In d (_detect_rf event) ->
  exists f,
    _extract_frequency_mhz event = Some f /\
    (_closest_freq_delta f <= 35)%Q /\
    _detect_rf event = [d] /\
    source d = "rf" /\ startswith (identifier d) "rf:" = true /\
    classification d = "rf_drone_link_activity" /\
    det_confidence d =
      fmin 1 (round3 (fmax 0.5 (fsub (b64 0.85) (fdiv (_closest_freq_delta f) 100)))) /\
    dict_get "frequency_mhz" (det_payload d) = Some (PyFloat f) /\
    det_remote_id d = None /\ det_track d = None.
Proof.
  unfold _detect_rf. destruct event as [| | | | | |e]; try (intros []).
  destruct (_extract_frequency_mhz (PyDict e)) as [f|]; [|intros []].
  cbv zeta. destruct (flt 35 (_closest_freq_delta f)) eqn:E; [intros []|].
  intros [<-|[]]. exists f. apply flt_ge in E.
  repeat (split; [reflexivity || exact E|]). reflexivity.
Qed.

Lemma rf_confidence_bounds (delta : Q) :
  (0 <= delta <= 35)%Q ->
  (0.5 <= fmin 1 (round3 (fmax 0.5 (fsub (b64 0.85) (fdiv delta 100)))) <= 0.85)%Q.
Proof.
  intros H. pose proof (rf_score_bounds delta H) as Hb.
  rewrite (fmin_one _ (proj2 Hb)). exact Hb.
Qed.

(** X7: the Bluetooth detector answers with at most one detection, of
    source bluetooth and with an identifier that is not empty.  With a
    detected Remote ID payload the classification is
    bluetooth_drone_remote_id and the confidence 0.75; without one it is
    bluetooth_drone_signature with confidence 0.55 (name or vendor
    pattern only) or 0.7.  For a device with an identifier the detector
    raises when service_uuids is a value that cannot be iterated, and
    when one of the numbers the decoder picks is an int beyond the range
    of the doubles. *)
Theorem bluetooth_detection_confidence (event : value) :
  (forall ds d,
     _detect_bluetooth event = Some ds -> In d ds ->
     ds = [d] /\ source d = "bluetooth" /\ identifier d <> "" /\
     ((exists r, det_remote_id d = Some r /\ detected r = true /\
                 classification d = "bluetooth_drone_remote_id" /\
                 (det_confidence d == 0.75)%Q) \/
      (det_remote_id d = None /\ classification d = "bluetooth_drone_signature" /\
       ((det_confidence d == 0.55)%Q \/ (det_confidence d == 0.7)%Q)))) /\
  (forall device,
     _extract_bt_event event = Some device -> device <> [] ->
     bt_identifier device <> "" ->
     iterate (or_ (get "service_uuids" device) (PyList [])) = None \/
     decode_raises (Value (PyDict device)) = true ->
     _detect_bluetooth event = None).
Proof.
  split.
  - intros ds d H Hin.
    destruct (detect_bluetooth_cases event ds d H Hin) as [H1 [H2 [H3 [_ H4]]]]. auto.
  - intros device He Hne Hid Hr. unfold _detect_bluetooth. rewrite He.
    destruct device as [|kv device]; [congruence|]. cbv beta iota zeta.
    apply (proj2 (truthy_nonempty _)) in Hid. unfold bt_identifier in Hid.
    cbv zeta in Hid. rewrite Hid. cbn [negb]. cbv beta iota.
    destruct (PyStr.truthy _ && existsb _ BT_NAME_PATTERNS);
      (destruct (iterate _) as [uuids|]; [|reflexivity]);
      (destruct Hr as [Hr|Hr]; [discriminate|]);
      destruct (existsb uuid_hint uuids); destruct (truthy _ && contains _ "drone");
      rewrite Hr; reflexivity.
Qed.

(** X8: an RF detection reports a frequency within 35 MHz of one of
    the known bands, hence between 280 and 5835 MHz whatever the event
    said, with a confidence between 0.5 and 0.85 and an identifier that
    starts with rf:. *)
Theorem rf_detection_band (event : value) (d : detection) :
  In d (_detect_rf event) ->
  exists f hint,
    _extract_frequency_mhz event = Some f /\
    dict_get "frequency_mhz" (det_payload d) = Some (PyFloat f) /\
    In hint RF_FREQ_HINTS_MHZ /\ (Qabs (f - hint) <= 35)%Q /\
    (280 <= f <= 5835)%Q /\
    (0.5 <= det_confidence d <= 0.85)%Q /\
    startswith (identifier d) "rf:" = true.
Proof.
  intros Hin.
  destruct (detect_rf_cases event d Hin)
    as [f [Hf [Hd [_ [_ [Hi [_ [Hc [Hp _]]]]]]]]].
  destruct (extracted_is_double event f Hf) as [x ->].
  destruct (closest_freq_delta_hint x Hd) as [hint [Hh Hm]].
  exists (b64 x), hint. split; [exact Hf|]. split; [exact Hp|]. split; [exact Hh|].
  assert (Habs : (Qabs (b64 x - hint) <= 35)%Q) by (rewrite <- Hm; exact Hd).
  split; [exact Habs|]. split; [|split; [|exact Hi]].
  - apply Qabs_Qle_condition in Habs. destruct (hint_grid hint Hh) as [H [_ [H1 H2]]].
    split; lra.
  - rewrite Hc. apply rf_confidence_bounds.
    split; [apply closest_freq_delta_nonneg | exact Hd].
Qed.

(** X9: whatever the mode, [detect_from_event] answers with at most one
    detection; its identifier is not empty and its confidence lies
    between 0.35 and 1; a Remote ID record it carries is a detected one
    (and gives the confidence of a remote_id_detected detection, the
    default 0.6 of the source is never used); and it has a track exactly
    when it carries a Remote ID record with both lat and lon, the track
    repeating the position, altitude and confidence of that record. *)
Theorem detections_are_well_formed (mode event event_type : value)
    (ds : list detection) (d : detection) :
  detect_from_event mode event event_type = Some ds -> In d ds ->
  ds = [d] /\
  identifier d <> "" /\
  (0.35 <= det_confidence d <= 1)%Q /\
  (forall r, det_remote_id d = Some r ->
             detected r = true /\
             (classification d = "remote_id_detected" -> det_confidence d = confidence r)) /\
  track_follows_remote_id d.
Proof.
  unfold detect_from_event. cbv zeta.
  set (mode_lower := lower (str (or_ mode (PyStr "")))).
  destruct (startswith mode_lower "wifi").
  { destruct (_detect_wifi_raises event); [discriminate|]. intros [= <-] Hin.
    destruct (detect_wifi_record event) as [E|[network [He [Hi [Hs E]]]]]; cbv zeta in *.
    - rewrite E in Hin. destruct Hin.
    - rewrite E in *. destruct Hin as [<-|[]].
      cbn [identifier det_confidence det_remote_id classification].
      split; [reflexivity|]. split; [exact Hi|]. split; [|split].
      + destruct (wifi_score_cases network) as [[H _]|[[H _]|Hlt]]; cbv zeta in *.
        * rewrite H. split; discriminate.
        * rewrite H. split; discriminate.
        * exfalso. apply (Qlt_not_le _ _ Hlt). exact Hs.
      + intros r. destruct (detected (w_remote_id (wifi_locals network))) eqn:Hd;
          [|discriminate].
        intros [= <-]. split; [exact Hd | discriminate].
      + apply maybe_track_follows. }
  destruct (startswith mode_lower "bluetooth" || startswith mode_lower "bt").
  { intros H Hin.
    destruct (detect_bluetooth_cases event ds d H Hin) as [H1 [_ [H3 [H4 H5]]]].
    split; [exact H1|]. split; [exact H3|]. split; [|split; [|exact H4]].
    - destruct H5 as [[r [_ [_ [_ Hc]]]]|[_ [_ [Hc|Hc]]]]; rewrite Hc; split; discriminate.
    - intros r Hr. destruct H5 as [[r' [Hr' [Hd [Hcl _]]]]|[Hn _]]; [|congruence].
      assert (r' = r) by congruence. subst r'. split; [exact Hd|].
      rewrite Hcl. discriminate. }
  destruct (mem_str mode_lower _).
  { destruct (_extract_frequency_raises event); [discriminate|]. intros [= <-] Hin.
    destruct (detect_rf_cases event d Hin)
      as [f [_ [Hd [E [_ [Hi [_ [Hc [_ [Hr Ht]]]]]]]]]].
    split; [exact E|]. split; [|split; [|split]].
    - intros Hn. rewrite Hn in Hi. discriminate Hi.
    - rewrite Hc.
      destruct (rf_confidence_bounds (_closest_freq_delta f)) as [Hlo Hhi].
      + split; [apply closest_freq_delta_nonneg | exact Hd].
      + split; [eapply Qle_trans; [|exact Hlo] | eapply Qle_trans; [exact Hhi|]];
          discriminate.
    - intros r Hr'. congruence.
    - unfold track_follows_remote_id. rewrite Ht. intros r Hr'. congruence. }
  destruct (decode_raises (Value event)); [discriminate|].
  pose proof (decode_confidence_bounds (Value event)) as [[Hc0 Hc1] Hc2].
  destruct (detected (decode_remote_id_payload (Value event))) eqn:Hd;
    [|intros [= <-] []].
  intros [= <-] [<-|[]]. specialize (Hc2 eq_refl).
  assert (Hz : Qeq_bool (confidence (decode_remote_id_payload (Value event))) 0 = false).
  { destruct (Qeq_bool _ 0) eqn:Ez; [|reflexivity]. apply Qeq_bool_iff in Ez.
    rewrite Ez in Hc2. exfalso. revert Hc2. vm_compute. congruence. }
  cbn [identifier det_confidence det_remote_id classification]. rewrite Hz.
  split; [reflexivity|]. split; [|split; [auto|split]].
  - unfold or_str.
    destruct (uas_id _) as [u|]; [destruct (PyStr.truthy u) eqn:Hu;
      [now apply truthy_nonempty|]|];
    (destruct (operator_id _) as [o|]; [destruct (PyStr.truthy o) eqn:Ho;
      [now apply truthy_nonempty|]|]); discriminate.
  - intros r [= <-]. auto.
  - pose proof (maybe_track_follows (decode_remote_id_payload (Value event))) as Ht.
    rewrite Hd in Ht. apply Ht.
Qed.

End DetectorFacts.



Lemma rf_detection_band_witness :
  exists d f,
    @Detector._detect_rf example_runtime rf_event = [d] /\
    Py.dict_get "frequency_mhz" (Detector.det_payload d) = Some (Py.PyFloat f)%string /\
    (280 <= f <= 5835)%Q.
Proof.
  destruct (@Detector._detect_rf example_runtime rf_event) as [|d l] eqn:E;
    [vm_compute in E; discriminate|].
  destruct (@rf_detection_band example_runtime rf_event d)
    as [f [hint [_ [Hp [_ [_ [Hb _]]]]]]]; [rewrite E; left; reflexivity|].
  assert (l = []) by (vm_compute in E; congruence). subst l.
  exists d, f. auto.
Defined.

Lemma detections_are_well_formed_witness :
  exists d,
    @Detector.detect_from_event example_runtime (Py.PyStr "adsb") rid_event Py.PyNone
      = Some [d] /\
    Detector.identifier d <> ""%string /\
    track_follows_remote_id d.
Proof.
  destruct (@Detector.detect_from_event example_runtime (Py.PyStr "adsb") rid_event Py.PyNone)
    as [[|d l]|] eqn:E; try (vm_compute in E; discriminate).
  destruct (@detections_are_well_formed example_runtime (Py.PyStr "adsb") rid_event
              Py.PyNone (d :: l) d E (or_introl eq_refl)) as [Hl [Hi [_ [_ Ht]]]].
  exists d. rewrite Hl. auto.
Defined.

Lemma bluetooth_detection_confidence_witness :
  (exists d,
     @Detector._detect_bluetooth example_runtime bt_event = Some [d] /\
     Detector.source d = "bluetooth"%string) /\
  @Detector._detect_bluetooth example_runtime (Py.PyDict bt_overflow_device) = None.
Proof.
  split.
  - destruct (@Detector._detect_bluetooth example_runtime bt_event) as [[|d l]|] eqn:E;
      try (vm_compute in E; discriminate).
    destruct (proj1 (@bluetooth_detection_confidence example_runtime bt_event) (d :: l) d E
                (or_introl eq_refl)) as [Hl [Hs _]].
    exists d. rewrite Hl. auto.
  - apply (proj2 (@bluetooth_detection_confidence example_runtime
                    (Py.PyDict bt_overflow_device)) bt_overflow_device).
    + reflexivity.
    + discriminate.
    + vm_compute. discriminate.
    + right. vm_compute. reflexivity.
Defined.

(** ** Further properties of the action workflow *)

Section GateFacts.
Import PyStr Py Store Service.
Local Open Scope string_scope.

Lemma armed_iff (p : policy) (now : Q) :
  armed (fst (_policy_state_locked p now)) = true <->
  exists until, _armed_until_ts p = Some until /\ (now < until)%Q.
Proof.
  unfold _policy_state_locked. cbn [fst armed].
  destruct (_armed_until_ts p) as [u|]; split.
  - intros H. exists u. split; [reflexivity | now apply flt_lt].
  - intros [u' [[= <-] H]]. now apply flt_lt.
  - discriminate.
  - intros [u' [[=] _]].
Qed.

Lemma read_not_armed (p : policy) (now : Q) :
  armed (fst (_policy_state_locked p now)) = false ->
  snd (_policy_state_locked p now) = disarmed.
Proof.
  unfold _policy_state_locked. cbn [fst snd armed]. intros ->. reflexivity.
Qed.

(** The four ways [execute_action] ends. *)
Lemma execute_action_cases (s : service) (now : Q) (rid : Z) (who : string) :
  let res := execute_action s now rid who in
  (get_action_request (store s) rid = None /\
   res = (s, (None, Some "Action request not found"))) \/
  (exists r, get_action_request (store s) rid = Some r /\
     armed (snd (get_policy_state s now)) = false /\
     res = (with_policy s disarmed, (None, Some "Action plane is not armed"))) \/
  (exists r until, get_action_request (store s) rid = Some r /\
     _armed_until_ts (pol s) = Some until /\ (now < until)%Q /\
     count_approved (approvals r) < required_approvals (Some (action_type r)) /\
     res = (s, (None, Some ("Insufficient approvals (" ++ show_Z (count_approved (approvals r))
                              ++ "/" ++ show_Z (required_approvals (Some (action_type r)))
                              ++ ")")))) \/
  (exists r until, get_action_request (store s) rid = Some r /\
     _armed_until_ts (pol s) = Some until /\ (now < until)%Q /\
     required_approvals (Some (action_type r)) <= count_approved (approvals r) /\
     snd (snd res) = None).
Proof.
  cbv zeta.
  destruct (get_action_request (store s) rid) as [r|] eqn:H.
  2:{ left. split; [reflexivity|]. unfold execute_action. rewrite H. reflexivity. }
  right.
  destruct (armed (snd (get_policy_state s now))) eqn:Ha.
  - right.
    assert (Hu : exists until, _armed_until_ts (pol s) = Some until /\ (now < until)%Q).
    { apply armed_iff. unfold get_policy_state in Ha.
      destruct (_policy_state_locked (pol s) now). exact Ha. }
    destruct Hu as [until [Hp Hlt]].
    destruct (Z.ltb_spec (count_approved (approvals r))
                (required_approvals (Some (action_type r)))) as [Hc|Hc].
    + left. exists r, until. repeat (split; [assumption || reflexivity|]).
      unfold execute_action. rewrite H.
      destruct (state_while_armed s now until Hp Hlt) as [Hs Ha'].
      destruct (get_policy_state s now) as [s1 st]. simpl in Hs, Ha'. subst s1.
      rewrite Ha'. cbn [negb]. cbv zeta.
      destruct (Z.ltb_spec (count_approved (approvals r))
                  (required_approvals (Some (action_type r)))); [reflexivity|lia].
    + right. exists r, until. repeat (split; [assumption || reflexivity|]).
      destruct (execute_action_runs s now until rid who r H Hp Hlt Hc) as [E _].
      cbv zeta in E. rewrite E. reflexivity.
  - left. exists r. split; [reflexivity|]. split; [reflexivity|].
    unfold execute_action. rewrite H. unfold get_policy_state in *.
    pose proof (read_not_armed (pol s) now) as Hn.
    destruct (_policy_state_locked (pol s) now) as [st p']. simpl in Ha, Hn.
    rewrite Ha. cbn [negb]. rewrite (Hn Ha). reflexivity.
Qed.

End GateFacts.

Section GateTheorems.
Import PyStr Py Store Service.
Local Open Scope string_scope.

(** X10: when [execute_action] reports no error, the request existed,
    the action plane was armed at that reading of the clock (a deadline
    was set and lay ahead) and the approving decisions reached the
    number the action type requires; the request is then stored and
    returned as executed by the caller. *)
Theorem execute_action_success_needs_gates (s : service) (now : Q) (rid : Z)
    (who : string) :
  snd (snd (execute_action s now rid who)) = None ->
  exists r until,
    get_action_request (store s) rid = Some r /\
    _armed_until_ts (pol s) = Some until /\ (now < until)%Q /\
    required_approvals (Some (action_type r)) <= count_approved (approvals r) /\
    get_action_request (store (fst (execute_action s now rid who))) rid =
      Some (set_status executed (Some who) r) /\
    option_map row (fst (snd (execute_action s now rid who))) =
      Some (set_status executed (Some who) r).
Proof.
  intros Hok.
  destruct (execute_action_cases s now rid who)
    as [[_ E]|[[r [_ [_ E]]]|[[r [until [_ [_ [_ [_ E]]]]]]|[r [until [H [Hp [Hlt [Hq E]]]]]]]]];
    cbv zeta in E; try (rewrite E in Hok; discriminate).
  clear E.
  exists r, until. repeat (split; [assumption|]).
  destruct (execute_action_runs s now until rid who r H Hp Hlt Hq) as [E [Hg _]].
  cbv zeta in E, Hg. split.
  - rewrite Hg. destruct (decide (rid = rid)); [reflexivity|congruence].
  - rewrite E. reflexivity.
Qed.

(** X11: when [execute_action] reports an error it returns no request
    and leaves every stored request, the audit log and the emitted
    events as they were; the message is one of three: the request does
    not exist, the action plane is not armed, or the approvals are
    insufficient, in this order of precedence. *)
Theorem execute_action_failure_changes_nothing (s : service) (now : Q) (rid : Z)
    (who message : string) :
  snd (snd (execute_action s now rid who)) = Some message ->
  store (fst (execute_action s now rid who)) = store s /\
  emitted (fst (execute_action s now rid who)) = emitted s /\
  fst (snd (execute_action s now rid who)) = None /\
  ((message = "Action request not found" /\
    get_action_request (store s) rid = None) \/
   (message = "Action plane is not armed" /\
    get_action_request (store s) rid <> None /\
    armed (snd (get_policy_state s now)) = false) \/
   (exists r until,
      get_action_request (store s) rid = Some r /\
      _armed_until_ts (pol s) = Some until /\ (now < until)%Q /\
      count_approved (approvals r) < required_approvals (Some (action_type r)) /\
      message = "Insufficient approvals (" ++ show_Z (count_approved (approvals r))
                  ++ "/" ++ show_Z (required_approvals (Some (action_type r))) ++ ")")).
Proof.
  intros Hm.
  destruct (execute_action_cases s now rid who)
    as [[H E]|[[r [H [Ha E]]]|[[r [until [H [Hp [Hlt [Hc E]]]]]]|[r [until [_ [_ [_ [_ E]]]]]]]]];
    cbv zeta in E.
  - rewrite E in *. injection Hm as <-. repeat (split; [reflexivity|]). left. auto.
  - rewrite E in *. injection Hm as <-. repeat (split; [reflexivity|]). right. left.
    split; [reflexivity|]. split; [congruence | exact Ha].
  - rewrite E in *. injection Hm as <-. repeat (split; [reflexivity|]). right. right.
    exists r, until. auto.
  - rewrite E in Hm. discriminate.
Qed.

End GateTheorems.

(** The approved request of the scenario, and the request without
    approvals. *)
Lemma execute_action_success_needs_gates_witness :
  exists r,
    Store.get_action_request (Service.store scenario_approved) 1 = Some r /\
    Service.required_approvals (Some (Store.action_type r)) <=
      Service.count_approved (Store.approvals r).
Proof.
  destruct (execute_action_success_needs_gates scenario_approved 1001 1 "op1")
    as [r [until [H [_ [_ [Hq _]]]]]]; [vm_compute; reflexivity|].
  exists r. split; [exact H | exact Hq].
Defined.

Lemma execute_action_failure_changes_nothing_witness :
  Service.store (fst (Service.execute_action scenario_insufficient 1001 1 "op1")) =
    Service.store scenario_insufficient /\
  Service.emitted (fst (Service.execute_action scenario_insufficient 1001 1 "op1")) =
    Service.emitted scenario_insufficient.
Proof.
  destruct (execute_action_failure_changes_nothing scenario_insufficient 1001 1 "op1"
              "Insufficient approvals (0/2)") as [Hs [He _]]; [vm_compute; reflexivity|].
  split; [exact Hs | exact He].
Defined.

Section QuorumFacts.
Import PyStr Py Store Service.
Local Open Scope string_scope.

Lemma count_approved_snoc (l : list approval) (a : approval) :
  count_approved l <= count_approved (l ++ [a]).
Proof.
  unfold count_approved. rewrite List.filter_app, length_app. lia.
Qed.

Lemma decided_row_quorum (r : action_request) approver dec nt :
  cleared_with_quorum r -> cleared_with_quorum (decided_row r approver dec nt).
Proof.
  unfold cleared_with_quorum, quorum_met, decided_row. intros Hinv.
  set (a := {| approved_by := approver; decision := dec; notes := nt |}).
  destruct (String.eqb (lower dec) "rejected").
  - cbn. intros [|]; discriminate.
  - destruct (Z.leb _ _ && negb _) eqn:E.
    + apply andb_true_iff in E. destruct E as [E _]. apply Z.leb_le in E.
      cbn in *. intros _. exact E.
    + cbn. intros Hs. specialize (Hinv Hs).
      pose proof (count_approved_snoc (approvals r) a). lia.
Qed.

Lemma approve_action_keeps_quorum (s : service) rid approver dec nt :
  every_request cleared_with_quorum (store s) ->
  every_request cleared_with_quorum (store (fst (approve_action s rid approver dec nt))).
Proof.
  intros Hinv rid' r' Hget.
  destruct (get_action_request (store s) rid) as [r|] eqn:H.
  - destruct (already_decided approver (approvals r)) eqn:Hd.
    + rewrite (approve_action_repeat s rid approver dec nt r H Hd) in Hget.
      exact (Hinv rid' r' Hget).
    + destruct (approve_action_fresh s rid approver dec nt r H Hd) as [Hg _].
      rewrite Hg in Hget. destruct (decide (rid = rid')) as [<-|].
      * injection Hget as <-. apply decided_row_quorum. exact (Hinv rid r H).
      * exact (Hinv rid' r' Hget).
  - rewrite (approve_action_missing s rid approver dec nt H) in Hget.
    exact (Hinv rid' r' Hget).
Qed.

Lemma execute_action_keeps_quorum (s : service) now rid who :
  every_request cleared_with_quorum (store s) ->
  every_request cleared_with_quorum (store (fst (execute_action s now rid who))).
Proof.
  intros Hinv rid' r' Hget.
  destruct (execute_action_cases s now rid who)
    as [[_ E]|[[r [_ [_ E]]]|[[r [until [_ [_ [_ [_ E]]]]]]|[r [until [H [Hp [Hlt [Hq _]]]]]]]]];
    cbv zeta in *; try (rewrite E in Hget; exact (Hinv rid' r' Hget)).
  destruct (execute_action_runs s now until rid who r H Hp Hlt Hq) as [_ [Hg _]].
  cbv zeta in Hg. rewrite Hg in Hget. destruct (decide (rid = rid')) as [<-|].
  - injection Hget as <-. intros _. exact Hq.
  - exact (Hinv rid' r' Hget).
Qed.

Lemma reachable_quorum (s : service) :
  reachable s -> every_request cleared_with_quorum (store s).
Proof.
  induction 1 as [|s now _ IH|s now now' who reason incident d _ IH|s now who reason _ IH
                  |s incident atype requester pl _ IH|s rid approver dec nt _ IH
                  |s now rid who _ IH].
  - intros rid r Hget. unfold get_action_request in Hget. simpl in Hget.
    rewrite lookup_empty in Hget. discriminate.
  - destruct (state_keeps_store s now) as [-> _]. exact IH.
  - rewrite arm_keeps_store. exact IH.
  - rewrite disarm_keeps_store. exact IH.
  - intros rid r Hget. rewrite request_action_store in Hget.
    destruct (decide (next_request_id (store s) = rid)).
    + injection Hget as <-. intros [|]; discriminate.
    + exact (IH rid r Hget).
  - now apply approve_action_keeps_quorum.
  - now apply execute_action_keeps_quorum.
Qed.

Lemma nodup_map_filter {A B} (g : A -> B) (f : A -> bool) (l : list A) :
  List.NoDup (map g l) -> List.NoDup (map g (List.filter f l)).
Proof.
  induction l as [|x l IH]; simpl; intros Hnd; [constructor|].
  inversion Hnd as [|y l' Hnin Hnd']; subst.
  destruct (f x); [|now apply IH]. simpl. constructor; [|now apply IH].
  intros Hin. apply Hnin. apply in_map_iff in Hin. destruct Hin as [z [Hz Hin]].
  apply List.filter_In in Hin. apply in_map_iff. exists z. tauto.
Qed.

Lemma two_distinct {A B} (g : A -> B) (f : A -> bool) (l : list A) :
  List.NoDup (map g l) -> (2 <= length (List.filter f l))%nat ->
  exists a b, In a l /\ In b l /\ g a <> g b /\ f a = true /\ f b = true.
Proof.
  intros Hnd Hlen. apply (nodup_map_filter g f) in Hnd.
  assert (Hin : forall x, In x (List.filter f l) -> In x l /\ f x = true)
    by (intros x; apply List.filter_In).
  destruct (List.filter f l) as [|a [|b rest]]; simpl in Hlen; try lia.
  exists a, b.
  destruct (Hin a) as [Ha Hfa]; [now left|].
  destruct (Hin b) as [Hb Hfb]; [now right; left|].
  repeat (split; [assumption|]). split; [|split; assumption].
  simpl in Hnd. inversion Hnd as [|y l' Hnin _]; subst.
  intros Heq. apply Hnin. left. now symmetry.
Qed.

(** X12: in every state the service can reach, a request that is
    approved or executed has at least as many approving decisions as its
    action type requires; when that number is 2 there are two approving
    decisions by approvers whose names differ also when letter case is
    ignored. *)
Theorem cleared_requests_have_quorum (s : service) (rid : Z) (r : action_request) :
  reachable s ->
  get_action_request (store s) rid = Some r ->
  req_status r = approved \/ req_status r = executed ->
  required_approvals (Some (action_type r)) <= count_approved (approvals r) /\
  (required_approvals (Some (action_type r)) = 2 ->
   exists a b,
     In a (approvals r) /\ In b (approvals r) /\
     lower (approved_by a) <> lower (approved_by b) /\
     lower (decision a) = "approved" /\ lower (decision b) = "approved").
Proof.
  intros Hr Hget Hs.
  pose proof (reachable_quorum s Hr rid r Hget Hs) as Hq. unfold quorum_met in Hq.
  split; [exact Hq|]. intros H2.
  pose proof (reachable_one_approval s Hr rid r Hget) as Hnd.
  unfold one_approval_per_approver in Hnd.
  destruct (two_distinct (fun a => lower (approved_by a))
              (fun a => String.eqb (lower (decision a)) "approved") (approvals r) Hnd)
    as [a [b [Ha [Hb [Hne [Hfa Hfb]]]]]].
  - unfold count_approved in Hq. lia.
  - exists a, b. repeat (split; [assumption|]).
    split; now apply String.eqb_eq.
Qed.

End QuorumFacts.

(** Two supervisors approve a request for an active action. *)
Lemma cleared_requests_have_quorum_witness :
  exists r a b,
    Store.get_action_request (Service.store scenario_two_party) 1 = Some r /\
    Store.req_status r = Store.approved /\
    In a (Store.approvals r) /\ In b (Store.approvals r) /\
    PyStr.lower (Store.approved_by a) <> PyStr.lower (Store.approved_by b).
Proof.
  assert (H : exists r, Store.get_action_request (Service.store scenario_two_party) 1 = Some r /\
                        Store.req_status r = Store.approved /\
                        Service.required_approvals (Some (Store.action_type r)) = 2).
  { eexists. split; [vm_compute; reflexivity|]. split; reflexivity. }
  destruct H as [r [Hget [Hs H2]]].
  assert (Hr : reachable scenario_two_party).
  { unfold scenario_two_party. cbv zeta.
    apply reach_approve, reach_approve, reach_request, reach_initial. }
  destruct (cleared_requests_have_quorum scenario_two_party 1 r Hr Hget (or_introl Hs))
    as [_ Hab].
  destruct (Hab H2) as [a [b [Ha [Hb [Hne _]]]]].
  exists r, a, b. auto.
Defined.

Section FreshRequests.
Import PyStr Py Store Service.
Local Open Scope string_scope.

Lemma required_approvals_positive (A : option string) : 0 < required_approvals A.
Proof. unfold required_approvals. destruct (startswith _ _); lia. Qed.

(** X13: [request_action] returns the new request under the next free
    id, pending and without approvals, together with the number of
    approvals its action type requires; and [execute_action] on that
    request, at any time and by anyone, fails and leaves the store as it
    is: nothing is executed without an approval. *)
Theorem fresh_request_is_not_executable (s : service) (incident : Z)
    (atype requester : string) (pl : option dict) (now : Q) (who : string) :
  let s1 := fst (request_action s incident atype requester pl) in
  exists v,
    snd (request_action s incident atype requester pl) = Some v /\
    id (row v) = next_request_id (store s) /\
    req_status (row v) = pending /\
    approvals (row v) = [] /\
    view_required_approvals v = Some (required_approvals (Some atype)) /\
    store (fst (execute_action s1 now (id (row v)) who)) = store s1 /\
    exists message, snd (execute_action s1 now (id (row v)) who) = (None, Some message).
Proof.
  cbv zeta.
  pose proof (request_action_store s incident atype requester pl (next_request_id (store s)))
    as Hget.
  destruct (decide (next_request_id (store s) = next_request_id (store s))) as [_|];
    [|congruence].
  set (r := {| id := next_request_id (store s); incident_id := incident;
               action_type := atype; requested_by := requester;
               payload := match pl with Some p => p | None => [] end;
               req_status := pending; approvals := []; executed_by := None |}) in *.
  assert (Hv : snd (request_action s incident atype requester pl) =
               Some {| row := r;
                       view_required_approvals := Some (required_approvals (Some atype));
                       view_approved_count := None |}).
  { unfold request_action, create_action_request. cbv zeta.
    rewrite get_after_audit. unfold get_action_request at 1. cbn [action_requests].
    rewrite lookup_insert. destruct (decide _); [|congruence]. reflexivity. }
  eexists. split; [exact Hv|]. cbn [row id req_status approvals view_required_approvals r].
  repeat (split; [reflexivity|]).
  set (s1 := fst (request_action s incident atype requester pl)) in *.
  destruct (execute_action_cases s1 now (next_request_id (store s)) who)
    as [[_ E]|[[r' [_ [_ E]]]|[[r' [until [_ [_ [_ [_ E]]]]]]|[r' [until [H [_ [_ [Hq _]]]]]]]]];
    cbv zeta in *; try (rewrite E; split; [reflexivity | eexists; reflexivity]).
  exfalso. rewrite Hget in H. injection H as <-. cbn in Hq.
  pose proof (required_approvals_positive (Some atype)). unfold count_approved in Hq.
  simpl in Hq. lia.
Qed.

End FreshRequests.

Section LifecycleFacts.
Import PyStr Py Store Service.
Local Open Scope string_scope.

Lemma continues_refl (r : action_request) : continues r r.
Proof.
  unfold continues. repeat (split; [reflexivity|]).
  split; [exists []; now rewrite app_nil_r | auto].
Qed.

Lemma decided_row_continues (r : action_request) approver dec nt :
  continues r (decided_row r approver dec nt).
Proof.
  unfold continues, decided_row.
  destruct (String.eqb _ _); [|destruct (_ && _)]; cbn;
    repeat (split; [reflexivity|]);
    (split; [eexists; reflexivity|]); try discriminate; auto.
Qed.

Lemma executed_row_continues (r : action_request) who :
  continues r (set_status executed (Some who) r).
Proof.
  unfold continues. cbn. repeat (split; [reflexivity|]).
  split; [exists []; now rewrite app_nil_r | discriminate].
Qed.

Lemma next_id_after_request (s : service) incident atype requester pl :
  next_request_id (store (fst (request_action s incident atype requester pl))) =
  next_request_id (store s) + 1.
Proof.
  unfold request_action, create_action_request.
  destruct (get_action_request _ _); reflexivity.
Qed.

Lemma next_id_after_approve (s : service) rid approver dec nt :
  next_request_id (store (fst (approve_action s rid approver dec nt))) =
  next_request_id (store s).
Proof.
  unfold approve_action.
  destruct (get_action_request (store s) rid); [|reflexivity].
  destruct (already_decided _ _); [reflexivity|].
  destruct (get_action_request _ rid); [|reflexivity].
  destruct (String.eqb _ _); [|destruct (_ && _)];
    destruct (get_action_request _ rid); reflexivity.
Qed.

Lemma next_id_after_execute (s : service) now rid who :
  next_request_id (store (fst (execute_action s now rid who))) =
  next_request_id (store s).
Proof.
  unfold execute_action.
  destruct (get_action_request (store s) rid); [|reflexivity].
  pose proof (state_keeps_store s now) as [Hst _].
  destruct (get_policy_state s now) as [s1 st]. cbn [fst] in Hst.
  destruct (negb _); [cbn; congruence|]. cbv zeta.
  destruct (Z.ltb _ _); [cbn; congruence|].
  destruct (get_action_request _ rid); cbn; congruence.
Qed.

(** One call keeps every request and lets it continue. *)
Lemma call_continues (s s' : service) (rid : Z) (r : action_request) :
  call s s' ->
  rid < next_request_id (store s) ->
  get_action_request (store s) rid = Some r ->
  exists r', get_action_request (store s') rid = Some r' /\ continues r r'.
Proof.
  intros Hc Hfresh Hget.
  destruct Hc as [s now|s now now' actor reason incident d|s now actor reason
                  |s incident atype requester pl|s rid0 approver dec nt|s now rid0 who].
  - destruct (state_keeps_store s now) as [-> _]. exists r. split; [exact Hget|].
    apply continues_refl.
  - rewrite arm_keeps_store. exists r. split; [exact Hget | apply continues_refl].
  - rewrite disarm_keeps_store. exists r. split; [exact Hget | apply continues_refl].
  - rewrite request_action_store.
    destruct (decide (next_request_id (store s) = rid)); [lia|].
    exists r. split; [exact Hget | apply continues_refl].
  - destruct (get_action_request (store s) rid0) as [r0|] eqn:H0.
    + destruct (already_decided approver (approvals r0)) eqn:Hd.
      * rewrite (approve_action_repeat s rid0 approver dec nt r0 H0 Hd).
        exists r. split; [exact Hget | apply continues_refl].
      * destruct (approve_action_fresh s rid0 approver dec nt r0 H0 Hd) as [Hg _].
        cbv zeta in Hg. rewrite Hg. destruct (decide (rid0 = rid)) as [->|].
        -- assert (r0 = r) by congruence. subst r0. eexists. split; [reflexivity|].
           apply decided_row_continues.
        -- exists r. split; [exact Hget | apply continues_refl].
    + rewrite (approve_action_missing s rid0 approver dec nt H0).
      exists r. split; [exact Hget | apply continues_refl].
  - destruct (execute_action_store s now rid0 who) as [Hs|[r0 [H0 Hg]]].
    + rewrite Hs. exists r. split; [exact Hget | apply continues_refl].
    + rewrite Hg. destruct (decide (rid0 = rid)) as [->|].
      * assert (r0 = r) by congruence. subst r0. eexists. split; [reflexivity|].
        apply executed_row_continues.
      * exists r. split; [exact Hget | apply continues_refl].
Qed.

Lemma reachable_ids_fresh (s : service) :
  reachable s ->
  forall rid r, get_action_request (store s) rid = Some r ->
                rid < next_request_id (store s).
Proof.
  induction 1 as [|s now _ IH|s now now' who reason incident d _ IH|s now who reason _ IH
                  |s incident atype requester pl _ IH|s rid0 approver dec nt _ IH
                  |s now rid0 who _ IH]; intros rid r Hget.
  - unfold get_action_request in Hget. simpl in Hget. rewrite lookup_empty in Hget.
    discriminate.
  - destruct (state_keeps_store s now) as [E _]. rewrite E in *. eauto.
  - rewrite arm_keeps_store in *. eauto.
  - rewrite disarm_keeps_store in *. eauto.
  - rewrite next_id_after_request. rewrite request_action_store in Hget.
    destruct (decide (next_request_id (store s) = rid)); [lia|].
    specialize (IH rid r Hget). lia.
  - rewrite next_id_after_approve.
    destruct (get_action_request (store s) rid0) as [r0|] eqn:H0.
    + destruct (already_decided approver (approvals r0)) eqn:Hd.
      * rewrite (approve_action_repeat s rid0 approver dec nt r0 H0 Hd) in Hget. eauto.
      * destruct (approve_action_fresh s rid0 approver dec nt r0 H0 Hd) as [Hg _].
        cbv zeta in Hg. rewrite Hg in Hget. destruct (decide (rid0 = rid)) as [->|]; eauto.
    + rewrite (approve_action_missing s rid0 approver dec nt H0) in Hget. eauto.
  - rewrite next_id_after_execute.
    destruct (execute_action_store s now rid0 who) as [Hs|[r0 [H0 Hg]]].
    + rewrite Hs in Hget. eauto.
    + rewrite Hg in Hget. destruct (decide (rid0 = rid)) as [->|]; eauto.
Qed.

(** X14: in a reachable state, one call of a public method keeps every
    stored request: its id, incident, action type, requester and payload
    stay as they are, its approvals are only extended, and a request
    that has left the status pending does not return to it. *)
Theorem requests_never_regress (s s' : service) (rid : Z) (r : action_request) :
  reachable s -> call s s' ->
  get_action_request (store s) rid = Some r ->
  exists r',
    get_action_request (store s') rid = Some r' /\
    id r' = id r /\ incident_id r' = incident_id r /\
    action_type r' = action_type r /\ requested_by r' = requested_by r /\
    payload r' = payload r /\
    (exists more, approvals r' = (approvals r ++ more)%list) /\
    (req_status r <> pending -> req_status r' <> pending).
Proof.
  intros Hr Hc Hget.
  apply (call_continues s s' rid r Hc); [|exact Hget].
  exact (reachable_ids_fresh s Hr rid r Hget).
Qed.

End LifecycleFacts.

(** A second request leaves the first one as it is. *)
Lemma requests_never_regress_witness :
  exists r',
    Store.get_action_request
      (Service.store (fst (Service.request_action scenario_requested 1 "passive_scan" "op2" None)))
      1 = Some r' /\
    Store.action_type r' = "wifi_deauth_test"%string.
Proof.
  assert (H : exists r, Store.get_action_request (Service.store scenario_requested) 1 = Some r /\
                        Store.action_type r = "wifi_deauth_test"%string).
  { eexists. split; [vm_compute; reflexivity | reflexivity]. }
  destruct H as [r [Hget Ht]].
  destruct (requests_never_regress scenario_requested
              (fst (Service.request_action scenario_requested 1 "passive_scan" "op2" None))
              1 r) as [r' [Hg [_ [_ [Ha _]]]]].
  - unfold scenario_requested. apply reach_request, reach_initial.
  - apply call_request.
  - exact Hget.
  - exists r'. split; [exact Hg|]. rewrite Ha. exact Ht.
Defined.

Section AuditFacts.
Import PyStr Py Store Service.
Local Open Scope string_scope.

Lemma request_action_log (s : service) incident atype requester pl :
  action_audit_log (store (fst (request_action s incident atype requester pl))) =
    (action_audit_log (store s) ++
     [ {| request_id := next_request_id (store s); event_type := "requested";
          actor := requester;
          details := [("payload",
                       PyDict (match pl with Some ((_ :: _) as p) => p | _ => [] end))] |} ])%list.
Proof.
  unfold request_action, create_action_request.
  destruct (get_action_request _ _); reflexivity.
Qed.

(** X15: one call of a public method never removes or rewrites an audit
    entry and appends at most one; and a call that changes any stored
    request appends exactly one. *)
Theorem audit_log_append_only (s s' : service) :
  call s s' ->
  (exists tail, action_audit_log (store s') = (action_audit_log (store s) ++ tail)%list /\
                (length tail <= 1)%nat) /\
  ((exists rid, get_action_request (store s') rid <> get_action_request (store s) rid) ->
   length (action_audit_log (store s')) = S (length (action_audit_log (store s)))).
Proof.
  assert (Hsame : forall d d' : db, d' = d ->
            (exists tail, action_audit_log d' = (action_audit_log d ++ tail)%list /\
                          (length tail <= 1)%nat) /\
            ((exists rid, get_action_request d' rid <> get_action_request d rid) ->
             length (action_audit_log d') = S (length (action_audit_log d)))).
  { intros d d' ->. split.
    - exists []. rewrite app_nil_r. split; [reflexivity | simpl; lia].
    - intros [rid Hne]. congruence. }
  assert (Hone : forall (d d' : db) e, action_audit_log d' = (action_audit_log d ++ [e])%list ->
            (exists tail, action_audit_log d' = (action_audit_log d ++ tail)%list /\
                          (length tail <= 1)%nat) /\
            ((exists rid, get_action_request d' rid <> get_action_request d rid) ->
             length (action_audit_log d') = S (length (action_audit_log d)))).
  { intros d d' e E. split.
    - exists [e]. split; [exact E | simpl; lia].
    - intros _. rewrite E, length_app. simpl. lia. }
  intros Hc. destruct Hc as [s now|s now now' actor reason incident d|s now actor reason
                             |s incident atype requester pl|s rid approver dec nt|s now rid who].
  - apply Hsame. apply state_keeps_store.
  - apply Hsame. apply arm_keeps_store.
  - apply Hsame. apply disarm_keeps_store.
  - eapply Hone. apply request_action_log.
  - destruct (get_action_request (store s) rid) as [r|] eqn:H.
    + destruct (already_decided approver (approvals r)) eqn:Hd.
      * apply Hsame. rewrite (approve_action_repeat s rid approver dec nt r H Hd). reflexivity.
      * destruct (approve_action_fresh s rid approver dec nt r H Hd) as [_ [Hl _]].
        eapply Hone. exact Hl.
    + apply Hsame. rewrite (approve_action_missing s rid approver dec nt H). reflexivity.
  - destruct (execute_action_cases s now rid who)
      as [[_ E]|[[r [_ [_ E]]]|[[r [until [_ [_ [_ [_ E]]]]]]|[r [until [H [Hp [Hlt [Hq _]]]]]]]]];
      cbv zeta in *; try (apply Hsame; rewrite E; reflexivity).
    destruct (execute_action_runs s now until rid who r H Hp Hlt Hq) as [_ [_ [Hl _]]].
    eapply Hone. exact Hl.
Qed.

End AuditFacts.

(** The execution of the scenario changes a request and appends one
    entry. *)
Lemma audit_log_append_only_witness :
  length (Store.action_audit_log (Service.store scenario_executed)) =
    S (length (Store.action_audit_log (Service.store scenario_approved))).
Proof.
  refine (proj2 (audit_log_append_only scenario_approved scenario_executed _) _).
  - unfold scenario_executed. apply call_execute.
  - exists 1. vm_compute. discriminate.
Defined.

(** ** Further properties of the arming policy *)

Section ClearedPolicy.
Import PyStr Py Store Service.
Local Open Scope string_scope.

Lemma read_disarmed (now : Q) :
  _policy_state_locked disarmed now =
    ({| armed := false; armed_by := None; arm_reason := None; arm_incident_id := None;
        armed_until := None; required_approvals_default := 2 |}, disarmed).
Proof. reflexivity. Qed.

Lemma cleared_policy (s1 : service) : cleared s1 -> pol s1 = disarmed.
Proof.
  intros [[s [now [actor [reason ->]]]]|[s [now [-> Ha]]]].
  - unfold disarm_actions. rewrite read_disarmed. reflexivity.
  - unfold get_policy_state in *. pose proof (read_not_armed (pol s) now) as Hn.
    destruct (_policy_state_locked (pol s) now) as [st p]. simpl in *. exact (Hn Ha).
Qed.

Lemma reads_disarmed (times : list Q) (s : service) :
  pol s = disarmed ->
  Forall (fun st => armed st = false) (snd (reads s times)) /\
  fst (reads s times) = s.
Proof.
  revert s. induction times as [|t times IH]; intros s Hp; [split; [constructor|reflexivity]|].
  cbn [reads]. unfold get_policy_state. rewrite Hp, read_disarmed.
  assert (E : with_policy s disarmed = s) by (destruct s; unfold with_policy; simpl in *; congruence).
  rewrite E. destruct (IH s Hp) as [H1 H2]. destruct (reads s times) as [s2 sts].
  simpl in *. split; [constructor; [reflexivity | exact H1] | exact H2].
Qed.

(** X16: after [disarm_actions], or after a read of the policy that
    found the deadline passed, every later read reports the policy as
    not armed, whatever the clock says (also a clock that has stepped
    back), and [execute_action] fails without touching the store, until
    [arm_actions] is called. *)
Theorem cleared_policy_stays_cleared (s1 : service) (times : list Q) (now : Q)
    (rid : Z) (who : string) :
  cleared s1 ->
  Forall (fun st => armed st = false) (snd (reads s1 times)) /\
  fst (reads s1 times) = s1 /\
  store (fst (execute_action s1 now rid who)) = store s1 /\
  (snd (execute_action s1 now rid who) = (None, Some "Action plane is not armed") \/
   snd (execute_action s1 now rid who) = (None, Some "Action request not found")).
Proof.
  intros Hc. pose proof (cleared_policy s1 Hc) as Hp.
  destruct (reads_disarmed times s1 Hp) as [H1 H2].
  split; [exact H1|]. split; [exact H2|].
  destruct (execute_action_cases s1 now rid who)
    as [[_ E]|[[r [_ [_ E]]]|[[r [until [_ [Hu _]]]]|[r [until [_ [Hu _]]]]]]];
    cbv zeta in *.
  - rewrite E. split; [reflexivity | right; reflexivity].
  - rewrite E. split; [reflexivity | left; reflexivity].
  - rewrite Hp in Hu. discriminate.
  - rewrite Hp in Hu. discriminate.
Qed.

Lemma arm_duration_range (d : option Z) : 60 <= arm_duration d <= 7200.
Proof. unfold arm_duration. lia. Qed.

(** X17: whatever duration is asked for, the action plane is not armed
    any more 7200 seconds after [arm_actions] read the clock, and it is
    still armed at every reading before 60 seconds have passed. *)
Theorem arming_window_bounds (s : service) (t t' now : Q) (actor reason : string)
    (incident : Z) (d : option Z) :
  let s1 := fst (arm_actions s t t' actor reason incident d) in
  ((t + 7200 <= now)%Q -> armed (snd (get_policy_state s1 now)) = false) /\
  ((t' < t + 60)%Q -> (now < t + 60)%Q -> armed (snd (get_policy_state s1 now)) = true).
Proof.
  cbv zeta. pose proof (arm_duration_range d) as Hr.
  assert (Hlo : (60 <= inject_Z (arm_duration d))%Q)
    by (change 60%Q with (inject_Z 60); rewrite <- Zle_Qle; lia).
  assert (Hhi : (inject_Z (arm_duration d) <= 7200)%Q)
    by (change 7200%Q with (inject_Z 7200); rewrite <- Zle_Qle; lia).
  unfold arm_actions.
  set (p := {| _armed_until_ts := Some (t + inject_Z (arm_duration d))%Q;
               _armed_by := Some actor; _arm_reason := Some reason;
               _arm_incident_id := Some incident |}).
  split.
  - intros Hlate.
    assert (Hn : armed (fst (_policy_state_locked
                               (snd (_policy_state_locked p t')) now)) = false).
    { destruct (armed (fst (_policy_state_locked (snd (_policy_state_locked p t')) now)))
        eqn:E; [|reflexivity].
      apply armed_iff in E. destruct E as [until [Hu Hlt]].
      exfalso. unfold _policy_state_locked in Hu. cbn [snd _armed_until_ts p] in Hu.
      destruct (flt t' (t + inject_Z (arm_duration d))); cbn in Hu; [|discriminate].
      injection Hu as <-. generalize dependent (inject_Z (arm_duration d)). intros x. intros.
      lra. }
    destruct (_policy_state_locked p t') as [st p']. cbn [fst snd] in *.
    unfold get_policy_state. cbn [pol _emit with_policy].
    destruct (_policy_state_locked p' now). exact Hn.
  - intros Ht' Hnow.
    assert (Hlt' : (t' < t + inject_Z (arm_duration d))%Q).
    { generalize dependent (inject_Z (arm_duration d)). intros x. intros. lra. }
    assert (Hlt : (now < t + inject_Z (arm_duration d))%Q).
    { generalize dependent (inject_Z (arm_duration d)). intros x. intros. lra. }
    destruct (read_while_armed p t' _ eq_refl Hlt') as [_ Hsnd].
    destruct (_policy_state_locked p t') as [st p']. cbn [fst snd] in *. subst p'.
    unfold get_policy_state. cbn [pol _emit with_policy].
    destruct (read_while_armed p now _ eq_refl Hlt) as [Ha _].
    destruct (_policy_state_locked p now). exact Ha.
Qed.

End ClearedPolicy.

(** The policy after its window ran out, read at earlier times; and a
    window asked for a day. *)
Lemma cleared_policy_stays_cleared_witness :
  Forall (fun st => Service.armed st = false)
    (snd (reads scenario_expired [1001; 1059]%Q)) /\
  snd (Service.execute_action scenario_expired 1001 1 "op1") =
    (None, Some "Action plane is not armed"%string).
Proof.
  assert (Hc : cleared scenario_expired).
  { right. eexists. exists 1060%Q. split; [reflexivity|]. vm_compute. reflexivity. }
  destruct (cleared_policy_stays_cleared scenario_expired [1001; 1059]%Q 1001 1 "op1" Hc)
    as [H1 [_ [_ H2]]].
  split; [exact H1|]. destruct H2 as [H2|H2]; [exact H2|].
  exfalso. revert H2. vm_compute. discriminate.
Defined.

Lemma arming_window_bounds_witness :
  Service.armed (snd (Service.get_policy_state
    (fst (Service.arm_actions Service.initial 1000 1000 "op1" "test" 1 (Some 86400)))
    8200)) = false.
Proof.
  refine (proj1 (arming_window_bounds Service.initial 1000 1000 8200 "op1" "test" 1
                   (Some 86400)) _).
  vm_compute. discriminate.
Defined.

(** ** Properties of the event stream *)

Section StreamFacts.
Import Py Bus.
Local Open Scope string_scope.

Lemma newest_short {A} (n : nat) (l : list A) : (length l <= n)%nat -> newest n l = l.
Proof. intros H. unfold newest. replace (length l - n)%nat with 0%nat by lia. reflexivity. Qed.

Lemma newest_length {A} (n : nat) (l : list A) : (length (newest n l) <= n)%nat.
Proof. unfold newest. rewrite length_skipn. lia. Qed.

Lemma newest_app {A} (n : nat) (l r : list A) :
  newest n (newest n l ++ r) = newest n (l ++ r).
Proof.
  destruct (le_lt_dec (length l) n) as [H|H].
  - rewrite (newest_short n l H). reflexivity.
  - unfold newest. rewrite !length_app, length_skipn.
    replace (length l - (length l - n) + length r - n)%nat with (length r) by lia.
    replace (length l + length r - n)%nat with (length r + (length l - n))%nat by lia.
    rewrite <- (skipn_skipn (length r) (length l - n) (l ++ r)).
    rewrite (skipn_app (length l - n) l r).
    replace (length l - n - length l)%nat with 0%nat by lia. reflexivity.
Qed.

(** One [_emit] on a queue within its bound. *)
Lemma offer_newest (e : envelope) (q : queue) :
  0 < maxsize q -> qsize q <= maxsize q ->
  offer e q = {| maxsize := maxsize q;
                 items := newest (Z.to_nat (maxsize q)) (items q ++ [e]) |}.
Proof.
  intros Hm Hq. unfold offer, put_nowait, qsize in *.
  destruct (Z.ltb_spec 0 (maxsize q)) as [_|]; [|lia]. cbn [andb].
  destruct (Z.leb_spec (maxsize q) (Z.of_nat (length (items q)))) as [Hfull|Hroom].
  - unfold get_nowait. destruct (items q) as [|x rest] eqn:E; [simpl in Hfull; lia|].
    cbn [maxsize items]. simpl length in *.
    destruct (Z.ltb_spec 0 (maxsize q)) as [_|]; [|lia]. cbn [andb].
    destruct (Z.leb_spec (maxsize q) (Z.of_nat (length rest))) as [|_]; [lia|].
    f_equal. unfold newest. rewrite <- app_comm_cons. simpl length. rewrite length_app. simpl.
    replace (S (length rest + 1) - Z.to_nat (maxsize q))%nat with 1%nat by lia. reflexivity.
  - f_equal. symmetry. apply newest_short. rewrite length_app. simpl. lia.
Qed.


Lemma emit_all_nth (calls : list envelope) (subs : list queue) (i : nat) (q : queue) :
  nth_error subs i = Some q -> 0 < maxsize q -> qsize q <= maxsize q ->
  nth_error (emit_all subs calls) i =
    Some {| maxsize := maxsize q;
            items := newest (Z.to_nat (maxsize q)) (items q ++ calls) |}.
Proof.
  revert subs q. induction calls as [|c calls IH]; intros subs q Hi Hm Hq.
  - simpl. rewrite Hi. f_equal. destruct q as [m l]. cbn [maxsize items] in *.
    rewrite app_nil_r, newest_short; [reflexivity|]. unfold qsize in Hq. simpl in Hq. lia.
  - cbn [emit_all]. unfold _emit.
    assert (Hc : {| type := type c; timestamp := timestamp c; payload := payload c |} = c)
      by (destruct c; reflexivity).
    rewrite Hc.
    rewrite (IH _ (offer c q)).
    + rewrite (offer_newest c q Hm Hq). cbn [maxsize items]. f_equal. f_equal.
      rewrite newest_app, <- app_assoc. reflexivity.
    + rewrite nth_error_map, Hi. reflexivity.
    + rewrite (offer_newest c q Hm Hq). exact Hm.
    + rewrite (offer_newest c q Hm Hq). unfold qsize. cbn [maxsize items].
      pose proof (newest_length (Z.to_nat (maxsize q)) (items q ++ [c])). lia.
Qed.

Lemma take_events_items (l : list envelope) (m : Z) (k : nat) (now : string) :
  take_events (length l + k) {| maxsize := m; items := l |} now =
    ((l ++ repeat (keepalive now) k)%list, {| maxsize := m; items := [] |}).
Proof.
  induction l as [|e l IH].
  - simpl. induction k as [|k IHk]; [reflexivity|].
    cbn [take_events]. unfold next_event, get_nowait. cbn [items].
    rewrite IHk. reflexivity.
  - cbn [length Nat.add take_events]. unfold next_event, get_nowait. cbn [items maxsize].
    rewrite IH. reflexivity.
Qed.

(** X18: a client of [stream_events] that subscribed before a sequence
    of [_emit] calls finds in its queue the newest 500 envelopes of the
    sequence, in the order they were emitted (older ones were dropped,
    none is duplicated or reordered); reading them one after the other
    it receives exactly these and then keepalives. *)
Theorem stream_delivers_newest (subs : list queue) (calls : list envelope)
    (k : nat) (now : string) :
  exists q,
    nth_error (emit_all (subscribe subs) calls) (length subs) = Some q /\
    maxsize q = 500 /\
    items q = newest 500 calls /\
    (length (items q) <= 500)%nat /\
    fst (take_events (length (items q) + k) q now) =
      (newest 500 calls ++ repeat (keepalive now) k)%list.
Proof.
  eexists. split.
  - apply (emit_all_nth calls (subscribe subs) (length subs) client_queue).
    + unfold subscribe. rewrite nth_error_app2, Nat.sub_diag; [reflexivity | lia].
    + reflexivity.
    + discriminate.
  - cbn [maxsize items client_queue app]. change (Z.to_nat 500) with 500%nat.
    split; [reflexivity|]. split; [reflexivity|]. split; [apply newest_length|].
    rewrite take_events_items. reflexivity.
Qed.
End StreamFacts.

(** ** Properties of the authorisation helpers and the action endpoints *)

Section AuthzFacts.
Import PyStr Py Authz.
Local Open Scope string_scope.
Context `{RT : Runtime}.

Lemma level_in (t : list (string * Z)) (role : string) (n : Z) :
  level t role = Some n -> In (role, n) t.
Proof.
  induction t as [|[k m] t IH]; simpl; [discriminate|].
  destruct (String.eqb_spec role k) as [->|_]; [intros [= ->]; now left | auto].
Qed.

Lemma current_role_cases (session : dict) :
  In (current_role session) ["viewer"; "analyst"; "operator"; "supervisor"; "admin"].
Proof.
  unfold current_role.
  destruct (level ROLE_LEVELS _) as [n|] eqn:E; [|now left].
  apply level_in in E. simpl in E.
  repeat (destruct E as [E|E]; [injection E as <- _; simpl; tauto|]). destruct E.
Qed.

(** X19: the role of a session is always one of the five known roles
    (anything else counts as viewer), so [has_role] with viewer holds
    for every session; a required role that is not a key of
    [ROLE_LEVELS] is satisfied by admin only; a session that satisfies a
    role satisfies every role of a lower or equal level; and operator is
    satisfied exactly by operator, supervisor and admin. *)
Theorem has_role_hierarchy (session : dict) :
  In (current_role session) ["viewer"; "analyst"; "operator"; "supervisor"; "admin"] /\
  has_role session "viewer" = true /\
  (forall required, level ROLE_LEVELS required = None ->
     (has_role session required = true <-> current_role session = "admin")) /\
  (forall r1 r2 n1 n2,
     level ROLE_LEVELS r1 = Some n1 -> level ROLE_LEVELS r2 = Some n2 -> n2 <= n1 ->
     has_role session r1 = true -> has_role session r2 = true) /\
  (has_role session "operator" = true <->
   current_role session = "operator" \/ current_role session = "supervisor" \/
   current_role session = "admin").
Proof.
  pose proof (current_role_cases session) as Hc.
  split; [exact Hc|]. unfold has_role.
  split; [|split; [|split]].
  - simpl in Hc. repeat (destruct Hc as [<-|Hc]; [reflexivity|]). destruct Hc.
  - intros required Hr. unfold level_or at 1. rewrite Hr.
    simpl in Hc. repeat (destruct Hc as [<-|Hc]; [vm_compute; intuition congruence|]).
    destruct Hc.
  - intros r1 r2 n1 n2 H1 H2 Hle. unfold level_or at 1 3. rewrite H1, H2.
    rewrite !Z.leb_le. lia.
  - simpl in Hc. repeat (destruct Hc as [<-|Hc]; [vm_compute; intuition congruence|]).
    destruct Hc.
Qed.

End AuthzFacts.

Section RouteFacts.
Import PyStr Py Store Service Authz Routes.
Local Open Scope string_scope.
Context `{RT : Runtime}.

Lemma approve_action_none (s : service) rid approver dec nt :
  snd (approve_action s rid approver dec nt) = None ->
  get_action_request (store s) rid = None /\ fst (approve_action s rid approver dec nt) = s.
Proof.
  intros Hn. destruct (get_action_request (store s) rid) as [r|] eqn:H.
  - exfalso. destruct (already_decided approver (approvals r)) eqn:Hd.
    + rewrite (approve_action_repeat s rid approver dec nt r H Hd) in Hn. discriminate.
    + destruct (approve_action_fresh s rid approver dec nt r H Hd) as [_ [_ [Hv _]]].
      rewrite Hn in Hv. discriminate.
  - rewrite (approve_action_missing s rid approver dec nt H). auto.
Qed.

(** X20: the execute endpoint answers 200, 400 or 403 and never 404.
    It answers 200 only for a session with the role operator or higher,
    with the action plane armed at both readings of the clock, for a
    request that exists and has its quorum, which is then stored as
    executed by the user of the session; with any other answer the
    stored requests, the audit log and the emitted events are as
    before. *)
Theorem actions_execute_answers (session : dict) (s : service) (now now' : Q)
    (request_id : Z) :
  let res := actions_execute session s now now' request_id in
  (status_code (snd res) = 200 \/ status_code (snd res) = 400 \/
   status_code (snd res) = 403) /\
  (status_code (snd res) = 200 ->
   has_role session "operator" = true /\
   exists r until,
     get_action_request (store s) request_id = Some r /\
     _armed_until_ts (pol s) = Some until /\ (now < until)%Q /\ (now' < until)%Q /\
     required_approvals (Some (action_type r)) <= count_approved (approvals r) /\
     get_action_request (store (fst res)) request_id =
       Some (set_status executed (Some (current_username session)) r)) /\
  (status_code (snd res) <> 200 ->
   store (fst res) = store s /\ emitted (fst res) = emitted s).
Proof.
  cbv zeta. unfold actions_execute.
  destruct (has_role session "operator") eqn:Hrole; cbn [negb].
  2:{ cbn. split; [auto|]. split; [discriminate | auto]. }
  destruct (armed (snd (get_policy_state s now))) eqn:Ha.
  2:{ pose proof (state_keeps_store s now) as [Hst Hem].
      destruct (get_policy_state s now) as [s1 st]. cbn [fst snd] in *. rewrite Ha.
      cbn. split; [auto|]. split; [discriminate | auto]. }
  assert (Hu : exists until, _armed_until_ts (pol s) = Some until /\ (now < until)%Q).
  { apply armed_iff. unfold get_policy_state in Ha.
    destruct (_policy_state_locked (pol s) now). exact Ha. }
  destruct Hu as [until [Hp Hlt]].
  destruct (state_while_armed s now until Hp Hlt) as [Hs _].
  destruct (get_policy_state s now) as [s1 st]. cbn [fst snd] in *. subst s1.
  rewrite Ha. cbn [negb].
  set (who := current_username session).
  destruct (execute_action_cases s now' request_id who)
    as [[_ E]|[[r [_ [_ E]]]|[[r [u [_ [_ [_ [_ E]]]]]]|[r [u [H [Hp' [Hlt' [Hq E]]]]]]]]];
    cbv zeta in E.
  - rewrite E. cbn. split; [auto|]. split; [discriminate | auto].
  - rewrite E. cbn. split; [auto|]. split; [discriminate | auto].
  - rewrite E. cbn. split; [auto|]. split; [discriminate | auto].
  - destruct (execute_action_runs s now' u request_id who r H Hp' Hlt' Hq)
      as [Ev [Hg _]]. cbv zeta in Ev, Hg.
    destruct (execute_action s now' request_id who) as [s2 [req err]].
    cbn [fst snd] in *. injection Ev as -> ->. cbn.
    split; [auto|]. split; [|congruence].
    intros _. split; [reflexivity|]. exists r, until.
    assert (u = until) by congruence. subst u.
    repeat (split; [assumption|]).
    rewrite Hg. destruct (decide (request_id = request_id)); [reflexivity|congruence].
Qed.

(** X21: the approve endpoint treats a decision that is missing, null
    or empty as approved; an answer 200 means that the session has the
    role supervisor or higher and that [approve_action] ran with the
    decision approved or rejected, in lower case, for the user of the
    session; with any other answer (400, 403, 404) the state of the
    service is unchanged. *)
Theorem actions_approve_decisions (session : dict) (s : service) (data : dict)
    (nt : option string) (request_id : Z) :
  let res := actions_approve session s data nt request_id in
  (truthy (get "decision" data) = false ->
   res = actions_approve session s [("decision", PyStr "approved")] nt request_id) /\
  (status_code (snd res) = 200 ->
   has_role session "supervisor" = true /\
   exists dec, (dec = "approved" \/ dec = "rejected") /\
     fst res = fst (approve_action s request_id (current_username session) dec nt)) /\
  (status_code (snd res) <> 200 -> fst res = s).
Proof.
  cbv zeta. unfold actions_approve.
  destruct (has_role session "supervisor") eqn:Hrole; cbn [negb].
  2:{ split; [auto|]. cbn. split; [discriminate | auto]. }
  split.
  { intros Hf.
    assert (E1 : or_ (get "decision" data) (PyStr "approved") = PyStr "approved")
      by (unfold or_; rewrite Hf; reflexivity).
    assert (E2 : or_ (get "decision" [("decision", PyStr "approved")]) (PyStr "approved")
                 = PyStr "approved") by reflexivity.
    rewrite E1, E2. reflexivity. }
  set (dec := lower (strip (str (or_ (get "decision" data) (PyStr "approved"))))).
  destruct (Detector.mem_str dec ["approved"; "rejected"]) eqn:Hm; cbn [negb].
  2:{ cbn. split; [discriminate | auto]. }
  assert (Hdec : dec = "approved" \/ dec = "rejected").
  { unfold Detector.mem_str in Hm. cbn [existsb] in Hm.
    apply orb_true_iff in Hm. destruct Hm as [Hm|Hm].
    - left. now apply String.eqb_eq.
    - rewrite orb_false_r in Hm. right. now apply String.eqb_eq. }
  pose proof (approve_action_none s request_id (current_username session) dec nt) as Hnone.
  destruct (approve_action s request_id (current_username session) dec nt)
    as [s1 [req|]] eqn:E; cbn [fst snd] in *.
  - cbn. split; [|congruence]. intros _. split; [reflexivity|]. exists dec.
    rewrite E. auto.
  - cbn. split; [discriminate|]. intros _. now apply Hnone.
Qed.

End RouteFacts.

(** The operator of the examples executes the approved request. *)
Lemma actions_execute_answers_witness :
  Routes.status_code
    (snd (@Routes.actions_execute example_runtime operator_session scenario_approved
            1001 1002 1)) = 200 /\
  Authz.has_role (RT := example_runtime) operator_session "operator" = true.
Proof.
  assert (H : Routes.status_code
                (snd (@Routes.actions_execute example_runtime operator_session
                        scenario_approved 1001 1002 1)) = 200)
    by (vm_compute; reflexivity).
  split; [exact H|].
  exact (proj1 (proj1 (proj2 (@actions_execute_answers example_runtime operator_session
                                scenario_approved 1001 1002 1)) H)).
Defined.
